(** * The research agent of [src/app/layout.tsx]: a shallow embedding

    The page component keeps one [State] value, talks to five HTTP endpoints
    and offers two flows: the manual one ([handleSearch], [handleResultSelect])
    and the agent pipeline ([handleAgentSearch]).  The embedding follows the
    TypeScript text: asynchronous handlers are programs of a state-and-exception
    monad over a [Machine] (the React state, the outside world, and the log of
    effects the code performs), thrown values are an inductive type, and the
    endpoints are oracles on the outside world. *)

From Stdlib Require Import Ascii String QArith DecimalString DecimalNat Sorted Permutation.
From stdpp Require Import gmap strings list fin_maps.

Open Scope string_scope.
Open Scope nat_scope.

(** ** JavaScript values that the code throws and inspects *)

(** What a [catch] clause can receive.  [handleError] (lines 178-207)
    distinguishes exactly these shapes: an [Error] instance, a [Response], an
    object with an [error] key, a string, anything else. *)
Inductive Thrown : Type :=
  | JsError (message : string)
  | JsResponse (status : nat)
  | JsErrorObject (error : string)
  | JsString (s : string)
  | JsOther.

Inductive Outcome (A : Type) : Type :=
  | Returned (a : A)
  | Threw (e : Thrown).
Arguments Returned {A} a.
Arguments Threw {A} e.

(** ** Strings *)

(** [String.prototype.includes]: is [needle] a substring of [hay]? *)
Fixpoint includes (needle hay : string) : bool :=
  if String.prefix needle hay then true
  else match hay with
       | EmptyString => false
       | String _ rest => includes needle rest
       end.

(** Number to decimal text, as a template literal prints a non-negative
    integer. *)
Definition decimal (n : nat) : string := NilEmpty.string_of_uint (Nat.to_uint n).

(** The same for a time stamp, which is a binary number. *)
Definition decimalN (n : N) : string := NilEmpty.string_of_uint (N.to_uint n).

(** A JavaScript string is kept as the bytes of its UTF-8 encoding.  The
    characters [trim()] strips are the white space and line terminators of
    ECMAScript: U+0009 to U+000D and U+0020, which are one byte each, *)
Definition isSpace (c : ascii) : bool :=
  match c with
  | " "%char | "009"%char | "010"%char | "011"%char | "012"%char | "013"%char => true
  | _ => false
  end.

(** U+00A0, which is the two bytes C2 A0, *)
Definition isSpace2 (a b : ascii) : bool :=
  (nat_of_ascii a =? 194) && (nat_of_ascii b =? 160).

(** and, on three bytes each, U+1680 (E1 9A 80), U+2000 to U+200A (E2 80 80 to
    E2 80 8A), U+2028, U+2029 and U+202F (E2 80 A8, A9 and AF), U+205F
    (E2 81 9F), U+3000 (E3 80 80) and U+FEFF (EF BB BF). *)
Definition isSpace3 (a b c : ascii) : bool :=
  let a := nat_of_ascii a in
  let b := nat_of_ascii b in
  let c := nat_of_ascii c in
  ((a =? 225) && (b =? 154) && (c =? 128))
  || ((a =? 226) && (b =? 128)
      && (((128 <=? c) && (c <=? 138)) || (c =? 168) || (c =? 169) || (c =? 175)))
  || ((a =? 226) && (b =? 129) && (c =? 159))
  || ((a =? 227) && (b =? 128) && (c =? 128))
  || ((a =? 239) && (b =? 187) && (c =? 191)).

(** [!s.trim()] : the string is empty once its white space is trimmed, that
    is, it consists of such characters only. *)
Fixpoint isBlank (s : string) : bool :=
  match s with
  | EmptyString => true
  | String a rest =>
      if isSpace a then isBlank rest
      else
        match rest with
        | EmptyString => false
        | String b rest2 =>
            if isSpace2 a b then isBlank rest2
            else
              match rest2 with
              | EmptyString => false
              | String c rest3 => isSpace3 a b c && isBlank rest3
              end
        end
  end.

Definition lowerAscii (c : ascii) : ascii :=
  let n := nat_of_ascii c in
  if (65 <=? n) && (n <=? 90) then ascii_of_nat (n + 32) else c.

(** [String.prototype.toLowerCase] on the ASCII letters.  Its one use is the
    comparison with ['test'] (lines 553 and 610), which no other character
    can change: none lower-cases to a letter of that word. *)
Fixpoint toLowerCase (s : string) : string :=
  match s with
  | EmptyString => EmptyString
  | String c rest => String (lowerAscii c) (toLowerCase rest)
  end.

(** [arr.join(sep)] *)
Fixpoint join (sep : string) (l : list string) : string :=
  match l with
  | [] => ""
  | [x] => x
  | x :: rest => x ++ sep ++ join sep rest
  end.

(** Truthiness of an optional string: [undefined] and [''] are falsy. *)
Definition truthy (o : option string) : bool :=
  match o with
  | Some s => negb (String.eqb s "")
  | None => false
  end.

(** ** Rate-limit classification *)

(** [error instanceof Error && error.message.includes('429')], the test written
    at lines 116, 230, 333 and 737. *)
Definition isRateLimit (error : Thrown) : bool :=
  match error with
  | JsError message => includes "429" message
  | _ => false
  end.

(** ** Data model *)

(** [CONFIG.search] of the configuration module: the one setting the page
    reads. *)
Module CONFIG.
Definition maxSelectableResults : nat := 3.
Definition resultsPerPage : nat := 10.
End CONFIG.

Definition MAX_SELECTIONS : nat := CONFIG.maxSelectableResults.

(** A JSON document the page stores without looking inside it.  What the
    report endpoint sends is an [option Report]: the JSON value [null] is
    [None], and the page stores it like any other. *)
Definition Report : Type := string.

Inductive TimeFilter : Type := TfAll | Tf24h | TfWeek | TfMonth | TfYear.

(** Modelled from the spec: the declarations of [@/types] ([SearchResult],
    [RankingResult], [Status], [State]) are not among the sources.  The fields
    are the ones the page reads and writes; section 3 of the specification
    names the same components.  A score is a finite JavaScript number; only its
    order and its comparison with 0 are ever used, so it is a rational here. *)
Module SearchResult.
Record t : Type := mk {
  id : string;
  url : string;
  name : string;
  snippet : string;
  content : option string;
  score : option Q;
  isCustomUrl : bool
}.
Definition with_id (v : string) (r : t) : t :=
  mk v (url r) (name r) (snippet r) (content r) (score r) (isCustomUrl r).
Definition with_score (v : option Q) (r : t) : t :=
  mk (id r) (url r) (name r) (snippet r) (content r) v (isCustomUrl r).
End SearchResult.

Module RankingResult.
Record t : Type := mk { url : string; score : Q }.
End RankingResult.

(** The object [{ url, title, content }] that content resolution returns. *)
Module ContentResult.
Record t : Type := mk { url : string; title : string; content : string }.
End ContentResult.

Inductive SourceStatus : Type := fetched | preview.

Module FetchStatus.
Record t : Type := mk {
  total : nat;
  successful : nat;
  fallback : nat;
  sourceStatuses : gmap string SourceStatus
}.
End FetchStatus.

(** Modelled from the spec: the stage tags.  The page assigns the first five;
    [error] is the abort stage of section 4.5 of the specification. *)
Inductive AgentStep : Type :=
  | idle | processing | searching | analyzing | generating | error.

Module Status.
Record t : Type := mk {
  loading : bool;
  generatingReport : bool;
  agentStep : AgentStep;
  fetchStatus : FetchStatus.t;
  agentInsights : list string;
  searchQueries : list string
}.
Definition with_loading v (s : t) : t :=
  mk v (generatingReport s) (agentStep s) (fetchStatus s) (agentInsights s) (searchQueries s).
Definition with_generatingReport v (s : t) : t :=
  mk (loading s) v (agentStep s) (fetchStatus s) (agentInsights s) (searchQueries s).
Definition with_agentStep v (s : t) : t :=
  mk (loading s) (generatingReport s) v (fetchStatus s) (agentInsights s) (searchQueries s).
Definition with_fetchStatus v (s : t) : t :=
  mk (loading s) (generatingReport s) (agentStep s) v (agentInsights s) (searchQueries s).
Definition with_agentInsights v (s : t) : t :=
  mk (loading s) (generatingReport s) (agentStep s) (fetchStatus s) v (searchQueries s).
Definition with_searchQueries v (s : t) : t :=
  mk (loading s) (generatingReport s) (agentStep s) (fetchStatus s) (agentInsights s) v.
End Status.

Module State.
Record t : Type := mk {
  query : string;
  timeFilter : TimeFilter;
  results : list SearchResult.t;
  selectedResults : list string;
  reportPrompt : string;
  report : option Report;
  error : option string;
  newUrl : string;
  isSourcesOpen : bool;
  selectedModel : string;
  isAgentMode : bool;
  sidebarOpen : bool;
  activeTab : string;
  status : Status.t
}.
Definition with_query v (s : t) : t :=
  mk v (timeFilter s) (results s) (selectedResults s) (reportPrompt s) (report s)
     (error s) (newUrl s) (isSourcesOpen s) (selectedModel s) (isAgentMode s)
     (sidebarOpen s) (activeTab s) (status s).
Definition with_results v (s : t) : t :=
  mk (query s) (timeFilter s) v (selectedResults s) (reportPrompt s) (report s)
     (error s) (newUrl s) (isSourcesOpen s) (selectedModel s) (isAgentMode s)
     (sidebarOpen s) (activeTab s) (status s).
Definition with_selectedResults v (s : t) : t :=
  mk (query s) (timeFilter s) (results s) v (reportPrompt s) (report s)
     (error s) (newUrl s) (isSourcesOpen s) (selectedModel s) (isAgentMode s)
     (sidebarOpen s) (activeTab s) (status s).
Definition with_reportPrompt v (s : t) : t :=
  mk (query s) (timeFilter s) (results s) (selectedResults s) v (report s)
     (error s) (newUrl s) (isSourcesOpen s) (selectedModel s) (isAgentMode s)
     (sidebarOpen s) (activeTab s) (status s).
Definition with_report v (s : t) : t :=
  mk (query s) (timeFilter s) (results s) (selectedResults s) (reportPrompt s) v
     (error s) (newUrl s) (isSourcesOpen s) (selectedModel s) (isAgentMode s)
     (sidebarOpen s) (activeTab s) (status s).
Definition with_error v (s : t) : t :=
  mk (query s) (timeFilter s) (results s) (selectedResults s) (reportPrompt s) (report s)
     v (newUrl s) (isSourcesOpen s) (selectedModel s) (isAgentMode s)
     (sidebarOpen s) (activeTab s) (status s).
Definition with_activeTab v (s : t) : t :=
  mk (query s) (timeFilter s) (results s) (selectedResults s) (reportPrompt s) (report s)
     (error s) (newUrl s) (isSourcesOpen s) (selectedModel s) (isAgentMode s)
     (sidebarOpen s) v (status s).
Definition with_status v (s : t) : t :=
  mk (query s) (timeFilter s) (results s) (selectedResults s) (reportPrompt s) (report s)
     (error s) (newUrl s) (isSourcesOpen s) (selectedModel s) (isAgentMode s)
     (sidebarOpen s) (activeTab s) v.
End State.

(** The value given to [useState] at lines 130-152.  [DEFAULT_MODEL] comes from
    a module outside the sources and is a parameter. *)
Definition initialState (DEFAULT_MODEL : string) : State.t :=
  State.mk "" TfAll [] [] "" None None "" false DEFAULT_MODEL false false "search"
    (Status.mk false false idle (FetchStatus.mk 0 0 0 ∅) [] []).

(** ** The outside world: endpoints, clock, URL parser *)

(** The body of a failed response read by [response.json().catch(...)]: it is
    not JSON; or it is the JSON value [null], on which reading [.error] throws
    a [TypeError]; or it is another JSON value, whose [error] field may be
    missing ([error] is the field as [new Error] prints it). *)
Inductive ErrorBody : Type :=
  | BodyUnreadable
  | BodyNull
  | BodyRead (error : option string).

(** A [Response]: [json] is what [response.json()] settles to when the body is
    read as the endpoint's payload, [errorData] the same body read as an error
    object. *)
Module Response.
Record t (T : Type) : Type := mk {
  ok : bool;
  status : nat;
  statusText : string;
  json : Outcome T;
  errorData : ErrorBody
}.
Arguments mk {T}.
Arguments ok {T}.
Arguments status {T}.
Arguments statusText {T}.
Arguments json {T}.
Arguments errorData {T}.
End Response.

(** The message of the [TypeError] that reading [errorData.error] throws when
    [errorData] is [null], in the words of V8. *)
Definition nullErrorText : string := "Cannot read properties of null (reading 'error')".

(** The message of the [Error] thrown for a refused response by
    [throw new Error(errorData.error || template)], where an unreadable body
    was replaced by [{ error: fallbackText }]: the [error] field when it is
    truthy, the template otherwise; on a [null] body the expression throws its
    [TypeError] instead, which is an [Error] as well. *)
Definition errorMessage (fallbackText template : string) (b : ErrorBody) : string :=
  match b with
  | BodyNull => nullErrorText
  | BodyUnreadable => if String.eqb fallbackText "" then template else fallbackText
  | BodyRead (Some s) => if String.eqb s "" then template else s
  | BodyRead None => template
  end.

Module Optimized.
Record t : Type := mk {
  query : string;
  optimizedPrompt : string;
  explanation : string;
  suggestedStructure : option (list string)
}.
End Optimized.

Module Analysis.
Record t : Type := mk { rankings : list RankingResult.t; analysis : string }.
End Analysis.

(** The element [{ title, snippet, url, content }] sent to the analyzer. *)
Module AnalyzeItem.
Record t : Type := mk {
  title : string; snippet : string; url : string; content : option string
}.
End AnalyzeItem.

(** The JSON bodies the page posts, one constructor per endpoint. *)
Inductive Request : Type :=
  | ReqOptimize (prompt platformModel : string)
  | ReqSearch (query : string) (timeFilter : TimeFilter) (isTestQuery : option bool)
  | ReqAnalyze (prompt : string) (results : list AnalyzeItem.t) (isTestQuery : bool)
               (platformModel : string)
  | ReqFetchContent (url : string)
  | ReqReport (selectedResults : list ContentResult.t) (sources : list SearchResult.t)
              (prompt platformModel : string).

(** What the page does to its surroundings, in the order it does it. *)
Inductive Effect : Type :=
  | EffFetch (request : Request)
  | EffSleep (ms : nat)
  | EffToast (title description : string).

(** The collaborators of section 6 of the specification, as oracles over a
    world [W] they may change; [hostname u] is [new URL(u).hostname], [None]
    when the constructor throws, and [invalidUrl u] the message of that
    [TypeError]. *)
Record Collaborators (W : Type) : Type := {
  date_now : W -> N;
  hostname : string -> option string;
  invalidUrl : string -> string;
  post_optimize : string -> string -> W -> Outcome (Response.t Optimized.t) * W;
  post_search : string -> TimeFilter -> W -> Outcome (Response.t (option (list SearchResult.t))) * W;
  post_analyze : string -> list AnalyzeItem.t -> string -> W -> Outcome (Response.t Analysis.t) * W;
  post_fetch_content : string -> W -> Outcome (Response.t (option string)) * W;
  post_report : list ContentResult.t -> list SearchResult.t -> string -> string -> W
                -> Outcome (Response.t (option Report)) * W
}.
Arguments date_now {W}.
Arguments hostname {W}.
Arguments invalidUrl {W}.
Arguments post_optimize {W}.
Arguments post_search {W}.
Arguments post_analyze {W}.
Arguments post_fetch_content {W}.
Arguments post_report {W}.

Record Machine (W : Type) : Type := mkMachine {
  app : State.t;
  ext : W;
  effects : list Effect
}.
Arguments mkMachine {W}.
Arguments app {W}.
Arguments ext {W}.
Arguments effects {W}.

(** ** Handlers as programs *)

Section Monad.
Context {W : Type}.

Definition M (A : Type) : Type := Machine W -> Outcome A * Machine W.

Definition ret {A} (a : A) : M A := fun m => (Returned a, m).

Definition throw {A} (e : Thrown) : M A := fun m => (Threw e, m).

Definition bind {A B} (x : M A) (k : A -> M B) : M B :=
  fun m => match x m with
           | (Returned a, m') => k a m'
           | (Threw e, m') => (Threw e, m')
           end.

(** [try { x } catch (error) { handler }] *)
Definition try_catch {A} (x : M A) (handler : Thrown -> M A) : M A :=
  fun m => match x m with
           | (Returned a, m') => (Returned a, m')
           | (Threw e, m') => handler e m'
           end.

(** [try { x } finally { cleanup }], for a cleanup that cannot throw. *)
Definition try_finally {A} (x : M A) (cleanup : M unit) : M A :=
  fun m => match x m with
           | (r, m') => (r, snd (cleanup m'))
           end.

Definition perform (e : Effect) : M unit :=
  fun m => (Returned tt, mkMachine (app m) (ext m) (effects m ++ [e])).

(** [setState((prev) => f(prev))] *)
Definition setState (f : State.t -> State.t) : M unit :=
  fun m => (Returned tt, mkMachine (f (app m)) (ext m) (effects m)).

(** A call to an endpoint: the request is logged, the oracle answers. *)
Definition call {T} (request : Request) (oracle : W -> Outcome T * W) : M T :=
  fun m => match oracle (ext m) with
           | (r, w') => (r, mkMachine (app m) w' (effects m ++ [EffFetch request]))
           end.

Definition readWorld {A} (f : W -> A) : M A := fun m => (Returned (f (ext m)), m).
End Monad.
Arguments M : clear implicits.

Notation "'let*' x ':=' e 'in' k" := (bind e (fun x => k))
  (at level 10, x pattern, e at level 100, k at level 200).
Notation "e ';;' k" := (bind e (fun _ => k))
  (at level 100, k at level 200, right associativity).

Section Page.
Context {W : Type}.

(** [updateState(updates)] (lines 160-162) merges a partial state; the merge
    is passed as the function that overwrites the listed fields. *)
Definition updateState (updates : State.t -> State.t) : M W unit := setState updates.

(** [updateStatus(updates)] (lines 164-175), for an object as for a function. *)
Definition updateStatus (updates : Status.t -> Status.t) : M W unit :=
  setState (fun prev => State.with_status (updates (State.status prev)) prev).

Definition toast (title description : string) : M W unit :=
  perform (EffToast title description).

(** [sleep(ms)] (line 103) settles after the delay and never rejects. *)
Definition sleep (ms : nat) : M W unit := perform (EffSleep ms).

(** [handleError] (lines 178-207). *)
Definition errorText (e : Thrown) : string :=
  match e with
  | JsError message => message
  | JsResponse status => "Server error: " ++ decimal status
  | JsErrorObject text => text
  | JsString s => s
  | JsOther => "An unexpected error occurred"
  end.

Definition handleError (e : Thrown) (context : string) : M W unit :=
  let message := errorText e in
  updateState (State.with_error (Some message)) ;;
  toast context message.

(** [retryWithBackoff] (lines 105-126).  [remaining] counts the iterations
    the [for] loop still has, [i] is the loop variable; [lastError] starts
    out [undefined]. *)
Fixpoint retryLoop {T} (operation : M W T) (baseDelay remaining i : nat)
    (lastError : Thrown) : M W T :=
  match remaining with
  | 0 => throw lastError
  | S remaining' =>
      try_catch operation (fun e =>
        if isRateLimit e then
          let delay := baseDelay * 2 ^ i in
          sleep delay ;;
          retryLoop operation baseDelay remaining' (S i) e
        else throw e)
  end.

Definition retryWithBackoff {T} (operation : M W T) (maxRetries baseDelay : nat) : M W T :=
  retryLoop operation baseDelay maxRetries 0 JsOther.

(** The default arguments [maxRetries = 3], [baseDelay = 1000]. *)
Definition retryWithBackoff_default {T} (operation : M W T) : M W T :=
  retryWithBackoff operation 3 1000.
End Page.

(** ** Manual selection *)

(** [arr.includes(x)] on an array of strings. *)
Definition includesId (l : list string) (x : string) : bool := existsb (String.eqb x) l.

(** The state update of [handleResultSelect] (lines 237-269). *)
Definition handleResultSelect_update (resultId : string) (prev : State.t) : State.t :=
  let sel := State.selectedResults prev in
  if includesId sel resultId then
    State.with_reportPrompt
      (if length sel <=? 1 then "" else State.reportPrompt prev)
      (State.with_selectedResults
         (List.filter (fun id => negb (String.eqb id resultId)) sel) prev)
  else if MAX_SELECTIONS <=? length sel then prev
  else
    let newSelectedResults := (sel ++ [resultId])%list in
    let newReportPrompt :=
      if negb (State.isAgentMode prev)
         && (length newSelectedResults =? 1)
         && String.eqb (State.reportPrompt prev) ""
      then
        match List.find (fun r => String.eqb (SearchResult.id r) resultId)
                        (State.results prev) with
        | Some result =>
            "Analyze and summarize the key points from " ++ SearchResult.name result
        | None => State.reportPrompt prev
        end
      else State.reportPrompt prev in
    State.with_reportPrompt newReportPrompt
      (State.with_selectedResults newSelectedResults prev).

(** Two states select the same set of ids. *)
Definition sameSelection (s1 s2 : State.t) : Prop :=
  forall id, In id (State.selectedResults s1) <-> In id (State.selectedResults s2).

(** The set of URLs of the candidate list is the same in two states. *)
Definition sameUrls (s1 s2 : State.t) : Prop :=
  forall u, In u (map SearchResult.url (State.results s1))
            <-> In u (map SearchResult.url (State.results s2)).

Definition handleResultSelect {W} (resultId : string) : M W unit :=
  setState (handleResultSelect_update resultId).

(** The state after a sequence of toggles, and every state on the way. *)
Definition toggles (ids : list string) (s : State.t) : State.t :=
  foldl (fun st i => handleResultSelect_update i st) s ids.

Fixpoint toggleTrace (ids : list string) (s : State.t) : list State.t :=
  match ids with
  | [] => []
  | i :: rest =>
      let s' := handleResultSelect_update i s in s' :: toggleTrace rest s'
  end.

(** ** Ranking and the diversity selector *)

(** [x || 0] for an optional number. *)
Definition or0 (x : option Q) : Q :=
  match x with
  | Some q => if Qeq_bool q 0 then 0%Q else q
  | None => 0%Q
  end.

(** [r.score || 0] *)
Definition scoreOf (r : SearchResult.t) : Q := or0 (SearchResult.score r).

(** [a > b] on numbers. *)
Definition Qgtb (a b : Q) : bool := negb (Qle_bool a b).

(** [rankings.find((r) => r.url === result.url)?.score || 0] *)
Definition rankingScore (rankings : list RankingResult.t) (u : string) : Q :=
  or0 (option_map RankingResult.score
         (List.find (fun r => String.eqb (RankingResult.url r) u) rankings)).

(** [Array.prototype.sort] with the comparator
    [(a, b) => (b.score || 0) - (a.score || 0)] (lines 629-632).  The sort is
    stable, and a stable sort has one possible result: each element is put
    before the first later element whose score does not exceed its own. *)
Fixpoint insertByScore (x : SearchResult.t) (l : list SearchResult.t) : list SearchResult.t :=
  match l with
  | [] => [x]
  | y :: rest =>
      if Qle_bool (scoreOf y) (scoreOf x)
      then x :: y :: rest
      else y :: insertByScore x rest
  end.

Definition sortByScoreDesc (l : list SearchResult.t) : list SearchResult.t :=
  foldr insertByScore [] l.

(** [rankedResults] (lines 622-632). *)
Definition rankedResults (allResults : list SearchResult.t)
    (rankings : list RankingResult.t) : list SearchResult.t :=
  sortByScoreDesc
    (map (fun result =>
            SearchResult.with_score
              (Some (rankingScore rankings (SearchResult.url result))) result)
         allResults).

(** A [Set<string>] keeps insertion order and ignores a second [add]. *)
Definition setAdd (x : string) (s : list string) : list string :=
  if includesId s x then s else (s ++ [x])%list.

(** [result.score && result.score > 0.5] *)
Definition goodScore (x : option Q) : bool :=
  match x with
  | Some q => negb (Qeq_bool q 0) && Qgtb q (1 # 2)
  | None => false
  end.

Section Selector.
Context {W : Type} (env : Collaborators W).

Definition urlError (u : string) : Thrown := JsError (invalidUrl env u).

(** [new URL(result.url).hostname] *)
Definition hostOfResult (r : SearchResult.t) : option string :=
  hostname env (SearchResult.url r).

(** [Array.from(selectedUrls).some((url) => new URL(url).hostname === domain)] *)
Fixpoint hasSimilar (domain : string) (urls : list string) : Outcome bool :=
  match urls with
  | [] => Returned false
  | u :: rest =>
      match hostname env u with
      | None => Threw (urlError u)
      | Some h => if String.eqb h domain then Returned true else hasSimilar domain rest
      end
  end.

(** The [filter] callback of lines 651-663 run over the ranked list, with the
    set [selectedUrls] it closes over threaded through. *)
Fixpoint selectDiverse (cap : nat) (selectedUrls : list string)
    (ranked : list SearchResult.t) : Outcome (list SearchResult.t) :=
  match ranked with
  | [] => Returned []
  | result :: rest =>
      if cap <=? length selectedUrls then selectDiverse cap selectedUrls rest
      else
        match hostname env (SearchResult.url result) with
        | None => Threw (urlError (SearchResult.url result))
        | Some domain =>
            match hasSimilar domain selectedUrls with
            | Threw e => Threw e
            | Returned similar =>
                if negb similar && goodScore (SearchResult.score result) then
                  match selectDiverse cap (setAdd (SearchResult.url result) selectedUrls) rest with
                  | Returned l => Returned (result :: l)
                  | Threw e => Threw e
                  end
                else selectDiverse cap selectedUrls rest
            end
        end
  end.

(** [const selectedUrls = new Set<string>()] then the filter. *)
Definition selected (cap : nat) (ranked : list SearchResult.t) : Outcome (list SearchResult.t) :=
  selectDiverse cap [] ranked.
End Selector.

(** ** Content resolution *)

(** The two state updates of the fetch tracker, written inline at lines
    298-308/702-712 and 341-351/740-750. *)
Definition recordFetched (u : string) (prev : Status.t) : Status.t :=
  let fs := Status.fetchStatus prev in
  Status.with_fetchStatus
    (FetchStatus.mk (FetchStatus.total fs) (FetchStatus.successful fs + 1)
       (FetchStatus.fallback fs) (<[u := fetched]> (FetchStatus.sourceStatuses fs)))
    prev.

Definition recordFallback (u : string) (prev : Status.t) : Status.t :=
  let fs := Status.fetchStatus prev in
  Status.with_fetchStatus
    (FetchStatus.mk (FetchStatus.total fs) (FetchStatus.successful fs)
       (FetchStatus.fallback fs + 1) (<[u := preview]> (FetchStatus.sourceStatuses fs)))
    prev.

(** The non-empty string behind a truthy optional string. *)
Definition whenTruthy (o : option string) : option string :=
  if truthy o then o else None.

Section Resolver.
Context {W : Type} (env : Collaborators W).

(** A promise that is already settled. *)
Definition settle {A} (o : Outcome A) : M W A := fun m => (o, m).

(** [fetchContent] (lines 210-234); the value is [data.content].  Both arms
    of the [catch] rethrow. *)
Definition fetchContent (u : string) : M W (option string) :=
  try_catch
    (let* response := call (ReqFetchContent u) (post_fetch_content env u) in
     if negb (Response.ok response) then
       throw (JsError (errorMessage "Failed to fetch content"
                         ("Failed to fetch content: " ++ decimal (Response.status response))
                         (Response.errorData response)))
     else settle (Response.json response))
    (fun e => if isRateLimit e then throw e else throw e).

(** What [fetchContent] answers, as a function of the outside world alone. *)
Definition fetchContentW (u : string) (w : W) : Outcome (option string) * W :=
  match post_fetch_content env u w with
  | (Returned response, w') =>
      if negb (Response.ok response) then
        (Threw (JsError (errorMessage "Failed to fetch content"
                           ("Failed to fetch content: " ++ decimal (Response.status response))
                           (Response.errorData response))), w')
      else (Response.json response, w')
  | (Threw e, w') => (Threw e, w')
  end.

(** The callback mapped over the chosen sources, lines 699-756 (agent) and
    295-357 (manual; the same text with one more [console.error]). *)
Definition resolveContent (article : SearchResult.t) : M W ContentResult.t :=
  let u := SearchResult.url article in
  match whenTruthy (SearchResult.content article) with
  | Some c =>
      updateStatus (recordFetched u) ;;
      ret (ContentResult.mk u (SearchResult.name article) c)
  | None =>
      let* early :=
        try_catch
          (let* content := fetchContent u in
           match whenTruthy content with
           | Some c =>
               updateStatus (recordFetched u) ;;
               ret (Some (ContentResult.mk u (SearchResult.name article) c))
           | None => ret None
           end)
          (fun e => if isRateLimit e then throw e else ret None) in
      match early with
      | Some r => ret r
      | None =>
          updateStatus (recordFallback u) ;;
          ret (ContentResult.mk u (SearchResult.name article) (SearchResult.snippet article))
      end
  end.

(** [Promise.all(tasks)].  Every task has been started when [Promise.all] is
    called, so the tasks after a rejected one still run and leave their
    effects; the result is the list of values, or a rejection when some task
    rejected (the first in list order here; in a browser, the first to
    settle).  The tasks are run in list order: their state updates are
    counter increments and keyed writes, which commute. *)
Fixpoint promiseAll {A} (tasks : list (M W A)) : M W (list A) :=
  match tasks with
  | [] => ret []
  | t :: rest =>
      fun m =>
        match t m with
        | (Returned a, m1) =>
            match promiseAll rest m1 with
            | (Returned l, m2) => (Returned (a :: l), m2)
            | (Threw e, m2) => (Threw e, m2)
            end
        | (Threw e, m1) => (Threw e, snd (promiseAll rest m1))
        end
  end.

Definition resolveAll (sources : list SearchResult.t) : M W (list ContentResult.t) :=
  promiseAll (map resolveContent sources).

(** [contentResults.filter((r) => r.content?.trim())] *)
Definition withText (l : list ContentResult.t) : list ContentResult.t :=
  List.filter (fun r => negb (isBlank (ContentResult.content r))) l.

Definition initialFetchStatus (n : nat) : FetchStatus.t := FetchStatus.mk n 0 0 ∅.

Definition fetchStatusOf (m : Machine W) : FetchStatus.t :=
  Status.fetchStatus (State.status (app m)).

(** The machine once [update] has been applied to the status. *)
Definition statusUpdated (update : Status.t -> Status.t) (m : Machine W) : Machine W :=
  mkMachine (State.with_status (update (State.status (app m))) (app m)) (ext m) (effects m).

(** The content a source without content of its own ends up with, given the
    answer of the content fetcher. *)
Definition resolvedAs (article : SearchResult.t) (answer : Outcome (option string))
    : ContentResult.t :=
  ContentResult.mk (SearchResult.url article) (SearchResult.name article)
    match answer with
    | Returned content =>
        match whenTruthy content with
        | Some c => c
        | None => SearchResult.snippet article
        end
    | Threw _ => SearchResult.snippet article
    end.

(** The update of the fetch tracker that goes with an answer. *)
Definition recordAnswer (u : string) (answer : Outcome (option string))
    : Status.t -> Status.t :=
  match answer with
  | Returned content => if truthy content then recordFetched u else recordFallback u
  | Threw _ => recordFallback u
  end.

(** The fetch came back with text. *)
Definition fetchSucceeded (answer : Outcome (option string)) : Prop :=
  exists c, answer = Returned (Some c) /\ c <> "".

(** The fetch failed, and not with the rate-limit signal. *)
Definition fetchFailed (answer : Outcome (option string)) : Prop :=
  exists e, answer = Threw e /\ isRateLimit e = false.

(** Of the fetches of a batch, the one at position [failing] failed and the
    others succeeded: what this says of the answer at position [k]. *)
Definition answered (failing k : nat) (answer : Outcome (option string)) : Prop :=
  if k =? failing then fetchFailed answer else fetchSucceeded answer.
End Resolver.

(** ** The agent pipeline *)

Section Agent.
Context {W : Type} (env : Collaborators W).

(** The operations handed to [retryWithBackoff]. *)
Definition optimizeOp (prompt model : string) : M W Optimized.t :=
  let* response := call (ReqOptimize prompt model) (post_optimize env prompt model) in
  if negb (Response.ok response) then
    throw (JsError ("Failed to optimize research: " ++ decimal (Response.status response)
                      ++ " " ++ Response.statusText response))
  else settle (Response.json response).

Definition isTestQuery (query : string) : bool := String.eqb (toLowerCase query) "test".

Definition agentSearchOp (query : string) (tf : TimeFilter)
    : M W (option (list SearchResult.t)) :=
  let* response :=
    call (ReqSearch query tf (Some (isTestQuery query))) (post_search env query tf) in
  if negb (Response.ok response) then
    if Response.status response =? 429 then throw (JsError "Rate limit exceeded")
    else if Response.status response =? 403 then
      throw (JsError "Search quota exceeded. Please try again later or contact support.")
    else throw (JsError "Search failed")
  else settle (Response.json response).

Definition analyzeItem (r : SearchResult.t) : AnalyzeItem.t :=
  AnalyzeItem.mk (SearchResult.name r) (SearchResult.snippet r) (SearchResult.url r)
    (SearchResult.content r).

Definition analyzeOp (optimizedPrompt query model : string)
    (allResults : list SearchResult.t) : M W Analysis.t :=
  let items := map analyzeItem allResults in
  let* response :=
    call (ReqAnalyze optimizedPrompt items (isTestQuery query) model)
         (post_analyze env optimizedPrompt items model) in
  if negb (Response.ok response) then
    throw (JsError ("Failed to analyze results: " ++ decimal (Response.status response)
                      ++ " " ++ Response.statusText response))
  else settle (Response.json response).

(** [fetch('/api/report', ...).then((res) => res.json())]: the status of the
    response is not looked at. *)
Definition agentReportOp (contentResults : list ContentResult.t)
    (sources : list SearchResult.t) (prompt model : string) : M W (option Report) :=
  let* response :=
    call (ReqReport (withText contentResults) sources prompt model)
         (post_report env (withText contentResults) sources prompt model) in
  settle (Response.json response).

(** [allResults] (lines 587-594). *)
Definition mintIds (timestamp : N) (searchResults : list SearchResult.t)
    : list SearchResult.t :=
  imap (fun idx result =>
          SearchResult.with_score (Some 0%Q)
            (SearchResult.with_id
               ("search-" ++ decimalN timestamp ++ "-" ++ decimal idx ++ "-"
                  ++ SearchResult.url result) result))
       searchResults.

(** [selected.map((s) => new URL(s.url).hostname)] *)
Fixpoint hostnames (l : list SearchResult.t) : Outcome (list string) :=
  match l with
  | [] => Returned []
  | s :: rest =>
      match hostname env (SearchResult.url s) with
      | None => Threw (urlError env (SearchResult.url s))
      | Some h =>
          match hostnames rest with
          | Returned hs => Returned (h :: hs)
          | Threw e => Threw e
          end
      end
  end.

Definition setSize (l : list string) : nat := length (foldl (fun s x => setAdd x s) [] l).

Definition appendInsights (more : list string) (prev : Status.t) : Status.t :=
  Status.with_agentInsights (Status.agentInsights prev ++ more)%list prev.

(** Steps 1 and 2 (lines 510-577): the optimizer's answer and the search
    response for the optimized query. *)
Definition agentOptimizeAndSearch (state : State.t)
    : M W (Optimized.t * option (list SearchResult.t)) :=
  let model := State.selectedModel state in
  let* opt := retryWithBackoff_default (optimizeOp (State.reportPrompt state) model) in
  let query := Optimized.query opt in
  updateState (State.with_query query) ;;
  updateStatus (fun prev =>
    Status.with_agentInsights
      (Status.agentInsights prev
         ++ [("Research strategy: " ++ Optimized.explanation opt)%string]
         ++ match Optimized.suggestedStructure opt with
            | Some l => [("Suggested structure: " ++ join " → " l)%string]
            | None => []
            end)%list
      (Status.with_searchQueries [query] prev)) ;;
  updateStatus (Status.with_agentStep searching) ;;
  let* searchResponse :=
    retryWithBackoff_default (agentSearchOp query (State.timeFilter state)) in
  ret (opt, searchResponse).

(** Steps 1 to 3 (lines 510-686): from the prompt to the chosen sources. *)
Definition agentPlan (state : State.t) : M W (string * list SearchResult.t) :=
  let model := State.selectedModel state in
  let* found := agentOptimizeAndSearch state in
  let query := Optimized.query (fst found) in
  let optimizedPrompt := Optimized.optimizedPrompt (fst found) in
  let searchResults := default [] (snd found) in
  if length searchResults =? 0 then
    throw (JsError "No search results found. Please try a different query.")
  else
  let* timestamp := readWorld (date_now env) in
  let allResults := mintIds timestamp searchResults in
  updateStatus (Status.with_agentStep analyzing) ;;
  let* ranked := retryWithBackoff_default (analyzeOp optimizedPrompt query model allResults) in
  let rankedResults := rankedResults allResults (Analysis.rankings ranked) in
  if forallb (fun r => match SearchResult.score r with
                       | Some q => Qeq_bool q 0
                       | None => false
                       end) rankedResults then
    throw (JsError "No relevant results found. Please try a different query.")
  else
  updateStatus (appendInsights
    ["Analysis: " ++ Analysis.analysis ranked;
     "Found " ++ decimal (length rankedResults) ++ " relevant results"]) ;;
  let* selected := settle (selected env CONFIG.maxSelectableResults rankedResults) in
  if length selected =? 0 then
    throw (JsError "Could not find enough diverse, high-quality sources. Please try a different query.")
  else
  updateState (fun prev =>
    State.with_selectedResults (map SearchResult.id selected)
      (State.with_results rankedResults prev)) ;;
  let* domains := settle (hostnames selected) in
  updateStatus (appendInsights
    ["Selected " ++ decimal (length selected) ++ " diverse sources from "
       ++ decimal (setSize domains) ++ " unique domains"]) ;;
  ret (optimizedPrompt, selected).

(** Step 4 (lines 688-784): resolve the content of the chosen sources and
    ask for the report.  First the stage tag and a fresh fetch status. *)
Definition agentBeginFetch (n : nat) : M W unit :=
  updateStatus (Status.with_agentStep generating) ;;
  updateStatus (Status.with_fetchStatus (initialFetchStatus n)).

(** The report request and what follows it (lines 759-784). *)
Definition agentReport (state : State.t) (optimizedPrompt : string)
    (selected : list SearchResult.t) (contentResults : list ContentResult.t) : M W unit :=
  let* reportResponse :=
    retryWithBackoff_default
      (agentReportOp contentResults selected
         (optimizedPrompt ++ ". Provide comprehensive analysis.")
         (State.selectedModel state)) in
  updateState (fun prev => State.with_activeTab "report"
                             (State.with_report reportResponse prev)) ;;
  updateStatus (fun prev =>
    Status.with_agentStep idle (appendInsights ["Report generated successfully"] prev)).

Definition agentGenerate (state : State.t) (optimizedPrompt : string)
    (selected : list SearchResult.t) : M W unit :=
  agentBeginFetch (length selected) ;;
  let* contentResults := resolveAll env selected in
  agentReport state optimizedPrompt selected contentResults.

(** The two updates that open a run (lines 497-507). *)
Definition agentReset : M W unit :=
  updateStatus (fun prev =>
    Status.with_searchQueries []
      (Status.with_agentInsights [] (Status.with_agentStep processing prev))) ;;
  updateState (fun prev =>
    State.with_report None
      (State.with_selectedResults []
         (State.with_results [] (State.with_error None prev)))).

(** The [catch] clause of [handleAgentSearch] (lines 785-787). *)
Definition onAgentError : Thrown -> M W unit := fun e => handleError e "Agent Error".

(** [handleAgentSearch] (lines 485-797); [state] is the state the handler
    closed over when it was created. *)
Definition handleAgentSearch (state : State.t) : M W unit :=
  if isBlank (State.reportPrompt state) then
    toast "Missing Information" "Please provide a research topic"
  else
    agentReset ;;
    try_catch
      (let* plan := agentPlan state in
       agentGenerate state (fst plan) (snd plan))
      onAgentError.
End Agent.

(** ** The manual flow *)

(** The merge of a search response into the candidate list, the [setState]
    of lines 431-443. *)
Definition mergeResults (newResults : list SearchResult.t) (prev : State.t) : State.t :=
  State.with_error None
    (State.with_results
       (List.filter
          (fun r => SearchResult.isCustomUrl r
                    || includesId (State.selectedResults prev) (SearchResult.id r))
          (State.results prev)
        ++ List.filter
             (fun newResult =>
                negb (existsb (fun existing =>
                                 String.eqb (SearchResult.url existing)
                                            (SearchResult.url newResult))
                              (State.results prev)))
             newResults)%list
       prev).

(** [newResults] (lines 424-429): the id is [result.id || result.url] behind a
    time stamp. *)
Definition stampIds (now : N) (value : list SearchResult.t) : list SearchResult.t :=
  map (fun result =>
         SearchResult.with_id
           ("search-" ++ decimalN now ++ "-"
              ++ (if String.eqb (SearchResult.id result) "" then SearchResult.url result
                  else SearchResult.id result))
           result)
      value.

(** [handleRemoveResult] (lines 829-835). *)
Definition handleRemoveResult_update (resultId : string) (prev : State.t) : State.t :=
  State.with_selectedResults
    (List.filter (fun id => negb (String.eqb id resultId)) (State.selectedResults prev))
    (State.with_results
       (List.filter (fun r => negb (String.eqb (SearchResult.id r) resultId))
                    (State.results prev))
       prev).

Section Manual.
Context {W : Type} (env : Collaborators W).

Definition manualSearchOp (query : string) (tf : TimeFilter)
    : M W (option (list SearchResult.t)) :=
  let* res := call (ReqSearch query tf None) (post_search env query tf) in
  if negb (Response.ok res) then
    throw (JsError (errorMessage "Search failed"
                      ("Search failed: " ++ decimal (Response.status res))
                      (Response.errorData res)))
  else settle (Response.json res).

Definition manualReportOp (contentResults : list ContentResult.t)
    (sources : list SearchResult.t) (prompt model : string) : M W (option Report) :=
  let* res :=
    call (ReqReport (withText contentResults) sources prompt model)
         (post_report env (withText contentResults) sources prompt model) in
  if negb (Response.ok res) then
    throw (JsError (errorMessage "Failed to generate report"
                      ("Failed to generate report: " ++ decimal (Response.status res))
                      (Response.errorData res)))
  else settle (Response.json res).

(** The report branch of [handleSearch] (lines 280-398). *)
Definition manualGenerate (state : State.t) : M W unit :=
  updateStatus (Status.with_generatingReport true) ;;
  updateState (State.with_error None) ;;
  updateStatus (Status.with_fetchStatus
                  (initialFetchStatus (length (State.selectedResults state)))) ;;
  try_finally
    (try_catch
       (let chosen :=
          List.filter (fun r => includesId (State.selectedResults state) (SearchResult.id r))
                      (State.results state) in
        let* contentResults := resolveAll env chosen in
        let* response :=
          retryWithBackoff_default
            (manualReportOp contentResults chosen
               (State.query state ++ ". Provide comprehensive analysis.")
               (State.selectedModel state)) in
        updateState (fun prev => State.with_activeTab "report"
                                   (State.with_report response prev)))
       (fun e => handleError e "Report Generation Failed"))
    (updateStatus (Status.with_generatingReport false)).

(** The search branch of [handleSearch] (lines 400-448). *)
Definition manualSearch (state : State.t) : M W unit :=
  updateStatus (Status.with_loading true) ;;
  updateState (fun prev => State.with_reportPrompt "" (State.with_error None prev)) ;;
  try_finally
    (try_catch
       (let* response :=
          retryWithBackoff_default
            (manualSearchOp (State.query state) (State.timeFilter state)) in
        let* now := readWorld (date_now env) in
        setState (mergeResults (stampIds now (default [] response))))
       (fun e => handleError e "Search Error"))
    (updateStatus (Status.with_loading false)).

(** [handleSearch] (lines 272-462). *)
Definition handleSearch (state : State.t) : M W unit :=
  if isBlank (State.query state) then ret tt
  else
    let isGeneratingReport :=
      (0 <? length (State.selectedResults state)) && negb (State.isAgentMode state) in
    if isGeneratingReport then manualGenerate state else manualSearch state.
End Manual.

(** ** Adding a custom URL *)

(** [{ ...prev, newUrl: v }] *)
Definition withNewUrl (v : string) (s : State.t) : State.t :=
  State.mk (State.query s) (State.timeFilter s) (State.results s) (State.selectedResults s)
    (State.reportPrompt s) (State.report s) (State.error s) v (State.isSourcesOpen s)
    (State.selectedModel s) (State.isAgentMode s) (State.sidebarOpen s) (State.activeTab s)
    (State.status s).

(** The candidate built at lines 809-815. *)
Definition customResult (timestamp : N) (newUrl : string) : SearchResult.t :=
  SearchResult.mk ("custom-" ++ decimalN timestamp ++ "-" ++ newUrl) newUrl
    "Custom URL" "Custom URL added by user" None None true.

(** [state.results.some((r) => r.url === u)] *)
Definition hasUrl (results : list SearchResult.t) (u : string) : bool :=
  existsb (fun r => String.eqb (SearchResult.url r) u) results.

Section CustomUrl.
Context {W : Type} (env : Collaborators W).

(** [handleAddCustomUrl] (lines 800-827).  [new URL(state.newUrl)] is only
    there to throw on a malformed URL; the [catch] has no binding and reports
    a fixed string.  The duplicate test reads the state the handler closed
    over, the update is applied to the state of the moment. *)
Definition handleAddCustomUrl (state : State.t) : M W unit :=
  if isBlank (State.newUrl state) then ret tt
  else
    try_catch
      (match hostname env (State.newUrl state) with
       | None => throw (urlError env (State.newUrl state))
       | Some _ =>
           if negb (hasUrl (State.results state) (State.newUrl state)) then
             let* timestamp := readWorld (date_now env) in
             let newResult := customResult timestamp (State.newUrl state) in
             setState (fun prev =>
               withNewUrl "" (State.with_results (newResult :: State.results prev) prev))
           else ret tt
       end)
      (fun _ => handleError (JsString "Please enter a valid URL") "Invalid URL").
End CustomUrl.

(** ** The waits of the retry loop *)

(** The delays the loop sleeps when each of [n] turns ends in a rate-limit
    failure: [baseDelay * 2 ^ i] for the turns [i = 0 .. n-1]. *)
Definition backoffDelays (baseDelay n : nat) : list nat :=
  map (fun i => baseDelay * 2 ^ i) (seq 0 n).

(** The delays slept so far, read off the log of effects. *)
Fixpoint waits (l : list Effect) : list nat :=
  match l with
  | [] => []
  | EffSleep ms :: rest => ms :: waits rest
  | _ :: rest => waits rest
  end.

(** An operation that does not sleep itself. *)
Definition sleepless {W T} (operation : M W T) : Prop :=
  forall m, waits (effects (snd (operation m))) = waits (effects m).

(** An operation that fails on every call with the rate-limit signal. *)
Definition alwaysRateLimited {W T} (operation : M W T) : Prop :=
  forall m, exists e m', operation m = (Threw e, m') /\ isRateLimit e = true.

(** ** Decimal digits *)

Definition isDigit (c : ascii) : bool :=
  let n := nat_of_ascii c in (48 <=? n) && (n <=? 57).

Fixpoint allDigits (s : string) : bool :=
  match s with
  | EmptyString => true
  | String c rest => isDigit c && allDigits rest
  end.

(** ** Counting the invocations of an operation

    [counted operation] behaves as [operation] and counts its own calls in the
    world, the way a test double does. *)
Section Counted.
Context {W : Type}.

Definition inject (c : nat) (m : Machine W) : Machine (nat * W) :=
  mkMachine (app m) (c, ext m) (effects m).

Definition project (m : Machine (nat * W)) : Machine W :=
  mkMachine (app m) (snd (ext m)) (effects m).

Definition calls (m : Machine (nat * W)) : nat := fst (ext m).

Definition counted {T} (operation : M W T) : M (nat * W) T :=
  fun m => match operation (project m) with
           | (r, m') => (r, inject (S (calls m)) m')
           end.
End Counted.

(** ** Properties that a program keeps

    [keeps P operation]: if [P] holds of the machine before, it holds after,
    whatever the outcome.  [settled P] says that [P] does not look at the
    world and survives one more logged effect. *)
Section Keeps.
Context {W : Type}.

Definition keeps (P : Machine W -> Prop) {T} (operation : M W T) : Prop :=
  forall m, P m -> P (snd (operation m)).

Definition settled (P : Machine W -> Prop) : Prop :=
  forall a w w' l e, P (mkMachine a w l) -> P (mkMachine a w' (l ++ [e])).

Definition establishes (P : Machine W -> Prop) {T} (operation : M W T) : Prop :=
  forall m, P (snd (operation m)).

(** The stage tag is not the abort stage of the specification. *)
Definition notErrorStep (m : Machine W) : Prop :=
  Status.agentStep (State.status (app m)) <> error.

(** The effect [e] has been performed. *)
Definition performed (e : Effect) (m : Machine W) : Prop := In e (effects m).

(** The selection holds at most [MAX_SELECTIONS] ids. *)
Definition withinCap (m : Machine W) : Prop :=
  length (State.selectedResults (app m)) <= MAX_SELECTIONS.
End Keeps.

(** ** Concrete collaborators for the scenarios of section 8 *)

Module Scenario.

(** A reading of [new URL(u).hostname] that is enough for absolute URLs of
    the form [scheme://host/path]: the text between [://] and the next of
    [/], [?], [#], [:]; no host, no URL. *)
Fixpoint afterScheme (s : string) : option string :=
  match s with
  | EmptyString => None
  | String c rest =>
      if String.prefix "://" s then Some (String.substring 3 (String.length s - 3) s)
      else afterScheme rest
  end.

Fixpoint takeHost (s : string) : string :=
  match s with
  | EmptyString => EmptyString
  | String c rest =>
      if existsb (Ascii.eqb c) ["/"; "?"; "#"; ":"]%char then EmptyString
      else String c (takeHost rest)
  end.

Definition hostOf (u : string) : option string :=
  match afterScheme u with
  | Some rest => let h := takeHost rest in if String.eqb h "" then None else Some h
  | None => None
  end.

Definition okResponse {T} (v : T) : Response.t T :=
  Response.mk true 200 "OK" (Returned v) (BodyRead None).

Definition failedResponse {T} (status : nat) (text : string) : Response.t T :=
  Response.mk false status text (Threw (JsError "Unexpected end of JSON input"))
    (BodyRead None).

Definition candidate (u title snip : string) : SearchResult.t :=
  SearchResult.mk "" u title snip None None false.

(** Scenario B: five candidates over the domains a, a, b, c, d. *)
Definition a1 := candidate "https://a.example/one" "A one" "first page of a".
Definition a2 := candidate "https://a.example/two" "A two" "second page of a".
Definition b1 := candidate "https://b.example/" "B" "page of b".
Definition c1 := candidate "https://c.example/" "C" "page of c".
Definition d1 := candidate "https://d.example/" "D" "page of d".

Definition fiveResults : list SearchResult.t := [a1; a2; b1; c1; d1].

Definition fiveRankings : list RankingResult.t :=
  [RankingResult.mk "https://a.example/one" (9 # 10);
   RankingResult.mk "https://a.example/two" (8 # 10);
   RankingResult.mk "https://b.example/" (6 # 10);
   RankingResult.mk "https://c.example/" (4 # 10);
   RankingResult.mk "https://d.example/" (9 # 10)].

(** The world is the number of requests answered so far, which also serves
    as the clock.  [searchValue] is what the search provider returns and
    [failing u] is the status the content fetcher fails with on the page [u],
    if it fails on it. *)
Definition world : Type := nat.

Definition env (searchValue : option (list SearchResult.t))
    (failing : string -> option nat) : Collaborators world :=
  {| date_now := fun w => (1700000000000 + N.of_nat w)%N;
     hostname := hostOf;
     invalidUrl := fun _ => "Invalid URL";
     post_optimize := fun _ _ w =>
       (Returned (okResponse (Optimized.mk "q" "p" "search the topic directly" None)), S w);
     post_search := fun _ _ w => (Returned (okResponse searchValue), S w);
     post_analyze := fun _ _ _ w =>
       (Returned (okResponse (Analysis.mk fiveRankings "five pages ranked")), S w);
     post_fetch_content := fun u w =>
       match failing u with
       | Some status => (Returned (failedResponse status "failed"), S w)
       | None => (Returned (okResponse (Some ("full text of " ++ u))), S w)
       end;
     post_report := fun _ _ _ _ w => (Returned (okResponse (Some "{report}")), S w) |}.

Definition start (prompt : string) : State.t :=
  State.with_reportPrompt prompt (initialState "gemini-flash").

Definition boot (s : State.t) : Machine world := mkMachine s 0 [].

(** A manual search run twice over a provider that answers the same two
    pages each time. *)
Definition twoPages : Collaborators world := env (Some [a1; b1]) (fun _ => None).

Definition asking : State.t := State.with_query "rocq" (initialState "gemini-flash").

Definition firstSearch : Machine world := snd (handleSearch twoPages asking (boot asking)).

Definition secondSearch : Machine world :=
  snd (handleSearch twoPages (app firstSearch) firstSearch).

(** Scenario A: the search provider finds nothing. *)
Definition noResults : Collaborators world := env (Some []) (fun _ => None).

Definition afterNoResults : Machine world :=
  snd (handleAgentSearch noResults (start "test") (boot (start "test"))).

(** Scenario C: the five pages of scenario B, and the page of d cannot be
    fetched. *)
Definition oneUnreachable : Collaborators world :=
  env (Some fiveResults)
      (fun u => if String.eqb u "https://d.example/" then Some 500 else None).

(** The three sources the selector chooses in scenarios B and C, as the
    pipeline has them: id minted, score assigned. *)
Definition chosen (idx : nat) (q : Q) (r : SearchResult.t) : SearchResult.t :=
  SearchResult.with_score (Some q)
    (SearchResult.with_id
       ("search-1700000000002-" ++ decimal idx ++ "-" ++ SearchResult.url r) r).

Definition chosenA : SearchResult.t := chosen 0 (9 # 10) a1.
Definition chosenD : SearchResult.t := chosen 4 (9 # 10) d1.
Definition chosenB : SearchResult.t := chosen 2 (6 # 10) b1.

(** An operation that is rate limited on its first two calls. *)
Definition flaky : M world nat :=
  fun m =>
    let m' := mkMachine (app m) (S (ext m)) (effects m) in
    if ext m <? 2 then (Threw (JsError "Request failed with status code 429"), m')
    else (Returned 42, m').

End Scenario.

(** ** What a program ensures

    [ensures P operation Q R]: started where [P] holds, the operation ends
    where [Q] holds of its value if it returns, and where [R] holds if it
    throws. *)
Definition ensures {W A} (P : Machine W -> Prop) (operation : M W A)
    (Q : A -> Machine W -> Prop) (R : Machine W -> Prop) : Prop :=
  forall m, P m ->
    match operation m with
    | (Returned a, m') => Q a m'
    | (Threw _, m') => R m'
    end.

(** A run that has neither an error message nor a report yet. *)
Definition pending {W} (m : Machine W) : Prop :=
  State.error (app m) = None /\ State.report (app m) = None.

(** A run that ended with a report: the stored report is the body of an
    answer of the report endpoint to a request of this run, read as JSON
    (the value [null] included); that answer is the last thing that changed
    the outside world. *)
Definition reported {W} (env : Collaborators W) (state : State.t) (m : Machine W) : Prop :=
  (exists contents sources prompt w response,
      post_report env (withText contents) sources
        (prompt ++ ". Provide comprehensive analysis.") (State.selectedModel state) w
      = (Returned response, ext m)
      /\ Response.json response = Returned (State.report (app m)))
  /\ State.error (app m) = None
  /\ Status.agentStep (State.status (app m)) = idle
  /\ State.activeTab (app m) = "report".

(** The search endpoint accepted the request of a manual search and [value]
    is [webPages.value] of its answer; that answer is the last thing that
    changed the outside world. *)
Definition searchAnswered {W} (env : Collaborators W) (state : State.t)
    (value : option (list SearchResult.t)) (m : Machine W) : Prop :=
  exists w response,
    post_search env (State.query state) (State.timeFilter state) w
    = (Returned response, ext m)
    /\ Response.ok response = true
    /\ Response.json response = Returned value.

(** The report endpoint accepted the request of a manual report and [body] is
    the JSON value of its answer. *)
Definition reportAnswered {W} (env : Collaborators W) (state : State.t)
    (body : option Report) (m : Machine W) : Prop :=
  exists contents w response,
    post_report env (withText contents)
      (List.filter (fun r => includesId (State.selectedResults state) (SearchResult.id r))
                   (State.results state))
      (State.query state ++ ". Provide comprehensive analysis.")
      (State.selectedModel state) w
    = (Returned response, ext m)
    /\ Response.ok response = true
    /\ Response.json response = Returned body.

(** A run that ended with an error message and no report. *)
Definition aborted {W} (m : Machine W) : Prop :=
  (exists message, State.error (app m) = Some message) /\ State.report (app m) = None.

(** ** The protected parts of the manual flow *)

Section ManualBodies.
Context {W : Type} (env : Collaborators W).

(** What is inside the [try] of the search branch (lines 404-443). *)
Definition manualSearchBody (state : State.t) : M W unit :=
  let* response :=
    retryWithBackoff_default
      (manualSearchOp env (State.query state) (State.timeFilter state)) in
  let* now := readWorld (date_now env) in
  setState (mergeResults (stampIds now (default [] response))).

(** What is inside the [try] of the report branch (lines 292-391). *)
Definition manualGenerateBody (state : State.t) : M W unit :=
  let chosen :=
    List.filter (fun r => includesId (State.selectedResults state) (SearchResult.id r))
                (State.results state) in
  let* contentResults := resolveAll env chosen in
  let* response :=
    retryWithBackoff_default
      (manualReportOp env contentResults chosen
         (State.query state ++ ". Provide comprehensive analysis.")
         (State.selectedModel state)) in
  updateState (fun prev => State.with_activeTab "report"
                             (State.with_report response prev)).
End ManualBodies.

(** ** Collaborators that misbehave, for further scenarios *)

Module Cases.

(** [base] with another search endpoint. *)
Definition withSearch {W}
    (f : string -> TimeFilter -> W -> Outcome (Response.t (option (list SearchResult.t))) * W)
    (base : Collaborators W) : Collaborators W :=
  {| date_now := date_now base; hostname := hostname base; invalidUrl := invalidUrl base;
     post_optimize := post_optimize base; post_search := f;
     post_analyze := post_analyze base; post_fetch_content := post_fetch_content base;
     post_report := post_report base |}.

(** [base] with another optimizer endpoint. *)
Definition withOptimize {W}
    (f : string -> string -> W -> Outcome (Response.t Optimized.t) * W)
    (base : Collaborators W) : Collaborators W :=
  {| date_now := date_now base; hostname := hostname base; invalidUrl := invalidUrl base;
     post_optimize := f; post_search := post_search base;
     post_analyze := post_analyze base; post_fetch_content := post_fetch_content base;
     post_report := post_report base |}.

(** [base] with another report endpoint. *)
Definition withReport {W}
    (f : list ContentResult.t -> list SearchResult.t -> string -> string -> W
         -> Outcome (Response.t (option Report)) * W)
    (base : Collaborators W) : Collaborators W :=
  {| date_now := date_now base; hostname := hostname base; invalidUrl := invalidUrl base;
     post_optimize := post_optimize base; post_search := post_search base;
     post_analyze := post_analyze base; post_fetch_content := post_fetch_content base;
     post_report := f |}.

(** [base] with another content endpoint. *)
Definition withContent {W}
    (f : string -> W -> Outcome (Response.t (option string)) * W)
    (base : Collaborators W) : Collaborators W :=
  {| date_now := date_now base; hostname := hostname base; invalidUrl := invalidUrl base;
     post_optimize := post_optimize base; post_search := post_search base;
     post_analyze := post_analyze base; post_fetch_content := f;
     post_report := post_report base |}.

Definition plain : Collaborators Scenario.world :=
  Scenario.env (Some Scenario.fiveResults) (fun _ => None).

(** A response with the given status and body, not [ok]. *)
Definition refused {T} (status : nat) (text : string) (body : ErrorBody) : Response.t T :=
  Response.mk false status text (Threw (JsError "Unexpected end of JSON input")) body.

(** Every search is answered 429. *)
Definition searchLimited : Collaborators Scenario.world :=
  withSearch (fun _ _ w => (Returned (refused 429 "Too Many Requests" (BodyRead None)), S w))
    plain.

(** Every call to the optimizer is answered 429. *)
Definition optimizeLimited : Collaborators Scenario.world :=
  withOptimize (fun _ _ w => (Returned (refused 429 "Too Many Requests" (BodyRead None)), S w))
    plain.

(** The report endpoint answers 500 with a JSON error body. *)
Definition reportRefused : Collaborators Scenario.world :=
  withReport (fun _ _ _ _ w =>
                (Returned (Response.mk false 500 "Internal Server Error"
                             (Returned (Some "{error}"))
                             (BodyRead (Some "model unavailable"))), S w))
    plain.

(** The content endpoint answers 429 with a body that is not JSON. *)
Definition contentLimitedNoBody : Collaborators Scenario.world :=
  withContent (fun _ w => (Returned (refused 429 "Too Many Requests" BodyUnreadable), S w))
    plain.

(** The content endpoint answers 429 with the JSON body [null]. *)
Definition contentLimitedNullBody : Collaborators Scenario.world :=
  withContent (fun _ w => (Returned (refused 429 "Too Many Requests" BodyNull), S w))
    plain.

(** The report endpoint answers 200 with the JSON body [null]. *)
Definition reportNull : Collaborators Scenario.world :=
  withReport (fun _ _ _ _ w => (Returned (Scenario.okResponse None), S w)) plain.

End Cases.

(** * Properties *)

(** ** Substrings *)

Lemma append_cons (c : ascii) (s t : string) : String c s ++ t = String c (s ++ t).
Proof. reflexivity. Qed.

Lemma append_empty (t : string) : "" ++ t = t.
Proof. reflexivity. Qed.

Lemma prefix_spec (p s : string) :
  String.prefix p s = true <-> exists post, s = p ++ post.
Proof.
  revert s. induction p as [|a p IH]; intros s.
  - split; [intros _; exists s; reflexivity | destruct s; reflexivity].
  - destruct s as [|b s]; simpl.
    + split; [discriminate | intros [post H]; discriminate].
    + destruct (ascii_dec a b) as [->|Hab].
      * rewrite IH. split; intros [post H]; exists post.
        -- rewrite append_cons. now rewrite H.
        -- rewrite append_cons in H. congruence.
      * split; [discriminate | intros [post H]; rewrite append_cons in H; congruence].
Qed.

(** [includes] decides the substring relation. *)
Lemma includes_spec (needle hay : string) :
  includes needle hay = true <-> exists pre post, hay = pre ++ needle ++ post.
Proof.
  split.
  - induction hay as [|c hay IH]; cbn [includes].
    + destruct (String.prefix needle "") eqn:E; [|discriminate].
      intros _. apply prefix_spec in E as [post E]. exists "", post. exact E.
    + destruct (String.prefix needle (String c hay)) eqn:E.
      * intros _. apply prefix_spec in E as [post E]. exists "", post. exact E.
      * intros H. destruct (IH H) as (pre & post & ->).
        exists (String c pre), post. reflexivity.
  - intros (pre & post & ->). induction pre as [|c pre IH].
    + assert (E : String.prefix needle (needle ++ post) = true)
        by (apply prefix_spec; exists post; reflexivity).
      rewrite append_empty. destruct (needle ++ post); cbn [includes]; now rewrite E.
    + rewrite append_cons. cbn [includes].
      destruct (String.prefix needle (String c (pre ++ needle ++ post))); auto.
Qed.

Lemma isRateLimit_spec (e : Thrown) :
  isRateLimit e = true <->
  exists message, e = JsError message /\ exists pre post, message = pre ++ "429" ++ post.
Proof.
  destruct e; simpl; try (split; [discriminate | intros (? & [=] & _)]).
  rewrite includes_spec. split.
  - intros H. eauto.
  - intros (m & [= ->] & H). exact H.
Qed.

(** ** The retry loop *)

Section RetryFacts.
Context {W : Type} {T : Type}.
Implicit Types (operation : M W T) (m : Machine W).

Lemma sleep_inject (c ms : nat) m :
  sleep ms (inject c m) = (Returned tt, inject c (snd (sleep ms m))).
Proof. reflexivity. Qed.

Lemma counted_run operation c m :
  counted operation (inject c m) =
  (fst (operation m), inject (S c) (snd (operation m))).
Proof.
  unfold counted, project, inject, calls; simpl.
  destruct m as [a w l]; simpl. now destruct (operation _).
Qed.

(** One turn of the loop, by what the operation does. *)
Lemma retryLoop_returned operation baseDelay k i last m v m' :
  operation m = (Returned v, m') ->
  retryLoop operation baseDelay (S k) i last m = (Returned v, m').
Proof. intros H. simpl. unfold try_catch. now rewrite H. Qed.

Lemma retryLoop_rate_limited operation baseDelay k i last m e m' :
  operation m = (Threw e, m') -> isRateLimit e = true ->
  retryLoop operation baseDelay (S k) i last m =
  retryLoop operation baseDelay k (S i) e (snd (sleep (baseDelay * 2 ^ i) m')).
Proof. intros H R. simpl. unfold try_catch. rewrite H, R. reflexivity. Qed.

Lemma retryLoop_other operation baseDelay k i last m e m' :
  operation m = (Threw e, m') -> isRateLimit e = false ->
  retryLoop operation baseDelay (S k) i last m = (Threw e, m').
Proof. intros H R. simpl. unfold try_catch. rewrite H, R. reflexivity. Qed.

(** On its last turn the loop still waits after a rate-limit failure, then
    throws that failure. *)
Lemma retryLoop_last_turn operation baseDelay i last m e m' :
  operation m = (Threw e, m') -> isRateLimit e = true ->
  retryLoop operation baseDelay 1 i last m
  = (Threw e, snd (sleep (baseDelay * 2 ^ i) m')).
Proof. intros H R. simpl. unfold try_catch. rewrite H, R. reflexivity. Qed.

(** The loop calls the operation at most once per remaining turn, and at
    least once when a turn remains. *)
Lemma retryLoop_calls operation baseDelay k i last c m :
  let final := snd (retryLoop (counted operation) baseDelay k i last (inject c m)) in
  c + Nat.min 1 k <= calls final <= c + k.
Proof.
  revert i last c m. induction k as [|k IH]; intros i last c m; simpl.
  - unfold calls; simpl. lia.
  - unfold try_catch. rewrite counted_run.
    destruct (operation m) as [[v|e] m1]; simpl.
    + unfold calls; simpl. lia.
    + destruct (isRateLimit e); simpl.
      * unfold bind. rewrite sleep_inject.
        specialize (IH (S i) e (S c) (snd (sleep (baseDelay * 2 ^ i) m1))).
        cbv zeta in IH. lia.
      * unfold calls; simpl. lia.
Qed.

(** The loop from turn [S i] on is the loop from turn [i] on with the base
    delay doubled, and with a turn left the value of [lastError] plays no
    part: after a rate-limit failure and its wait, [retryWithBackoff] goes on
    as [retryWithBackoff] with one attempt fewer and twice the base delay. *)
Lemma retryLoop_double operation baseDelay k i last m :
  retryLoop operation baseDelay k (S i) last m
  = retryLoop operation (2 * baseDelay) k i last m.
Proof.
  revert i last m. induction k as [|k IH]; intros i last m; [reflexivity|].
  cbn [retryLoop]. unfold try_catch. destruct (operation m) as [[v|e] m1]; [reflexivity|].
  destruct (isRateLimit e); [|reflexivity].
  unfold bind.
  replace (baseDelay * 2 ^ S i) with (2 * baseDelay * 2 ^ i)
    by (rewrite Nat.pow_succ_r'; lia).
  destruct (sleep (2 * baseDelay * 2 ^ i) m1) as [[[]|e'] m2]; [apply IH | reflexivity].
Qed.

Lemma retryWithBackoff_next operation baseDelay k m e m1 :
  operation m = (Threw e, m1) -> isRateLimit e = true ->
  retryWithBackoff operation (S (S k)) baseDelay m
  = retryWithBackoff operation (S k) (2 * baseDelay)
      (mkMachine (app m1) (ext m1) (effects m1 ++ [EffSleep baseDelay])).
Proof.
  intros H R. unfold retryWithBackoff.
  rewrite (retryLoop_rate_limited _ _ _ _ _ _ _ _ H R), retryLoop_double.
  unfold sleep, perform. cbn [snd]. rewrite Nat.pow_0_r, Nat.mul_1_r. reflexivity.
Qed.
End RetryFacts.

(** C3 -- an operation that is rate limited on its first two calls and returns
    [v] on the third: [retryWithBackoff] with three attempts returns [v], and
    the operation, made to count its calls, has been called exactly three
    times (after waits of [baseDelay] and of twice [baseDelay]). *)
Theorem retryWithBackoff_third_time_lucky
    {W T : Type} (operation : M W T) (baseDelay : nat)
    (m0 m1 m2 m3 : Machine W) (e1 e2 : Thrown) (v : T) :
  operation m0 = (Threw e1, m1) -> isRateLimit e1 = true ->
  operation (snd (sleep (baseDelay * 2 ^ 0) m1)) = (Threw e2, m2) -> isRateLimit e2 = true ->
  operation (snd (sleep (baseDelay * 2 ^ 1) m2)) = (Returned v, m3) ->
  retryWithBackoff operation 3 baseDelay m0 = (Returned v, m3)
  /\ retryWithBackoff (counted operation) 3 baseDelay (inject 0 m0)
     = (Returned v, inject 3 m3).
Proof.
  intros H1 R1 H2 R2 H3. unfold retryWithBackoff. split.
  - rewrite (retryLoop_rate_limited _ _ _ _ _ _ e1 m1 H1 R1).
    rewrite (retryLoop_rate_limited _ _ _ _ _ _ e2 m2 H2 R2).
    now apply retryLoop_returned.
  - rewrite (retryLoop_rate_limited _ _ _ _ _ _ e1 (inject 1 m1));
      [| now rewrite counted_run, H1 | exact R1].
    rewrite sleep_inject; cbn [snd].
    rewrite (retryLoop_rate_limited _ _ _ _ _ _ e2 (inject 2 m2));
      [| now rewrite counted_run, H2 | exact R2].
    rewrite sleep_inject; cbn [snd].
    apply retryLoop_returned. now rewrite counted_run, H3.
Qed.

Lemma retryWithBackoff_third_time_lucky_witness :
  retryWithBackoff Scenario.flaky 3 1000 (Scenario.boot (Scenario.start ""))
  = (Returned 42, mkMachine (Scenario.start "") 3 [EffSleep 1000; EffSleep 2000])
  /\ retryWithBackoff (counted Scenario.flaky) 3 1000
       (inject 0 (Scenario.boot (Scenario.start "")))
     = (Returned 42,
        inject 3 (mkMachine (Scenario.start "") 3 [EffSleep 1000; EffSleep 2000])).
Proof.
  apply (retryWithBackoff_third_time_lucky Scenario.flaky 1000
           (Scenario.boot (Scenario.start ""))
           (mkMachine (Scenario.start "") 1 [])
           (mkMachine (Scenario.start "") 2 [EffSleep 1000])
           (mkMachine (Scenario.start "") 3 [EffSleep 1000; EffSleep 2000])
           (JsError "Request failed with status code 429")
           (JsError "Request failed with status code 429") 42);
    reflexivity.
Defined.

(** ** The diversity selector *)

Section SelectorFacts.
Context {W : Type} (env : Collaborators W).

Lemma includesId_spec (l : list string) (x : string) :
  includesId l x = true <-> In x l.
Proof.
  unfold includesId. rewrite existsb_exists. split.
  - intros (y & Hy & E). apply String.eqb_eq in E. now subst.
  - intros H. exists x. split; [exact H | apply String.eqb_refl].
Qed.

Lemma hasSimilar_false (domain : string) (urls : list string) :
  hasSimilar env domain urls = Returned false ->
  forall u, In u urls -> exists h, hostname env u = Some h /\ h <> domain.
Proof.
  induction urls as [|u0 urls IH]; simpl; [intros _ u []|].
  destruct (hostname env u0) as [h|] eqn:Hh; [|discriminate].
  destruct (String.eqb h domain) eqn:E; [discriminate|].
  intros H u [<-|Hu]; [|now apply IH].
  exists h. split; [exact Hh | now apply String.eqb_neq].
Qed.

Lemma hasSimilar_total (domain : string) (urls : list string) :
  (forall u, In u urls -> hostname env u <> None) ->
  exists b, hasSimilar env domain urls = Returned b.
Proof.
  induction urls as [|u0 urls IH]; simpl; intros Hp; [now exists false|].
  destruct (hostname env u0) as [h|] eqn:Hh; [|now destruct (Hp u0); auto].
  destruct (String.eqb h domain); [now exists true | apply IH; auto].
Qed.

Lemma goodScore_spec (x : option Q) :
  goodScore x = true -> exists q, x = Some q /\ (1 # 2 < q)%Q.
Proof.
  destruct x as [q|]; simpl; [|discriminate].
  intros H. apply andb_prop in H as [_ H]. exists q. split; [reflexivity|].
  unfold Qgtb in H. apply negb_true_iff in H.
  apply Qnot_le_lt. intros Hle. apply Qle_bool_iff in Hle. congruence.
Qed.

(** What the filter keeps, for any set of URLs it starts from. *)
Lemma selectDiverse_sound (cap : nat) (ranked : list SearchResult.t) :
  forall (urls : list string) (sel : list SearchResult.t),
    selectDiverse env cap urls ranked = Returned sel ->
    (length urls <= cap -> length urls + length sel <= cap)
    /\ (forall r, In r sel -> goodScore (SearchResult.score r) = true)
    /\ (forall r u, In r sel -> In u urls -> hostOfResult env r <> hostname env u)
    /\ List.NoDup (map (hostOfResult env) sel).
Proof.
  induction ranked as [|result rest IH]; intros urls sel H; simpl in H.
  - injection H as <-. simpl. repeat split; try (intros; lia); try tauto.
    constructor.
  - destruct (cap <=? length urls) eqn:Ecap; [now apply IH|].
    apply Nat.leb_gt in Ecap.
    destruct (hostname env (SearchResult.url result)) as [domain|] eqn:Hd; [|discriminate].
    destruct (hasSimilar env domain urls) as [similar|] eqn:Hs; [|discriminate].
    destruct (negb similar && goodScore (SearchResult.score result)) eqn:Hok;
      [|now apply IH].
    apply andb_prop in Hok as [Hsim Hgood]. apply negb_true_iff in Hsim. subst similar.
    pose proof (hasSimilar_false _ _ Hs) as Hother.
    assert (Hfresh : includesId urls (SearchResult.url result) = false).
    { destruct (includesId urls (SearchResult.url result)) eqn:E; [|reflexivity].
      apply includesId_spec in E. destruct (Hother _ E) as (h & Hh & Hne). congruence. }
    unfold setAdd in H. rewrite Hfresh in H.
    destruct (selectDiverse env cap (urls ++ [SearchResult.url result]) rest)
      as [l|] eqn:Hrest; [|discriminate].
    injection H as <-.
    destruct (IH _ _ Hrest) as (Hlen & Hsc & Hdis & Hnd).
    rewrite length_app in Hlen. simpl in Hlen.
    repeat split.
    + intros _. simpl. lia.
    + intros r [<-|Hr]; [exact Hgood | now apply Hsc].
    + intros r u [<-|Hr] Hu.
      * unfold hostOfResult. rewrite Hd. destruct (Hother _ Hu) as (h & -> & Hne). congruence.
      * apply Hdis; [exact Hr | apply in_or_app; now left].
    + simpl. constructor; [|exact Hnd].
      intros Hin. apply in_map_iff in Hin as (r & Heq & Hr).
      apply (Hdis r (SearchResult.url result) Hr); [apply in_or_app; right; now left|].
      exact Heq.
Qed.

(** The filter returns whenever every URL it meets can be parsed. *)
Lemma selectDiverse_total (cap : nat) (ranked : list SearchResult.t) :
  forall urls : list string,
    (forall u, In u urls -> hostname env u <> None) ->
    (forall r, In r ranked -> hostOfResult env r <> None) ->
    exists sel, selectDiverse env cap urls ranked = Returned sel.
Proof.
  induction ranked as [|result rest IH]; intros urls Hu Hr; simpl; [now exists []|].
  destruct (cap <=? length urls); [apply IH; auto; intros; apply Hr; now right|].
  destruct (hostname env (SearchResult.url result)) as [domain|] eqn:Hd;
    [|now destruct (Hr result); [left|]].
  destruct (hasSimilar_total domain urls Hu) as [b ->].
  destruct (negb b && goodScore (SearchResult.score result));
    [|apply IH; auto; intros; apply Hr; now right].
  destruct (IH (setAdd (SearchResult.url result) urls)) as [l ->]; [| |now eexists].
  - intros u. unfold setAdd. destruct (includesId urls (SearchResult.url result)); [apply Hu|].
    intros Hin. apply in_app_or in Hin as [Hin|[<-|[]]]; [now apply Hu | congruence].
  - intros; apply Hr; now right.
Qed.
End SelectorFacts.

(** C2 -- whatever list of scored candidates and whatever cap the selector is
    given, the selection it returns has no two candidates on the same host,
    only candidates scored strictly above 0.5, and at most [cap] members. *)
Theorem selected_diverse_good_bounded
    {W : Type} (env : Collaborators W) (cap : nat)
    (ranked sel : list SearchResult.t) :
  selected env cap ranked = Returned sel ->
  List.NoDup (map (hostOfResult env) sel)
  /\ (forall r, In r sel -> exists q, SearchResult.score r = Some q /\ (1 # 2 < q)%Q)
  /\ length sel <= cap.
Proof.
  intros H. destruct (selectDiverse_sound env cap ranked [] sel H) as (Hlen & Hsc & _ & Hnd).
  repeat split.
  - exact Hnd.
  - intros r Hr. apply goodScore_spec. now apply Hsc.
  - simpl in Hlen. lia.
Qed.

Lemma selected_diverse_good_bounded_witness :
  let env := Scenario.env (Some Scenario.fiveResults) (fun _ => None) in
  let ranked := rankedResults Scenario.fiveResults Scenario.fiveRankings in
  let sel := [SearchResult.with_score (Some (9 # 10)%Q) Scenario.a1;
              SearchResult.with_score (Some (9 # 10)%Q) Scenario.d1;
              SearchResult.with_score (Some (6 # 10)%Q) Scenario.b1] in
  List.NoDup (map (hostOfResult env) sel)
  /\ (forall r, In r sel -> exists q, SearchResult.score r = Some q /\ (1 # 2 < q)%Q)
  /\ length sel <= 3.
Proof.
  intros env ranked sel.
  apply (selected_diverse_good_bounded env 3 ranked sel).
  vm_compute. reflexivity.
Defined.

(** ** Ranking *)

Lemma insertByScore_perm (x : SearchResult.t) (l : list SearchResult.t) :
  Permutation (insertByScore x l) (x :: l).
Proof.
  induction l as [|y l IH]; simpl; [reflexivity|].
  destruct (Qle_bool (scoreOf y) (scoreOf x)); [reflexivity|].
  rewrite IH. apply perm_swap.
Qed.

(** Sorting rearranges, it neither drops nor invents a candidate. *)
Lemma sortByScoreDesc_perm (l : list SearchResult.t) :
  Permutation (sortByScoreDesc l) l.
Proof.
  induction l as [|x l IH]; simpl; [reflexivity|].
  rewrite insertByScore_perm. now constructor.
Qed.

Lemma insertByScore_sorted (x : SearchResult.t) (l : list SearchResult.t) :
  Sorted (fun a b => (scoreOf b <= scoreOf a)%Q) l ->
  Sorted (fun a b => (scoreOf b <= scoreOf a)%Q) (insertByScore x l).
Proof.
  induction l as [|y l IH]; simpl; intros Hs.
  - repeat constructor.
  - destruct (Qle_bool (scoreOf y) (scoreOf x)) eqn:E.
    + constructor; [exact Hs|]. constructor. now apply Qle_bool_iff.
    + assert (Hxy : (scoreOf x <= scoreOf y)%Q).
      { apply Qlt_le_weak, Qnot_le_lt. intros Hle. apply Qle_bool_iff in Hle. congruence. }
      inversion Hs as [|? ? Hl Hhd]; subst.
      constructor; [now apply IH|].
      destruct l as [|z l]; simpl.
      * now constructor.
      * destruct (Qle_bool (scoreOf z) (scoreOf x)); constructor; [exact Hxy|].
        now inversion Hhd.
Qed.

(** The ranked list is in descending order of score. *)
Lemma sortByScoreDesc_sorted (l : list SearchResult.t) :
  Sorted (fun a b => (scoreOf b <= scoreOf a)%Q) (sortByScoreDesc l).
Proof.
  induction l as [|x l IH]; simpl; [constructor | now apply insertByScore_sorted].
Qed.

(** The selector, one candidate at a time. *)
Section SelectorSteps.
Context {W : Type} (env : Collaborators W) (cap : nat).
Implicit Types (urls : list string) (r : SearchResult.t) (rest : list SearchResult.t).

Lemma selectDiverse_full urls r rest :
  cap <= length urls ->
  selectDiverse env cap urls (r :: rest) = selectDiverse env cap urls rest.
Proof. intros H. simpl. now apply Nat.leb_le in H as ->. Qed.

Lemma selectDiverse_similar urls r rest domain :
  length urls < cap -> hostOfResult env r = Some domain ->
  hasSimilar env domain urls = Returned true ->
  selectDiverse env cap urls (r :: rest) = selectDiverse env cap urls rest.
Proof.
  unfold hostOfResult. intros H Hd Hs. simpl.
  apply Nat.leb_gt in H as ->. now rewrite Hd, Hs.
Qed.

Lemma selectDiverse_low urls r rest domain :
  length urls < cap -> hostOfResult env r = Some domain ->
  (forall u, In u urls -> hostname env u <> None) ->
  goodScore (SearchResult.score r) = false ->
  selectDiverse env cap urls (r :: rest) = selectDiverse env cap urls rest.
Proof.
  unfold hostOfResult. intros H Hd Hp Hg. simpl.
  apply Nat.leb_gt in H as ->. rewrite Hd, Hg.
  destruct (hasSimilar_total env domain urls Hp) as [b ->]. now rewrite andb_false_r.
Qed.

Lemma selectDiverse_keep urls r rest domain :
  length urls < cap -> hostOfResult env r = Some domain ->
  hasSimilar env domain urls = Returned false ->
  goodScore (SearchResult.score r) = true ->
  selectDiverse env cap urls (r :: rest) =
  match selectDiverse env cap (urls ++ [SearchResult.url r]) rest with
  | Returned l => Returned (r :: l)
  | Threw e => Threw e
  end.
Proof.
  unfold hostOfResult. intros H Hd Hs Hg. simpl.
  apply Nat.leb_gt in H as ->. rewrite Hd, Hs, Hg. simpl.
  unfold setAdd.
  destruct (includesId urls (SearchResult.url r)) eqn:E; [|reflexivity].
  apply includesId_spec in E.
  destruct (hasSimilar_false env _ _ Hs _ E) as (h & Hh & Hne). congruence.
Qed.
End SelectorSteps.

(** C1 -- scenario B: five candidates scored 0.9, 0.8, 0.6, 0.4, 0.9 on the
    domains a, a, b, c, d.  Once ranked, and with a cap of three, the selector
    keeps exactly the 0.9 of domain a, the 0.9 of domain d and the 0.6 of
    domain b; the 0.8 of domain a and the 0.4 of domain c are left out. *)
Theorem scenario_B_selection
    {W : Type} (env : Collaborators W) (r1 r2 r3 r4 r5 : SearchResult.t)
    (rankings : list RankingResult.t) (a b c d : string) :
  hostOfResult env r1 = Some a -> hostOfResult env r2 = Some a ->
  hostOfResult env r3 = Some b -> hostOfResult env r4 = Some c ->
  hostOfResult env r5 = Some d ->
  a <> b -> a <> d -> b <> d ->
  rankingScore rankings (SearchResult.url r1) = (9 # 10)%Q ->
  rankingScore rankings (SearchResult.url r2) = (8 # 10)%Q ->
  rankingScore rankings (SearchResult.url r3) = (6 # 10)%Q ->
  rankingScore rankings (SearchResult.url r4) = (4 # 10)%Q ->
  rankingScore rankings (SearchResult.url r5) = (9 # 10)%Q ->
  let scored q r := SearchResult.with_score (Some q) r in
  exists sel,
    selected env 3 (rankedResults [r1; r2; r3; r4; r5] rankings) = Returned sel
    /\ Permutation sel [scored (9 # 10)%Q r1; scored (6 # 10)%Q r3; scored (9 # 10)%Q r5]
    /\ length sel = 3
    /\ ~ In (scored (8 # 10)%Q r2) sel
    /\ ~ In (scored (4 # 10)%Q r4) sel.
Proof.
  intros H1 H2 H3 H4 H5 Hab Had Hbd S1 S2 S3 S4 S5.
  set (c1 := SearchResult.with_score (Some (9 # 10)%Q) r1).
  set (c2 := SearchResult.with_score (Some (8 # 10)%Q) r2).
  set (c3 := SearchResult.with_score (Some (6 # 10)%Q) r3).
  set (c4 := SearchResult.with_score (Some (4 # 10)%Q) r4).
  set (c5 := SearchResult.with_score (Some (9 # 10)%Q) r5).
  exists [c1; c5; c3].
  split; [|split; [|split; [reflexivity|split]]].
  - unfold rankedResults. cbn [map]. rewrite S1, S2, S3, S4, S5.
    change (sortByScoreDesc _) with [c1; c5; c2; c3; c4].
    apply String.eqb_neq in Hab, Had, Hbd.
    unfold selected, hostOfResult in *.
    rewrite (selectDiverse_keep env 3 [] c1 _ a); [|simpl; lia|exact H1|reflexivity..].
    rewrite (selectDiverse_keep env 3 _ c5 _ d); [|simpl; lia|exact H5| |reflexivity].
    2:{ simpl. change (SearchResult.url c1) with (SearchResult.url r1). now rewrite H1, Had. }
    rewrite (selectDiverse_similar env 3 _ c2 _ a); [|simpl; lia|exact H2|].
    2:{ simpl. change (SearchResult.url c1) with (SearchResult.url r1).
        now rewrite H1, String.eqb_refl. }
    rewrite (selectDiverse_keep env 3 _ c3 _ b); [|simpl; lia|exact H3| |reflexivity].
    2:{ simpl. change (SearchResult.url c1) with (SearchResult.url r1).
        change (SearchResult.url c5) with (SearchResult.url r5).
        rewrite H1, Hab, H5. now rewrite String.eqb_sym, Hbd. }
    rewrite selectDiverse_full; [reflexivity | simpl; lia].
  - apply perm_skip, perm_swap.
  - intros [E|[E|[E|[]]]]; apply (f_equal SearchResult.score) in E; discriminate.
  - intros [E|[E|[E|[]]]]; apply (f_equal SearchResult.score) in E; discriminate.
Qed.

Lemma scenario_B_selection_witness :
  exists sel,
    selected (Scenario.env (Some Scenario.fiveResults) (fun _ => None)) 3
      (rankedResults Scenario.fiveResults Scenario.fiveRankings) = Returned sel
    /\ Permutation sel [SearchResult.with_score (Some (9 # 10)%Q) Scenario.a1;
                        SearchResult.with_score (Some (6 # 10)%Q) Scenario.b1;
                        SearchResult.with_score (Some (9 # 10)%Q) Scenario.d1]
    /\ length sel = 3
    /\ ~ In (SearchResult.with_score (Some (8 # 10)%Q) Scenario.a2) sel
    /\ ~ In (SearchResult.with_score (Some (4 # 10)%Q) Scenario.c1) sel.
Proof.
  apply (scenario_B_selection (Scenario.env (Some Scenario.fiveResults) (fun _ => None))
           Scenario.a1 Scenario.a2 Scenario.b1 Scenario.c1 Scenario.d1 Scenario.fiveRankings
           "a.example" "b.example" "c.example" "d.example");
    solve [reflexivity | discriminate].
Defined.

(** ** Content resolution *)

Section ResolverFacts.
Context {W : Type} (env : Collaborators W).
Implicit Types (m : Machine W) (article : SearchResult.t).

Lemma whenTruthy_some (c : string) : c <> "" -> whenTruthy (Some c) = Some c.
Proof.
  intros H. unfold whenTruthy, truthy.
  now apply String.eqb_neq in H as ->.
Qed.

(** [fetchContent] logs its request and otherwise depends on the world only;
    whatever the request raises is raised again. *)
Lemma fetchContent_world (u : string) m :
  fetchContent env u m =
  (fst (fetchContentW env u (ext m)),
   mkMachine (app m) (snd (fetchContentW env u (ext m)))
             (effects m ++ [EffFetch (ReqFetchContent u)])).
Proof.
  unfold fetchContent, fetchContentW, try_catch, bind, call, throw, settle.
  destruct (post_fetch_content env u (ext m)) as [[response|e] w']; simpl.
  - destruct (Response.ok response); simpl.
    + destruct (Response.json response) as [c|e]; simpl; [reflexivity|].
      now destruct (isRateLimit e).
    + match goal with |- context [includes ?x ?y] => now destruct (includes x y) end.
  - now destruct (isRateLimit e).
Qed.

Lemma resolveContent_populated article (c : string) m :
  SearchResult.content article = Some c -> c <> "" ->
  resolveContent env article m =
  (Returned (ContentResult.mk (SearchResult.url article) (SearchResult.name article) c),
   statusUpdated (recordFetched (SearchResult.url article)) m).
Proof.
  intros Hc Hne. unfold resolveContent. rewrite Hc, (whenTruthy_some c Hne). reflexivity.
Qed.

Lemma resolveContent_rate_limited article m (e : Thrown) m1 :
  whenTruthy (SearchResult.content article) = None ->
  fetchContent env (SearchResult.url article) m = (Threw e, m1) ->
  isRateLimit e = true ->
  resolveContent env article m = (Threw e, m1).
Proof.
  intros Hc Hf R. unfold resolveContent. rewrite Hc.
  unfold bind, try_catch. rewrite Hf, R. reflexivity.
Qed.

Lemma resolveContent_absorbed article m (e : Thrown) m1 :
  whenTruthy (SearchResult.content article) = None ->
  fetchContent env (SearchResult.url article) m = (Threw e, m1) ->
  isRateLimit e = false ->
  resolveContent env article m =
  (Returned (ContentResult.mk (SearchResult.url article) (SearchResult.name article)
               (SearchResult.snippet article)),
   statusUpdated (recordFallback (SearchResult.url article)) m1).
Proof.
  intros Hc Hf R. unfold resolveContent. rewrite Hc.
  unfold bind, try_catch. rewrite Hf, R. reflexivity.
Qed.

Lemma resolveContent_fetched article m (content : option string) (c : string) m1 :
  whenTruthy (SearchResult.content article) = None ->
  fetchContent env (SearchResult.url article) m = (Returned content, m1) ->
  whenTruthy content = Some c ->
  resolveContent env article m =
  (Returned (ContentResult.mk (SearchResult.url article) (SearchResult.name article) c),
   statusUpdated (recordFetched (SearchResult.url article)) m1).
Proof.
  intros Hc Hf Ht. unfold resolveContent. rewrite Hc.
  unfold bind, try_catch. rewrite Hf, Ht. reflexivity.
Qed.

Lemma resolveContent_empty article m (content : option string) m1 :
  whenTruthy (SearchResult.content article) = None ->
  fetchContent env (SearchResult.url article) m = (Returned content, m1) ->
  whenTruthy content = None ->
  resolveContent env article m =
  (Returned (ContentResult.mk (SearchResult.url article) (SearchResult.name article)
               (SearchResult.snippet article)),
   statusUpdated (recordFallback (SearchResult.url article)) m1).
Proof.
  intros Hc Hf Ht. unfold resolveContent. rewrite Hc.
  unfold bind, try_catch. rewrite Hf, Ht. reflexivity.
Qed.

(** [Promise.all]: the machine after a batch is the machine after its two
    halves, and a rejection in either half rejects the batch. *)
Lemma promiseAll_app_machine {A} (l1 l2 : list (M W A)) m :
  snd (promiseAll (l1 ++ l2) m) = snd (promiseAll l2 (snd (promiseAll l1 m))).
Proof.
  revert m. induction l1 as [|t l1 IH]; intros m; simpl; [reflexivity|].
  destruct (t m) as [[a|e] m1]; simpl.
  - specialize (IH m1).
    destruct (promiseAll (l1 ++ l2) m1) as [[?|?] ?];
      destruct (promiseAll l1 m1) as [[?|?] ?]; exact IH.
  - apply IH.
Qed.

Lemma promiseAll_app_rejects {A} (l1 l2 : list (M W A)) m (e : Thrown) :
  fst (promiseAll l2 (snd (promiseAll l1 m))) = Threw e ->
  exists e', fst (promiseAll (l1 ++ l2) m) = Threw e'.
Proof.
  revert m. induction l1 as [|t l1 IH]; intros m; simpl; [eauto|].
  destruct (t m) as [[a|e0] m1]; simpl; [|eauto].
  intros H.
  assert (H' : fst (promiseAll l2 (snd (promiseAll l1 m1))) = Threw e).
  { destruct (promiseAll l1 m1) as [[?|?] ?]; exact H. }
  destruct (IH _ H') as [e' He'].
  destruct (promiseAll (l1 ++ l2) m1) as [[?|?] ?]; simpl in *; [discriminate|eauto].
Qed.
End ResolverFacts.

(** C6 -- a candidate that already has content is resolved without a request
    to the content fetcher (no effect is logged, the world is not consulted);
    the content comes back unchanged with the candidate's URL and title, and
    the URL is recorded as fetched with one more success counted. *)
Theorem resolveContent_uses_own_content
    {W : Type} (env : Collaborators W) (article : SearchResult.t) (c : string)
    (m : Machine W) :
  SearchResult.content article = Some c -> c <> "" ->
  exists m',
    resolveContent env article m =
      (Returned (ContentResult.mk (SearchResult.url article) (SearchResult.name article) c), m')
    /\ effects m' = effects m
    /\ ext m' = ext m
    /\ FetchStatus.successful (fetchStatusOf m') = FetchStatus.successful (fetchStatusOf m) + 1
    /\ FetchStatus.fallback (fetchStatusOf m') = FetchStatus.fallback (fetchStatusOf m)
    /\ FetchStatus.total (fetchStatusOf m') = FetchStatus.total (fetchStatusOf m)
    /\ FetchStatus.sourceStatuses (fetchStatusOf m') !! SearchResult.url article = Some fetched.
Proof.
  intros Hc Hne. eexists. split; [now apply resolveContent_populated|].
  repeat split. cbn. apply lookup_insert_eq.
Qed.

Lemma resolveContent_uses_own_content_witness :
  let article := SearchResult.mk "upload-1" "file://notes.txt" "notes.txt" "my notes"
                   (Some "the full text of the notes") None true in
  let m := Scenario.boot (Scenario.start "topic") in
  exists m',
    resolveContent (Scenario.env None (fun _ => None)) article m =
      (Returned (ContentResult.mk "file://notes.txt" "notes.txt" "the full text of the notes"), m')
    /\ effects m' = effects m
    /\ ext m' = ext m
    /\ FetchStatus.successful (fetchStatusOf m') = FetchStatus.successful (fetchStatusOf m) + 1
    /\ FetchStatus.fallback (fetchStatusOf m') = FetchStatus.fallback (fetchStatusOf m)
    /\ FetchStatus.total (fetchStatusOf m') = FetchStatus.total (fetchStatusOf m)
    /\ FetchStatus.sourceStatuses (fetchStatusOf m') !! "file://notes.txt" = Some fetched.
Proof.
  intros article m.
  apply (resolveContent_uses_own_content (Scenario.env None (fun _ => None)) article
           "the full text of the notes" m); [reflexivity | discriminate].
Defined.

(** C10 -- the rate-limit signal is exactly an [Error] whose message contains
    "429".  Take a failure [e] thrown by the first call of an operation under
    [retryWithBackoff], and by the content fetcher during a batch.  With an
    attempt left, [retryWithBackoff] calls the operation again exactly when
    [e] is the signal; on its last attempt it throws [e] to the caller after
    that one call, signal or not.  When [e] is the signal, [retryWithBackoff]
    logs a wait of [baseDelay] and goes on as [retryWithBackoff] with one
    attempt fewer and the base delay doubled, and the resolution of the source
    rethrows [e], which rejects the whole batch.  When it is any other value,
    [retryWithBackoff] throws [e] at once after that single call, with no
    wait, and the source is resolved to its snippet and recorded as a
    fallback. *)
Theorem rate_limit_signal
    {W T : Type} (env : Collaborators W) (e : Thrown)
    (operation : M W T) (baseDelay k c : nat) (m m1 : Machine W)
    (before after : list SearchResult.t) (article : SearchResult.t) (n n1 : Machine W) :
  operation m = (Threw e, m1) ->
  whenTruthy (SearchResult.content article) = None ->
  fetchContent env (SearchResult.url article) (snd (resolveAll env before n)) = (Threw e, n1) ->
  (isRateLimit e = true <->
   exists message, e = JsError message /\ exists pre post, message = pre ++ "429" ++ post)
  /\ let waited := mkMachine (app m1) (ext m1) (effects m1 ++ [EffSleep baseDelay]) in
     let retried := retryWithBackoff (counted operation) (S (S k)) baseDelay (inject c m) in
     let lastAttempt := retryWithBackoff (counted operation) 1 baseDelay (inject c m) in
     let resolved := resolveContent env article (snd (resolveAll env before n)) in
     let batch := resolveAll env (before ++ article :: after) n in
     (c + 2 <= calls (snd retried) <-> isRateLimit e = true)
     /\ fst lastAttempt = Threw e
     /\ calls (snd lastAttempt) = c + 1
     /\ if isRateLimit e then
          retried = retryWithBackoff (counted operation) (S k) (2 * baseDelay)
                      (inject (S c) waited)
          /\ resolved = (Threw e, n1)
          /\ exists e', fst batch = Threw e'
        else
          retried = (Threw e, inject (S c) m1)
          /\ lastAttempt = (Threw e, inject (S c) m1)
          /\ resolved =
               (Returned (ContentResult.mk (SearchResult.url article)
                            (SearchResult.name article) (SearchResult.snippet article)),
                statusUpdated (recordFallback (SearchResult.url article)) n1).
Proof.
  intros Hop Hc Hf. split; [apply isRateLimit_spec|].
  assert (Hcounted : counted operation (inject c m) = (Threw e, inject (S c) m1))
    by now rewrite counted_run, Hop.
  cbv zeta.
  assert (Hlast : fst (retryWithBackoff (counted operation) 1 baseDelay (inject c m)) = Threw e
                  /\ calls (snd (retryWithBackoff (counted operation) 1 baseDelay
                                   (inject c m))) = c + 1).
  { unfold retryWithBackoff. destruct (isRateLimit e) eqn:R.
    - rewrite (retryLoop_last_turn _ _ _ _ _ _ _ Hcounted R).
      split; [reflexivity | unfold calls; simpl; lia].
    - rewrite (retryLoop_other _ _ _ _ _ _ _ _ Hcounted R).
      split; [reflexivity | unfold calls; simpl; lia]. }
  destruct Hlast as [Hlast1 Hlast2].
  destruct (isRateLimit e) eqn:R.
  - assert (Hnext : retryWithBackoff (counted operation) (S (S k)) baseDelay (inject c m)
                    = retryWithBackoff (counted operation) (S k) (2 * baseDelay)
                        (inject (S c)
                           (mkMachine (app m1) (ext m1) (effects m1 ++ [EffSleep baseDelay]))))
      by exact (retryWithBackoff_next _ _ _ _ _ _ Hcounted R).
    split.
    { split; [reflexivity|]. intros _. rewrite Hnext. unfold retryWithBackoff.
      pose proof (retryLoop_calls operation (2 * baseDelay) (S k) 0 JsOther (S c)
                    (mkMachine (app m1) (ext m1) (effects m1 ++ [EffSleep baseDelay])))
        as Hcalls.
      cbv zeta in Hcalls. simpl Nat.min in Hcalls. lia. }
    split; [exact Hlast1|]. split; [exact Hlast2|].
    split; [exact Hnext|].
    split; [now apply resolveContent_rate_limited|].
    unfold resolveAll. rewrite map_app. cbn [map].
    apply (promiseAll_app_rejects _ _ _ e). cbn [promiseAll].
    fold (resolveAll env before n).
    rewrite (resolveContent_rate_limited env _ _ _ _ Hc Hf R). reflexivity.
  - assert (Hother : retryWithBackoff (counted operation) (S (S k)) baseDelay (inject c m)
                     = (Threw e, inject (S c) m1))
      by exact (retryLoop_other _ _ _ _ _ _ _ _ Hcounted R).
    split.
    { rewrite Hother. unfold calls; simpl. split; [lia | discriminate]. }
    split; [exact Hlast1|]. split; [exact Hlast2|].
    split; [exact Hother|].
    split; [exact (retryLoop_other _ _ _ _ _ _ _ _ Hcounted R)|].
    now apply (resolveContent_absorbed env _ _ e).
Qed.

Lemma rate_limit_signal_witness :
  let env := Scenario.env None
               (fun u => if String.eqb u "https://b.example/" then Some 429 else None) in
  let e := JsError "Failed to fetch content: 429" in
  let operation : M Scenario.world nat := fun m => (Threw e, m) in
  let m := Scenario.boot (Scenario.start "topic") in
  retryWithBackoff (counted operation) 2 1000 (inject 0 m)
    = retryWithBackoff (counted operation) 1 2000
        (inject 1 (mkMachine (Scenario.start "topic") 0 [EffSleep 1000]))
  /\ 2 <= calls (snd (retryWithBackoff (counted operation) 2 1000 (inject 0 m)))
  /\ exists e', fst (resolveAll env [Scenario.a1; Scenario.b1; Scenario.c1] m) = Threw e'.
Proof.
  intros env e operation m.
  pose proof (rate_limit_signal env e operation 1000 0 0 m m
                [Scenario.a1] [Scenario.c1] Scenario.b1 m
                (mkMachine
                   (app (statusUpdated (recordFetched "https://a.example/one") m)) 2
                   [EffFetch (ReqFetchContent "https://a.example/one");
                    EffFetch (ReqFetchContent "https://b.example/")])
                eq_refl eq_refl) as H.
  destruct H as [_ H]; [vm_compute; reflexivity|].
  cbv zeta in H. change (isRateLimit e) with true in H. cbv iota in H.
  destruct H as (Hiff & _ & _ & H1 & _ & H4).
  split; [exact H1|]. split; [apply Hiff; reflexivity | exact H4].
Defined.

(** C10 -- a rate-limit failure is retried only while an attempt is left: the
    optimizer request of the agent run, answered 429 every time, is made
    three times under the default three attempts, and once under a single
    attempt, and then its "429" error is thrown to the caller. *)
Lemma rate_limit_failure_on_last_attempt_is_thrown :
  let e := JsError "Failed to optimize research: 429 Too Many Requests" in
  let operation := optimizeOp Cases.optimizeLimited "topic" "gemini-flash" in
  let m := Scenario.boot (Scenario.start "topic") in
  isRateLimit e = true
  /\ fst (retryWithBackoff_default (counted operation) (inject 0 m)) = Threw e
  /\ calls (snd (retryWithBackoff_default (counted operation) (inject 0 m))) = 3
  /\ fst (retryWithBackoff (counted operation) 1 1000 (inject 0 m)) = Threw e
  /\ calls (snd (retryWithBackoff (counted operation) 1 1000 (inject 0 m))) = 1.
Proof. vm_compute. repeat split. Qed.

(** ** Manual selection *)

Section ToggleFacts.
Implicit Types (s : State.t) (id : string).

Lemma filter_ne_length (id : string) (l : list string) :
  length (List.filter (fun x => negb (String.eqb x id)) l) <= length l.
Proof.
  induction l as [|x l IH]; simpl; [lia|]. destruct (negb _); simpl; lia.
Qed.

Lemma filter_ne_length_lt (id : string) (l : list string) :
  In id l -> length (List.filter (fun x => negb (String.eqb x id)) l) < length l.
Proof.
  induction l as [|x l IH]; simpl; [tauto|]. intros [->|H].
  - rewrite String.eqb_refl. simpl. pose proof (filter_ne_length id l). lia.
  - specialize (IH H). destruct (negb _); simpl; lia.
Qed.

Lemma filter_ne_In (id x : string) (l : list string) :
  In x (List.filter (fun y => negb (String.eqb y id)) l) <-> In x l /\ x <> id.
Proof.
  rewrite filter_In, negb_true_iff, String.eqb_neq. tauto.
Qed.

(** The three ways a toggle can go. *)
Lemma toggle_remove id s :
  In id (State.selectedResults s) ->
  State.selectedResults (handleResultSelect_update id s)
  = List.filter (fun x => negb (String.eqb x id)) (State.selectedResults s).
Proof.
  intros H. apply includesId_spec in H. unfold handleResultSelect_update.
  now rewrite H.
Qed.

Lemma toggle_full id s :
  ~ In id (State.selectedResults s) -> MAX_SELECTIONS <= length (State.selectedResults s) ->
  handleResultSelect_update id s = s.
Proof.
  intros H Hlen. unfold handleResultSelect_update.
  destruct (includesId (State.selectedResults s) id) eqn:E;
    [now apply includesId_spec in E|].
  now apply Nat.leb_le in Hlen as ->.
Qed.

Lemma toggle_add id s :
  ~ In id (State.selectedResults s) -> length (State.selectedResults s) < MAX_SELECTIONS ->
  State.selectedResults (handleResultSelect_update id s)
  = (State.selectedResults s ++ [id])%list.
Proof.
  intros H Hlen. unfold handleResultSelect_update.
  destruct (includesId (State.selectedResults s) id) eqn:E;
    [now apply includesId_spec in E|].
  now apply Nat.leb_gt in Hlen as ->.
Qed.

Lemma In_dec_id id (l : list string) : In id l \/ ~ In id l.
Proof. destruct (in_dec string_dec id l); auto. Qed.

Lemma initialState_withinCap (DEFAULT_MODEL : string) :
  length (State.selectedResults (initialState DEFAULT_MODEL)) <= MAX_SELECTIONS.
Proof. unfold MAX_SELECTIONS. simpl. lia. Qed.

Lemma toggle_keeps_cap id s :
  length (State.selectedResults s) <= MAX_SELECTIONS ->
  length (State.selectedResults (handleResultSelect_update id s)) <= MAX_SELECTIONS.
Proof.
  intros Hlen. destruct (In_dec_id id (State.selectedResults s)) as [Hin|Hout].
  - rewrite toggle_remove by exact Hin.
    pose proof (filter_ne_length id (State.selectedResults s)). lia.
  - destruct (Nat.eq_dec (length (State.selectedResults s)) MAX_SELECTIONS) as [E|NE].
    + rewrite toggle_full; [lia | exact Hout | lia].
    + rewrite toggle_add; [|exact Hout | lia]. rewrite length_app. simpl. lia.
Qed.
End ToggleFacts.

(** C8 -- from a state whose selection is within the cap, as every state of
    the page is (the selection is empty at the start,
    [initialState_withinCap], and no handler lets it grow past the cap:
    [handleResultSelect_withinCap],
    [handleRemoveResult_withinCap], [handleAgentSearch_withinCap],
    [handleSearch_withinCap]), the selection is within the cap after each
    toggle of any sequence; and in any state, toggling an id that is not
    selected while the selection is full changes nothing. *)
Theorem toggles_keep_cap (s : State.t) (ids : list string) :
  length (State.selectedResults s) <= MAX_SELECTIONS ->
  Forall (fun st => length (State.selectedResults st) <= MAX_SELECTIONS) (toggleTrace ids s)
  /\ length (State.selectedResults (toggles ids s)) <= MAX_SELECTIONS
  /\ forall st id,
       ~ In id (State.selectedResults st) ->
       MAX_SELECTIONS <= length (State.selectedResults st) ->
       handleResultSelect_update id st = st.
Proof.
  intros H. split; [|split].
  - revert s H. induction ids as [|i ids IH]; intros s H; simpl; constructor.
    + now apply toggle_keeps_cap.
    + apply IH. now apply toggle_keeps_cap.
  - revert s H. induction ids as [|i ids IH]; intros s H; simpl; [exact H|].
    apply IH. now apply toggle_keeps_cap.
  - intros st id. apply toggle_full.
Qed.

Lemma toggles_keep_cap_witness :
  let s := initialState "gemini-flash" in
  let ids := ["a"; "b"; "c"; "d"; "a"; "d"] in
  Forall (fun st => length (State.selectedResults st) <= MAX_SELECTIONS) (toggleTrace ids s)
  /\ length (State.selectedResults (toggles ids s)) <= MAX_SELECTIONS
  /\ forall st id,
       ~ In id (State.selectedResults st) ->
       MAX_SELECTIONS <= length (State.selectedResults st) ->
       handleResultSelect_update id st = st.
Proof.
  intros s ids. apply (toggles_keep_cap s ids). unfold MAX_SELECTIONS. simpl. lia.
Defined.

(** C9 -- the toggle is an involution on the selected set, not an
    idempotent: from a state whose selection is within the cap, toggling an id
    twice selects the same set as not toggling at all; and toggling twice
    agrees with toggling once exactly when the toggle does nothing, that is
    when the id is not selected and the selection is full. *)
Theorem toggle_twice (s : State.t) (id : string) :
  length (State.selectedResults s) <= MAX_SELECTIONS ->
  sameSelection (handleResultSelect_update id (handleResultSelect_update id s)) s
  /\ (sameSelection (handleResultSelect_update id (handleResultSelect_update id s))
                    (handleResultSelect_update id s)
      <-> ~ In id (State.selectedResults s)
          /\ length (State.selectedResults s) = MAX_SELECTIONS).
Proof.
  intros Hlen. set (once := handleResultSelect_update id s).
  destruct (In_dec_id id (State.selectedResults s)) as [Hin|Hout].
  - (* the id is selected: removed, then added back *)
    assert (Honce : State.selectedResults once
                    = List.filter (fun x => negb (String.eqb x id)) (State.selectedResults s))
      by now apply toggle_remove.
    assert (Hgone : ~ In id (State.selectedResults once))
      by (rewrite Honce, filter_ne_In; tauto).
    assert (Hroom : length (State.selectedResults once) < MAX_SELECTIONS).
    { rewrite Honce. pose proof (filter_ne_length_lt id _ Hin). lia. }
    assert (Htwice : State.selectedResults (handleResultSelect_update id once)
                     = (State.selectedResults once ++ [id])%list)
      by now apply toggle_add.
    split.
    + intros x. rewrite Htwice, in_app_iff, Honce, filter_ne_In. simpl.
      destruct (string_dec x id) as [->|Hne]; [tauto|]. intuition congruence.
    + split; [|tauto]. intros Hsame. exfalso. apply Hgone, Hsame.
      rewrite Htwice, in_app_iff. simpl. tauto.
  - destruct (Nat.eq_dec (length (State.selectedResults s)) MAX_SELECTIONS) as [E|NE].
    + (* the selection is full: both toggles do nothing *)
      assert (Honce : once = s) by (apply toggle_full; [exact Hout | lia]).
      rewrite Honce. fold once. rewrite Honce. split; [easy|]. split; [tauto | easy].
    + (* there is room: added, then removed *)
      assert (Honce : State.selectedResults once = (State.selectedResults s ++ [id])%list)
        by (apply toggle_add; [exact Hout | lia]).
      assert (Hin : In id (State.selectedResults once))
        by (rewrite Honce, in_app_iff; simpl; tauto).
      assert (Htwice : State.selectedResults (handleResultSelect_update id once)
                       = List.filter (fun x => negb (String.eqb x id))
                                     (State.selectedResults once))
        by now apply toggle_remove.
      assert (Hback : forall x, In x (State.selectedResults (handleResultSelect_update id once))
                                <-> In x (State.selectedResults s)).
      { intros x. rewrite Htwice, filter_ne_In, Honce, in_app_iff. simpl.
        destruct (string_dec x id) as [->|Hne]; [tauto|]. intuition congruence. }
      split; [exact Hback|].
      split; [|tauto]. intros Hsame. exfalso. apply Hout, Hback, Hsame, Hin.
Qed.

Lemma toggle_twice_witness :
  let s := initialState "gemini-flash" in
  sameSelection (handleResultSelect_update "a" (handleResultSelect_update "a" s)) s
  /\ (sameSelection (handleResultSelect_update "a" (handleResultSelect_update "a" s))
                    (handleResultSelect_update "a" s)
      <-> ~ In "a" (State.selectedResults s)
          /\ length (State.selectedResults s) = MAX_SELECTIONS).
Proof.
  intros s. apply (toggle_twice s "a"). unfold MAX_SELECTIONS. simpl. lia.
Defined.

(** C9 -- toggling twice is not toggling once: on the empty selection one
    toggle selects the id, the second removes it again. *)
Lemma toggle_twice_differs_from_once :
  let s := initialState "gemini-flash" in
  State.selectedResults (handleResultSelect_update "a" s) = ["a"]
  /\ State.selectedResults (handleResultSelect_update "a" (handleResultSelect_update "a" s)) = []
  /\ ~ sameSelection (handleResultSelect_update "a" (handleResultSelect_update "a" s))
                     (handleResultSelect_update "a" s).
Proof.
  split; [reflexivity|]. split; [reflexivity|].
  intros H. destruct (H "a") as [_ H']. apply H'. now left.
Qed.

(** ** Merging a search response *)

(** When every page of the response is already in the candidate list, the
    merge keeps the custom and the selected candidates and nothing else. *)
Lemma mergeResults_known_urls (newResults : list SearchResult.t) (prev : State.t) :
  (forall r, In r newResults ->
             In (SearchResult.url r) (map SearchResult.url (State.results prev))) ->
  State.results (mergeResults newResults prev)
  = List.filter (fun r => SearchResult.isCustomUrl r
                          || includesId (State.selectedResults prev) (SearchResult.id r))
                (State.results prev).
Proof.
  intros H. unfold mergeResults. cbn [State.results State.with_results State.with_error].
  rewrite <- (app_nil_r (List.filter _ (State.results prev))) at 2. f_equal.
  induction newResults as [|n l IH]; [reflexivity|]. simpl.
  assert (Hn : existsb (fun existing =>
                          String.eqb (SearchResult.url existing) (SearchResult.url n))
                       (State.results prev) = true).
  { apply existsb_exists. pose proof (H n (or_introl eq_refl)) as Hin.
    apply in_map_iff in Hin as (x & Hx & Hxin). exists x. split; [exact Hxin|].
    rewrite Hx. apply String.eqb_refl. }
  rewrite Hn. simpl. apply IH. intros r Hr. apply H. now right.
Qed.

(** C7 -- a manual search run twice over a provider that answers the same two
    pages: the first run lists both, the second run, whose response has exactly
    the URLs of the list, leaves the list empty.  The URL set is not
    preserved. *)
Theorem repeated_search_empties_results :
  map SearchResult.url (State.results (app Scenario.firstSearch))
    = ["https://a.example/one"; "https://b.example/"]
  /\ State.selectedResults (app Scenario.firstSearch) = []
  /\ map SearchResult.url (State.results (app Scenario.secondSearch)) = []
  /\ ~ sameUrls (app Scenario.secondSearch) (app Scenario.firstSearch).
Proof.
  assert (H1 : map SearchResult.url (State.results (app Scenario.firstSearch))
               = ["https://a.example/one"; "https://b.example/"]) by (vm_compute; reflexivity).
  assert (H2 : map SearchResult.url (State.results (app Scenario.secondSearch)) = [])
    by (vm_compute; reflexivity).
  split; [exact H1|]. split; [vm_compute; reflexivity|]. split; [exact H2|].
  intros H. destruct (H "https://b.example/") as [_ H']. rewrite H1, H2 in H'.
  apply H'. simpl. tauto.
Qed.

(** ** Properties kept along a run *)

Section KeepsFacts.
Context {W : Type} (P : Machine W -> Prop).

Lemma keeps_ret {A} (a : A) : keeps P (ret a).
Proof. intros m H. exact H. Qed.

Lemma keeps_throw {A} (e : Thrown) : keeps P (@throw W A e).
Proof. intros m H. exact H. Qed.

Lemma keeps_settle {A} (o : Outcome A) : keeps P (settle o).
Proof. intros m H. exact H. Qed.

Lemma keeps_readWorld {A} (f : W -> A) : keeps P (readWorld f).
Proof. intros m H. exact H. Qed.

Lemma keeps_bind {A B} (x : M W A) (k : A -> M W B) :
  keeps P x -> (forall a, keeps P (k a)) -> keeps P (bind x k).
Proof.
  intros Hx Hk m H. unfold bind. specialize (Hx m H).
  destruct (x m) as [[a|e] m1]; [now apply Hk | exact Hx].
Qed.

Lemma keeps_try_catch {A} (x : M W A) (handler : Thrown -> M W A) :
  keeps P x -> (forall e, keeps P (handler e)) -> keeps P (try_catch x handler).
Proof.
  intros Hx Hh m H. unfold try_catch. specialize (Hx m H).
  destruct (x m) as [[a|e] m1]; [exact Hx | now apply Hh].
Qed.

Lemma keeps_try_finally {A} (x : M W A) (cleanup : M W unit) :
  keeps P x -> keeps P cleanup -> keeps P (try_finally x cleanup).
Proof.
  intros Hx Hc m H. unfold try_finally. specialize (Hx m H).
  destruct (x m) as [r m1]. now apply Hc.
Qed.

Lemma keeps_setState (f : State.t -> State.t) :
  (forall m, P m -> P (mkMachine (f (app m)) (ext m) (effects m))) ->
  keeps P (setState f).
Proof. intros Hf m H. now apply Hf. Qed.

Hypothesis P_settled : settled P.

Lemma keeps_perform (e : Effect) : keeps P (perform e).
Proof. intros [a w l] H. exact (P_settled a w w l e H). Qed.

Lemma keeps_call {T} (request : Request) (oracle : W -> Outcome T * W) :
  keeps P (call request oracle).
Proof.
  intros [a w l] H. unfold call; simpl. destruct (oracle w) as [r w'].
  exact (P_settled a w w' l _ H).
Qed.

Lemma keeps_retryLoop {T} (operation : M W T) (baseDelay k i : nat) (last : Thrown) :
  keeps P operation -> keeps P (retryLoop operation baseDelay k i last).
Proof.
  intros Hop. revert i last. induction k as [|k IH]; intros i last; simpl.
  - apply keeps_throw.
  - apply keeps_try_catch; [exact Hop|]. intros e.
    destruct (isRateLimit e); [|apply keeps_throw].
    apply keeps_bind; [apply keeps_perform | intros _; apply IH].
Qed.

(** With a turn to take, the loop leaves what its operation always leaves. *)
Lemma establishes_retryLoop {T} (operation : M W T) (baseDelay k i : nat) (last : Thrown) :
  establishes P operation -> establishes P (retryLoop operation baseDelay (S k) i last).
Proof.
  intros Hop m. simpl. unfold try_catch. pose proof (Hop m) as Hm.
  destruct (operation m) as [[v|e] m1]; [exact Hm|].
  destruct (isRateLimit e); [|exact Hm].
  apply keeps_bind; [apply keeps_perform | intros _ | exact Hm].
  apply keeps_retryLoop. intros m' _. apply Hop.
Qed.

Lemma keeps_bind_settle {A B} (o : Outcome A) (k : A -> M W B) :
  (forall a, o = Returned a -> keeps P (k a)) -> keeps P (bind (settle o) k).
Proof.
  intros Hk m H. unfold bind, settle. destruct o as [a|e]; [now apply Hk | exact H].
Qed.

Lemma establishes_bind {A B} (x : M W A) (k : A -> M W B) :
  establishes P x -> (forall a, keeps P (k a)) -> establishes P (bind x k).
Proof.
  intros Hx Hk m. unfold bind. specialize (Hx m).
  destruct (x m) as [[a|e] m1]; [now apply Hk | exact Hx].
Qed.

Lemma establishes_try_catch {A} (x : M W A) (handler : Thrown -> M W A) :
  establishes P x -> (forall e, keeps P (handler e)) -> establishes P (try_catch x handler).
Proof.
  intros Hx Hh m. unfold try_catch. specialize (Hx m).
  destruct (x m) as [[a|e] m1]; [exact Hx | now apply Hh].
Qed.

Lemma keeps_promiseAll {A} (tasks : list (M W A)) :
  (forall t, In t tasks -> keeps P t) -> keeps P (promiseAll tasks).
Proof.
  induction tasks as [|t rest IH]; intros Ht m H; simpl; [exact H|].
  pose proof (Ht t (or_introl eq_refl) m H) as H1.
  assert (IH' : keeps P (promiseAll rest)) by (apply IH; intros; apply Ht; now right).
  destruct (t m) as [[a|e] m1]; simpl in *.
  - specialize (IH' m1 H1). now destruct (promiseAll rest m1) as [[l|e] m2].
  - now apply IH'.
Qed.
End KeepsFacts.

(** A property of the React state alone is settled. *)
Ltac app_only := unfold settled; let H := fresh in intros ? ? ? ? ? H; exact H.

Ltac is_settled := first [assumption | app_only].

(** Takes a program apart along its monadic structure. *)
Ltac keeps_step :=
  lazymatch goal with
  | |- keeps _ (bind (settle _) _) => apply keeps_bind_settle; intros ? ?
  | |- keeps _ (bind _ _) => apply keeps_bind; [|intros ?]
  | |- keeps _ (try_catch _ _) => apply keeps_try_catch; [|intros ?]
  | |- keeps _ (try_finally _ _) => apply keeps_try_finally
  | |- keeps _ (retryLoop _ _ _ _ _) => apply keeps_retryLoop; [is_settled|]
  | |- keeps _ (ret _) => apply keeps_ret
  | |- keeps _ (throw _) => apply keeps_throw
  | |- keeps _ (settle _) => apply keeps_settle
  | |- keeps _ (readWorld _) => apply keeps_readWorld
  | |- keeps _ (call _ _) => apply keeps_call; is_settled
  | |- keeps _ (perform _) => apply keeps_perform; is_settled
  | |- keeps _ (if ?b then _ else _) => destruct b
  | |- keeps _ (match ?x with _ => _ end) => destruct x
  end.

Ltac unfold_page :=
  unfold handleAgentSearch, agentReset, agentPlan, agentGenerate, agentBeginFetch,
    agentReport, agentOptimizeAndSearch, onAgentError,
    handleSearch, manualGenerate, manualSearch, manualSearchOp, manualReportOp,
    optimizeOp, agentSearchOp, analyzeOp, agentReportOp, handleError,
    resolveContent, fetchContent,
    retryWithBackoff_default, retryWithBackoff, toast, sleep, updateState, updateStatus;
  cbv zeta.

Section RunFacts.
Context {W : Type} (env : Collaborators W).

Lemma settled_notErrorStep : settled (@notErrorStep W).
Proof. intros a w w' l e H. exact H. Qed.

Lemma settled_performed (e : Effect) : settled (@performed W e).
Proof.
  intros a w w' l e' H. unfold performed in *. simpl in *. apply in_or_app. now left.
Qed.

Lemma keeps_resolveAll (P : Machine W -> Prop) (sources : list SearchResult.t) :
  settled P ->
  (forall u, keeps P (setState (fun prev =>
     State.with_status (recordFetched u (State.status prev)) prev))) ->
  (forall u, keeps P (setState (fun prev =>
     State.with_status (recordFallback u (State.status prev)) prev))) ->
  keeps P (resolveAll env sources).
Proof.
  intros HP Hf Hb. unfold resolveAll. apply keeps_promiseAll.
  intros t Ht. apply in_map_iff in Ht as (article & <- & _).
  unfold_page. repeat keeps_step; first [apply Hf | apply Hb].
Qed.

(** No handler of the page assigns the stage [error]: a run that starts in
    another stage ends in another stage. *)
Lemma handleAgentSearch_notErrorStep (state : State.t) :
  keeps notErrorStep (handleAgentSearch env state).
Proof.
  pose proof (@settled_notErrorStep) as HP.
  unfold_page.
  repeat first
    [ keeps_step
    | apply keeps_resolveAll; [exact HP | intros u | intros u]
    | apply keeps_setState; intros ? Hm; unfold notErrorStep in *; cbn;
      first [exact Hm | discriminate] ].
Qed.

Lemma handleSearch_notErrorStep (state : State.t) :
  keeps notErrorStep (handleSearch env state).
Proof.
  pose proof (@settled_notErrorStep) as HP.
  unfold_page.
  repeat first
    [ keeps_step
    | apply keeps_resolveAll; [exact HP | intros u | intros u]
    | apply keeps_setState; intros ? Hm; unfold notErrorStep in *; cbn;
      first [exact Hm | discriminate] ].
Qed.

(** Every writer of the selection respects the cap: the agent run replaces the
    selection by what the selector returns, the manual search and the removal
    of a candidate never add to it. *)
Lemma handleAgentSearch_withinCap (state : State.t) :
  keeps withinCap (handleAgentSearch env state).
Proof.
  unfold_page.
  repeat first
    [ keeps_step
    | apply keeps_resolveAll; [app_only | intros u | intros u]
    | apply keeps_setState; intros ? Hm; unfold withinCap in *; cbn;
      first [ exact Hm | unfold MAX_SELECTIONS; simpl; lia | idtac ] ].
  rewrite length_map.
  match goal with
  | Hsel : selected env _ _ = Returned ?l |- _ =>
      destruct (selectDiverse_sound env _ _ [] l Hsel) as (Hlen & _)
  end.
  simpl in Hlen. unfold MAX_SELECTIONS. lia.
Qed.

Lemma handleSearch_withinCap (state : State.t) :
  keeps withinCap (handleSearch env state).
Proof.
  unfold_page.
  repeat first
    [ keeps_step
    | apply keeps_resolveAll; [app_only | intros u | intros u]
    | apply keeps_setState; intros ? Hm; unfold withinCap in *; cbn; exact Hm ].
Qed.

Lemma handleRemoveResult_withinCap (resultId : string) :
  keeps withinCap (setState (W := W) (handleRemoveResult_update resultId)).
Proof.
  apply keeps_setState. intros m Hm. unfold withinCap in *. cbn.
  pose proof (filter_ne_length resultId (State.selectedResults (app m))). lia.
Qed.

Lemma handleResultSelect_withinCap (resultId : string) :
  keeps withinCap (handleResultSelect (W := W) resultId).
Proof.
  apply keeps_setState. intros m Hm. unfold withinCap in *. cbn.
  now apply toggle_keeps_cap.
Qed.
End RunFacts.

(** ** The agent run *)

Section AgentFacts.
Context {W : Type} (env : Collaborators W).
Implicit Types (m : Machine W) (state : State.t).

Lemma bind_returned {A B} (x : M W A) (k : A -> M W B) m (b : B) m' :
  bind x k m = (Returned b, m') ->
  exists a m1, x m = (Returned a, m1) /\ k a m1 = (Returned b, m').
Proof.
  unfold bind. destruct (x m) as [[a|e] m1]; [eauto | discriminate].
Qed.

Lemma agentReset_run m :
  agentReset m = (Returned tt, snd (agentReset m))
  /\ State.report (app (snd (agentReset m))) = None
  /\ State.error (app (snd (agentReset m))) = None
  /\ Status.agentStep (State.status (app (snd (agentReset m)))) = processing.
Proof. repeat split. Qed.

(** Once the search response is in, the stage is [searching] and the report
    is the one the run started with. *)
Lemma agentOptimizeAndSearch_app state m found m' :
  agentOptimizeAndSearch env state m = (Returned found, m') ->
  Status.agentStep (State.status (app m')) = searching
  /\ State.report (app m') = State.report (app m).
Proof.
  unfold agentOptimizeAndSearch. cbv zeta. intros H.
  apply bind_returned in H as (opt & ma & Hopt & H).
  assert (Hrep : State.report (app ma) = State.report (app m)).
  { change ma with (snd (Returned opt, ma)). rewrite <- Hopt.
    apply (keeps_retryLoop (fun x => State.report (app x) = State.report (app m)));
      [app_only | | reflexivity].
    unfold optimizeOp. repeat keeps_step. }
  apply bind_returned in H as ([] & mb & Hb & H). injection Hb as <-.
  apply bind_returned in H as ([] & mc & Hc & H). injection Hc as <-.
  apply bind_returned in H as ([] & md & Hd & H). injection Hd as <-.
  apply bind_returned in H as (sr & me & Hsr & H). injection H as <- <-.
  change me with (snd (Returned sr, me)). rewrite <- Hsr.
  split.
  - apply (keeps_retryLoop (fun x => Status.agentStep (State.status (app x)) = searching));
      [app_only | | reflexivity].
    unfold agentSearchOp. repeat keeps_step.
  - apply (keeps_retryLoop (fun x => State.report (app x) = State.report (app m)));
      [app_only | | exact Hrep].
    unfold agentSearchOp. repeat keeps_step.
Qed.
End AgentFacts.

(** C5 -- when the search stage of an agent run returns no
    result, the run ends there: the message "No search results found. Please
    try a different query." is stored in the [error] field of the state and
    shown in a notification, and the stored report is still null. *)
Theorem no_search_results_aborts_run
    {W : Type} (env : Collaborators W) (state : State.t) (m m2 : Machine W)
    (opt : Optimized.t) (searchResponse : option (list SearchResult.t)) :
  isBlank (State.reportPrompt state) = false ->
  agentOptimizeAndSearch env state (snd (agentReset m)) = (Returned (opt, searchResponse), m2) ->
  length (default [] searchResponse) = 0 ->
  exists m',
    handleAgentSearch env state m = (Returned tt, m')
    /\ State.error (app m') = Some "No search results found. Please try a different query."
    /\ State.report (app m') = None
    /\ effects m' = (effects m2 ++ [EffToast "Agent Error"
                       "No search results found. Please try a different query."])%list.
Proof.
  intros Hprompt Hstage Hnone.
  destruct (agentOptimizeAndSearch_app env _ _ _ _ Hstage) as [_ Hrep].
  eexists. split.
  - unfold handleAgentSearch. rewrite Hprompt.
    unfold bind at 1. destruct (agentReset_run m) as [-> _].
    unfold try_catch, bind at 1. unfold agentPlan. cbv zeta. unfold bind at 1.
    rewrite Hstage. cbn [fst snd]. rewrite Hnone. cbn [Nat.eqb]. unfold throw.
    reflexivity.
  - repeat split. exact Hrep.
Qed.

Lemma no_search_results_aborts_run_witness :
  exists m',
    handleAgentSearch Scenario.noResults (Scenario.start "test")
      (Scenario.boot (Scenario.start "test")) = (Returned tt, m')
    /\ State.error (app m') = Some "No search results found. Please try a different query."
    /\ State.report (app m') = None
    /\ effects m' =
         [EffFetch (ReqOptimize "test" "gemini-flash");
          EffFetch (ReqSearch "q" TfAll (Some false));
          EffToast "Agent Error" "No search results found. Please try a different query."].
Proof.
  apply (no_search_results_aborts_run Scenario.noResults (Scenario.start "test")
           (Scenario.boot (Scenario.start "test"))
           (snd (agentOptimizeAndSearch Scenario.noResults (Scenario.start "test")
                   (snd (agentReset (Scenario.boot (Scenario.start "test"))))))
           (Optimized.mk "q" "p" "search the topic directly" None) (Some []));
    vm_compute; reflexivity.
Defined.

(** C5 -- in scenario A the run ends with the message stored and no report,
    but the stage tag is not [error]. *)
Lemma scenario_A_stage_is_not_error :
  State.error (app Scenario.afterNoResults)
    = Some "No search results found. Please try a different query."
  /\ State.report (app Scenario.afterNoResults) = None
  /\ Status.agentStep (State.status (app Scenario.afterNoResults)) <> error.
Proof.
  split; [vm_compute; reflexivity|]. split; [vm_compute; reflexivity|].
  vm_compute. discriminate.
Qed.

(** ** One unreachable source *)

Section BatchFacts.
Context {W : Type} (env : Collaborators W).
Implicit Types (m : Machine W) (article : SearchResult.t).

(** A source without content of its own, whose fetch does not raise the
    rate-limit signal, is resolved whatever the answer. *)
Lemma resolveContent_absorbs article m (answer : Outcome (option string)) (w' : W) :
  whenTruthy (SearchResult.content article) = None ->
  fetchContentW env (SearchResult.url article) (ext m) = (answer, w') ->
  (forall e, answer = Threw e -> isRateLimit e = false) ->
  resolveContent env article m =
  (Returned (resolvedAs article answer),
   statusUpdated (recordAnswer (SearchResult.url article) answer)
     (mkMachine (app m) w'
        (effects m ++ [EffFetch (ReqFetchContent (SearchResult.url article))]))).
Proof.
  intros Hc Hw Hnot.
  pose proof (fetchContent_world env (SearchResult.url article) m) as Hf.
  rewrite Hw in Hf. cbn [fst snd] in Hf.
  destruct answer as [content|e].
  - destruct (whenTruthy content) as [c|] eqn:Ht.
    + rewrite (resolveContent_fetched env _ _ _ c _ Hc Hf Ht).
      unfold resolvedAs, recordAnswer. rewrite Ht.
      unfold whenTruthy in Ht. destruct (truthy content); [reflexivity | discriminate].
    + rewrite (resolveContent_empty env _ _ _ _ Hc Hf Ht).
      unfold resolvedAs, recordAnswer. rewrite Ht.
      unfold whenTruthy in Ht. destruct (truthy content) eqn:E; [|reflexivity].
      subst content. discriminate E.
  - now rewrite (resolveContent_absorbed env _ _ _ _ Hc Hf (Hnot e eq_refl)).
Qed.

Lemma answered_absorbed (failing k : nat) (answer : Outcome (option string)) :
  answered failing k answer -> forall e, answer = Threw e -> isRateLimit e = false.
Proof.
  unfold answered. destruct (k =? failing).
  - intros (e' & -> & R) e [= <-]. exact R.
  - intros (c & -> & _) e [=].
Qed.

Lemma fetchFailed_counts (u : string) (answer : Outcome (option string)) :
  fetchFailed answer -> recordAnswer u answer = recordFallback u.
Proof. now intros (e & -> & _). Qed.

Lemma fetchSucceeded_counts (u : string) (answer : Outcome (option string)) :
  fetchSucceeded answer -> recordAnswer u answer = recordFetched u.
Proof.
  intros (c & -> & Hc). unfold recordAnswer, truthy.
  now apply String.eqb_neq in Hc as ->.
Qed.

Lemma fetchFailed_snippet article (answer : Outcome (option string)) :
  fetchFailed answer ->
  ContentResult.content (resolvedAs article answer) = SearchResult.snippet article.
Proof. now intros (e & -> & _). Qed.

Lemma fetchFailed_resolvedAs article (answer : Outcome (option string)) :
  fetchFailed answer ->
  resolvedAs article answer
  = ContentResult.mk (SearchResult.url article) (SearchResult.name article)
      (SearchResult.snippet article).
Proof. now intros (e & -> & _). Qed.

(** An entry with text passes the filter of the request builder. *)
Lemma withText_In (r : ContentResult.t) (l : list ContentResult.t) :
  In r l -> isBlank (ContentResult.content r) = false -> In r (withText l).
Proof.
  intros Hin Hb. unfold withText. apply filter_In. split; [exact Hin|]. now rewrite Hb.
Qed.

(** The report request is logged by the first call of the operation. *)
Lemma agentReportOp_performed (contentResults : list ContentResult.t)
    (sources : list SearchResult.t) (prompt model : string) :
  establishes
    (performed (EffFetch (ReqReport (withText contentResults) sources prompt model)))
    (agentReportOp env contentResults sources prompt model).
Proof.
  intros m. unfold agentReportOp, bind, call.
  destruct (post_report env _ _ _ _ (ext m)) as [[response|e] w']; simpl.
  - unfold settle, performed. simpl. apply in_or_app. right. now left.
  - unfold performed. simpl. apply in_or_app. right. now left.
Qed.
End BatchFacts.

Section PipelineFacts.
Context {W : Type} (env : Collaborators W).
Implicit Types (m : Machine W) (state : State.t).

Lemma handleAgentSearch_after_plan state m (prompt : string)
    (sources : list SearchResult.t) m0 :
  isBlank (State.reportPrompt state) = false ->
  agentPlan env state (snd (agentReset m)) = (Returned (prompt, sources), m0) ->
  handleAgentSearch env state m
  = try_catch (agentGenerate env state prompt sources) onAgentError m0.
Proof.
  intros Hprompt Hplan. unfold handleAgentSearch. rewrite Hprompt.
  unfold bind at 1. destruct (agentReset_run m) as [-> _].
  unfold try_catch, bind. now rewrite Hplan.
Qed.

Lemma agentGenerate_after_batch state (prompt : string) (sources : list SearchResult.t)
    (contents : list ContentResult.t) m0 mb :
  resolveAll env sources (snd (agentBeginFetch (length sources) m0)) = (Returned contents, mb) ->
  try_catch (agentGenerate env state prompt sources) onAgentError m0
  = try_catch (agentReport env state prompt sources contents) onAgentError mb.
Proof.
  intros Hbatch. unfold agentGenerate, try_catch. unfold bind at 1.
  change (agentBeginFetch (length sources) m0)
    with (@Returned unit tt, snd (agentBeginFetch (length sources) m0)).
  cbv iota. unfold bind at 1. now rewrite Hbatch.
Qed.

(** Nothing after the batch touches the fetch status. *)
Lemma agentReport_fetchStatus state (prompt : string) (sources : list SearchResult.t)
    (contents : list ContentResult.t) (fs : FetchStatus.t) :
  keeps (fun x => fetchStatusOf x = fs)
        (try_catch (agentReport env state prompt sources contents) onAgentError).
Proof.
  unfold onAgentError. unfold_page.
  repeat first
    [ keeps_step
    | apply keeps_setState; intros ? Hm; unfold fetchStatusOf in *; cbn; exact Hm ].
Qed.

(** The report request is made, whatever becomes of it. *)
Lemma agentReport_performed state (prompt : string) (sources : list SearchResult.t)
    (contents : list ContentResult.t) :
  establishes
    (performed (EffFetch (ReqReport (withText contents) sources
                            (prompt ++ ". Provide comprehensive analysis.")
                            (State.selectedModel state))))
    (try_catch (agentReport env state prompt sources contents) onAgentError).
Proof.
  pose proof (settled_performed (W := W)
                (EffFetch (ReqReport (withText contents) sources
                             (prompt ++ ". Provide comprehensive analysis.")
                             (State.selectedModel state)))) as HP.
  apply establishes_try_catch.
  - unfold agentReport. apply establishes_bind.
    + unfold retryWithBackoff_default, retryWithBackoff.
      apply establishes_retryLoop; [exact HP | apply agentReportOp_performed].
    + intros a. unfold_page.
      repeat first [ keeps_step | apply keeps_setState; intros ? Hm; exact Hm ].
  - intros e. unfold onAgentError. unfold_page.
    repeat first [ keeps_step | apply keeps_setState; intros ? Hm; exact Hm ].
Qed.
End PipelineFacts.

(** C4 -- an agent run that has chosen three sources, none with content of its
    own; the fetch of exactly one of them (the one at position [failing])
    fails with something other than the rate-limit signal and the two others
    return text.  Then the batch completes, the failed source is given its
    snippet as content, the report request is made with these contents (the
    snippet among them unless it is blank, since the request leaves out every
    entry without text), and the fetch status ends with total 3, successful 2,
    fallback 1. *)
Theorem one_unreachable_source_of_three
    {W : Type} (env : Collaborators W) (state : State.t) (m m0 : Machine W)
    (prompt : string) (s1 s2 s3 : SearchResult.t)
    (o1 o2 o3 : Outcome (option string)) (w1 w2 w3 : W) (failing : nat) :
  isBlank (State.reportPrompt state) = false ->
  agentPlan env state (snd (agentReset m)) = (Returned (prompt, [s1; s2; s3]), m0) ->
  whenTruthy (SearchResult.content s1) = None ->
  whenTruthy (SearchResult.content s2) = None ->
  whenTruthy (SearchResult.content s3) = None ->
  fetchContentW env (SearchResult.url s1) (ext m0) = (o1, w1) ->
  fetchContentW env (SearchResult.url s2) w1 = (o2, w2) ->
  fetchContentW env (SearchResult.url s3) w2 = (o3, w3) ->
  failing < 3 ->
  answered failing 0 o1 -> answered failing 1 o2 -> answered failing 2 o3 ->
  let contents := [resolvedAs s1 o1; resolvedAs s2 o2; resolvedAs s3 o3] in
  let final := snd (handleAgentSearch env state m) in
  (exists mb, resolveAll env [s1; s2; s3] (snd (agentBeginFetch 3 m0)) = (Returned contents, mb))
  /\ nth failing (map ContentResult.content contents) ""
     = SearchResult.snippet (nth failing [s1; s2; s3] s1)
  /\ (let failed := nth failing [s1; s2; s3] s1 in
      isBlank (SearchResult.snippet failed) = false ->
      In (ContentResult.mk (SearchResult.url failed) (SearchResult.name failed)
            (SearchResult.snippet failed))
         (withText contents))
  /\ performed (EffFetch (ReqReport (withText contents) [s1; s2; s3]
                            (prompt ++ ". Provide comprehensive analysis.")
                            (State.selectedModel state))) final
  /\ FetchStatus.total (fetchStatusOf final) = 3
  /\ FetchStatus.successful (fetchStatusOf final) = 2
  /\ FetchStatus.fallback (fetchStatusOf final) = 1.
Proof.
  intros Hprompt Hplan Hc1 Hc2 Hc3 Hw1 Hw2 Hw3 Hfail A1 A2 A3 contents final.
  set (mb0 := snd (agentBeginFetch 3 m0)).
  pose proof (resolveContent_absorbs env s1 mb0 o1 w1 Hc1 Hw1 (answered_absorbed _ _ _ A1)) as R1.
  set (mb1 := statusUpdated (recordAnswer (SearchResult.url s1) o1) _) in R1.
  pose proof (resolveContent_absorbs env s2 mb1 o2 w2 Hc2 Hw2 (answered_absorbed _ _ _ A2)) as R2.
  set (mb2 := statusUpdated (recordAnswer (SearchResult.url s2) o2) _) in R2.
  pose proof (resolveContent_absorbs env s3 mb2 o3 w3 Hc3 Hw3 (answered_absorbed _ _ _ A3)) as R3.
  set (mb3 := statusUpdated (recordAnswer (SearchResult.url s3) o3) _) in R3.
  assert (Hbatch : resolveAll env [s1; s2; s3] mb0 = (Returned contents, mb3)).
  { unfold resolveAll. cbn [map promiseAll]. rewrite R1, R2, R3. reflexivity. }
  assert (Hfinal : final = snd (try_catch (agentReport env state prompt [s1; s2; s3] contents)
                                          onAgentError mb3)).
  { unfold final.
    rewrite (handleAgentSearch_after_plan env state m prompt [s1; s2; s3] m0 Hprompt Hplan).
    now rewrite (agentGenerate_after_batch env state prompt [s1; s2; s3] contents m0 mb3 Hbatch). }
  assert (Hfs : fetchStatusOf final = fetchStatusOf mb3).
  { rewrite Hfinal. now apply agentReport_fetchStatus. }
  split; [now exists mb3|]. split; [|split; [|split]].
  - destruct failing as [|[|[|?]]]; [| | |lia]; cbn [nth map contents].
    + now apply fetchFailed_snippet.
    + now apply fetchFailed_snippet.
    + now apply fetchFailed_snippet.
  - destruct failing as [|[|[|?]]]; [| | |lia]; cbn [nth]; intros Hb;
      apply withText_In; try exact Hb; unfold contents.
    + rewrite (fetchFailed_resolvedAs s1 o1 A1). now left.
    + rewrite (fetchFailed_resolvedAs s2 o2 A2). right. now left.
    + rewrite (fetchFailed_resolvedAs s3 o3 A3). right. right. now left.
  - rewrite Hfinal. apply agentReport_performed.
  - rewrite Hfs. unfold mb3, mb2, mb1.
    destruct failing as [|[|[|?]]]; [| | |lia]; unfold answered in A1, A2, A3; simpl in A1, A2, A3.
    + rewrite (fetchFailed_counts _ _ A1), (fetchSucceeded_counts _ _ A2),
        (fetchSucceeded_counts _ _ A3). repeat split.
    + rewrite (fetchSucceeded_counts _ _ A1), (fetchFailed_counts _ _ A2),
        (fetchSucceeded_counts _ _ A3). repeat split.
    + rewrite (fetchSucceeded_counts _ _ A1), (fetchSucceeded_counts _ _ A2),
        (fetchFailed_counts _ _ A3). repeat split.
Qed.

Lemma one_unreachable_source_of_three_witness :
  let final := snd (handleAgentSearch Scenario.oneUnreachable (Scenario.start "topic")
                      (Scenario.boot (Scenario.start "topic"))) in
  performed
    (EffFetch
       (ReqReport
          [ContentResult.mk "https://a.example/one" "A one" "full text of https://a.example/one";
           ContentResult.mk "https://d.example/" "D" "page of d";
           ContentResult.mk "https://b.example/" "B" "full text of https://b.example/"]
          [Scenario.chosenA; Scenario.chosenD; Scenario.chosenB]
          "p. Provide comprehensive analysis." "gemini-flash")) final
  /\ FetchStatus.total (fetchStatusOf final) = 3
  /\ FetchStatus.successful (fetchStatusOf final) = 2
  /\ FetchStatus.fallback (fetchStatusOf final) = 1.
Proof.
  intros final.
  pose (state := Scenario.start "topic").
  pose (m := Scenario.boot state).
  destruct (one_unreachable_source_of_three Scenario.oneUnreachable state m
              (snd (agentPlan Scenario.oneUnreachable state (snd (agentReset m))))
              "p" Scenario.chosenA Scenario.chosenD Scenario.chosenB
              (Returned (Some "full text of https://a.example/one"))
              (Threw (JsError "Failed to fetch content: 500"))
              (Returned (Some "full text of https://b.example/"))
              4 5 6 1)
    as (_ & _ & _ & Hreq & Htotal & Hok & Hfallback);
    try (vm_compute; reflexivity).
  - lia.
  - eexists. split; [reflexivity | discriminate].
  - eexists. split; [reflexivity | reflexivity].
  - eexists. split; [reflexivity | discriminate].
  - split; [exact Hreq|]. split; [exact Htotal|]. split; [exact Hok | exact Hfallback].
Defined.

(** * Further properties of the page *)

(** ** More on the retry loop *)

Section RetryMore.
Context {W : Type} {T : Type}.
Implicit Types (operation : M W T) (m : Machine W).

Lemma waits_app (l1 l2 : list Effect) : waits (l1 ++ l2) = (waits l1 ++ waits l2)%list.
Proof.
  induction l1 as [|e l1 IH]; simpl; [reflexivity|].
  destruct e; simpl; now rewrite IH.
Qed.

Lemma retryLoop_exhausted operation baseDelay :
  alwaysRateLimited operation -> sleepless operation ->
  forall k i last c m,
    (k = 0 -> isRateLimit last = true) ->
    let r := retryLoop (counted operation) baseDelay k i last (inject c m) in
    (exists e, fst r = Threw e /\ isRateLimit e = true)
    /\ calls (snd r) = c + k
    /\ waits (effects (snd r))
       = (waits (effects m) ++ map (fun j => baseDelay * 2 ^ j) (seq i k))%list.
Proof.
  intros Hall Hquiet. induction k as [|k IH]; intros i last c m Hlast; cbv zeta.
  - simpl. unfold calls; simpl. rewrite app_nil_r. split; [eauto|]. split; [lia | reflexivity].
  - destruct (Hall m) as (e & m1 & Hop & R).
    rewrite (retryLoop_rate_limited _ _ _ _ _ _ e (inject (S c) m1));
      [| now rewrite counted_run, Hop | exact R].
    rewrite sleep_inject. cbn [snd].
    destruct (IH (S i) e (S c) (snd (sleep (baseDelay * 2 ^ i) m1)) (fun _ => R))
      as (He & Hc & Hw).
    split; [exact He|]. split; [rewrite Hc; lia|].
    rewrite Hw. simpl effects. rewrite waits_app. simpl waits.
    pose proof (Hquiet m) as Hq. rewrite Hop in Hq. simpl in Hq. rewrite Hq.
    rewrite <- app_assoc. reflexivity.
Qed.

Lemma backoffDelays_sum (baseDelay n : nat) :
  list_sum (backoffDelays baseDelay n) + baseDelay = baseDelay * 2 ^ n.
Proof.
  unfold backoffDelays. induction n as [|n IH]; [simpl; lia|].
  rewrite seq_S, map_app, list_sum_app. simpl. lia.
Qed.
End RetryMore.

(** X1 -- a first call that returns, or that fails with anything but the
    rate-limit signal, is all [retryWithBackoff] does: with at least one
    attempt allowed it is the operation itself, no wait and no second call. *)
Theorem retryWithBackoff_transparent
    {W T : Type} (operation : M W T) (k baseDelay : nat) (m : Machine W) :
  (forall e, fst (operation m) = Threw e -> isRateLimit e = false) ->
  retryWithBackoff operation (S k) baseDelay m = operation m.
Proof.
  intros H. unfold retryWithBackoff. simpl. unfold try_catch.
  destruct (operation m) as [[v|e] m1]; [reflexivity|].
  simpl in H. now rewrite (H e eq_refl).
Qed.

Lemma retryWithBackoff_transparent_witness :
  let operation : M Scenario.world nat := fun m => (Threw (JsError "Search failed"), m) in
  retryWithBackoff operation 3 1000 (Scenario.boot (Scenario.start ""))
  = operation (Scenario.boot (Scenario.start "")).
Proof.
  intros operation.
  apply (retryWithBackoff_transparent operation 2 1000 (Scenario.boot (Scenario.start ""))).
  intros e [= <-]. reflexivity.
Defined.

(** X2 -- whatever the operation does, [retryWithBackoff] calls it at most
    [maxRetries] times, and at least once unless [maxRetries] is 0; with
    [maxRetries = 0] it throws [undefined] without calling it. *)
Theorem retryWithBackoff_call_bounds
    {W T : Type} (operation : M W T) (maxRetries baseDelay c : nat) (m : Machine W) :
  (c + Nat.min 1 maxRetries
   <= calls (snd (retryWithBackoff (counted operation) maxRetries baseDelay (inject c m)))
   <= c + maxRetries)
  /\ retryWithBackoff operation 0 baseDelay m = (Threw JsOther, m).
Proof.
  split; [|reflexivity].
  exact (retryLoop_calls operation baseDelay maxRetries 0 JsOther c m).
Qed.

(** X3 -- an operation that is rate limited on every call and does not sleep
    itself: [retryWithBackoff] gives up with a rate-limit failure after
    exactly [maxRetries] calls, having slept [baseDelay * 2 ^ i] after each of
    them, the last one included: [baseDelay * (2 ^ maxRetries - 1)] in all. *)
Theorem retryWithBackoff_exhausted
    {W T : Type} (operation : M W T) (n baseDelay c : nat) (m : Machine W) :
  alwaysRateLimited operation -> sleepless operation ->
  let r := retryWithBackoff (counted operation) (S n) baseDelay (inject c m) in
  (exists e, fst r = Threw e /\ isRateLimit e = true)
  /\ calls (snd r) = c + S n
  /\ waits (effects (snd r)) = (waits (effects m) ++ backoffDelays baseDelay (S n))%list
  /\ list_sum (backoffDelays baseDelay (S n)) = baseDelay * (2 ^ S n - 1).
Proof.
  intros Hall Hquiet r.
  destruct (retryLoop_exhausted operation baseDelay Hall Hquiet (S n) 0 JsOther c m)
    as (He & Hc & Hw); [discriminate|].
  split; [exact He|]. split; [exact Hc|]. split; [exact Hw|].
  pose proof (backoffDelays_sum baseDelay (S n)) as Hs.
  assert (0 < 2 ^ S n) by (apply Nat.neq_0_lt_0, Nat.pow_nonzero; lia). nia.
Qed.

Lemma retryWithBackoff_exhausted_witness :
  let operation : M Scenario.world nat :=
    fun m => (Threw (JsError "Too many requests (429)"), m) in
  let r := retryWithBackoff (counted operation) 3 1000
             (inject 0 (Scenario.boot (Scenario.start ""))) in
  calls (snd r) = 3 /\ waits (effects (snd r)) = [1000; 2000; 4000].
Proof.
  intros operation r.
  destruct (retryWithBackoff_exhausted operation 2 1000 0 (Scenario.boot (Scenario.start "")))
    as (_ & Hc & Hw & _).
  - intros m. exists (JsError "Too many requests (429)"), m. split; reflexivity.
  - intros m. reflexivity.
  - split; [exact Hc | exact Hw].
Defined.

(** ** What an endpoint's answer means for the loop *)

Section EndpointFacts.
Context {W : Type} (env : Collaborators W).
Implicit Types (m : Machine W).

Lemma includes_here (needle pre post : string) :
  includes needle (pre ++ needle ++ post) = true.
Proof. apply includes_spec. eauto. Qed.

(** The machine after one logged request that moved the world to [w]. *)
Lemma call_run {A} (request : Request) (oracle : W -> Outcome A * W) m (r : Outcome A) (w : W) :
  oracle (ext m) = (r, w) ->
  call request oracle m = (r, mkMachine (app m) w (effects m ++ [EffFetch request])).
Proof. intros H. unfold call. now rewrite H. Qed.

Lemma agentSearchOp_429 (query : string) (tf : TimeFilter) m
    (response : Response.t (option (list SearchResult.t))) (w : W) :
  post_search env query tf (ext m) = (Returned response, w) ->
  Response.ok response = false -> Response.status response = 429 ->
  agentSearchOp env query tf m
  = (Threw (JsError "Rate limit exceeded"),
     mkMachine (app m) w
       (effects m ++ [EffFetch (ReqSearch query tf (Some (isTestQuery query)))])).
Proof.
  intros H Hok Hst. unfold agentSearchOp, bind.
  rewrite (call_run _ _ _ _ _ H). now rewrite Hok, Hst.
Qed.

Lemma optimizeOp_failed (prompt model : string) m (response : Response.t Optimized.t) (w : W) :
  post_optimize env prompt model (ext m) = (Returned response, w) ->
  Response.ok response = false ->
  optimizeOp env prompt model m
  = (Threw (JsError ("Failed to optimize research: " ++ decimal (Response.status response)
                       ++ " " ++ Response.statusText response)),
     mkMachine (app m) w (effects m ++ [EffFetch (ReqOptimize prompt model)])).
Proof.
  intros H Hok. unfold optimizeOp, bind.
  rewrite (call_run _ _ _ _ _ H). now rewrite Hok.
Qed.
End EndpointFacts.

(** X4 -- in an agent run, an HTTP 429 from the search endpoint is turned into
    the error "Rate limit exceeded", whose message does not contain "429": the
    wrapped search is not retried.  One request, no wait, and that error. *)
Theorem agent_search_429_is_not_retried
    {W : Type} (env : Collaborators W) (query : string) (tf : TimeFilter) (m : Machine W)
    (response : Response.t (option (list SearchResult.t))) (w : W) :
  post_search env query tf (ext m) = (Returned response, w) ->
  Response.ok response = false -> Response.status response = 429 ->
  retryWithBackoff_default (agentSearchOp env query tf) m
  = (Threw (JsError "Rate limit exceeded"),
     mkMachine (app m) w
       (effects m ++ [EffFetch (ReqSearch query tf (Some (isTestQuery query)))])).
Proof.
  intros H Hok Hst. unfold retryWithBackoff_default, retryWithBackoff.
  apply retryLoop_other; [exact (agentSearchOp_429 env _ _ _ _ _ H Hok Hst) | reflexivity].
Qed.

Lemma agent_search_429_is_not_retried_witness :
  retryWithBackoff_default (agentSearchOp Cases.searchLimited "q" TfAll)
    (Scenario.boot (Scenario.start "topic"))
  = (Threw (JsError "Rate limit exceeded"),
     mkMachine (Scenario.start "topic") 1 [EffFetch (ReqSearch "q" TfAll (Some false))]).
Proof.
  apply (agent_search_429_is_not_retried Cases.searchLimited "q" TfAll
           (Scenario.boot (Scenario.start "topic"))
           (Cases.refused 429 "Too Many Requests" (BodyRead None)) 1);
    reflexivity.
Defined.

(** X5 -- the optimizer's failure message carries the status, so an HTTP 429
    from the optimizer is the rate-limit signal: three such answers in a row
    make three requests, with waits of 1000, 2000 and 4000 ms (the last one
    after the final failure), and the third failure is thrown. *)
Theorem optimizer_429_is_retried_three_times
    {W : Type} (env : Collaborators W) (prompt model : string) (m : Machine W)
    (r1 r2 r3 : Response.t Optimized.t) (w1 w2 w3 : W) :
  post_optimize env prompt model (ext m) = (Returned r1, w1) ->
  post_optimize env prompt model w1 = (Returned r2, w2) ->
  post_optimize env prompt model w2 = (Returned r3, w3) ->
  Response.ok r1 = false -> Response.ok r2 = false -> Response.ok r3 = false ->
  Response.status r1 = 429 -> Response.status r2 = 429 -> Response.status r3 = 429 ->
  retryWithBackoff_default (optimizeOp env prompt model) m
  = (Threw (JsError ("Failed to optimize research: 429 " ++ Response.statusText r3)),
     mkMachine (app m) w3
       (effects m ++ [EffFetch (ReqOptimize prompt model); EffSleep 1000;
                      EffFetch (ReqOptimize prompt model); EffSleep 2000;
                      EffFetch (ReqOptimize prompt model); EffSleep 4000])).
Proof.
  intros H1 H2 H3 Ok1 Ok2 Ok3 S1 S2 S3.
  assert (R : forall text, isRateLimit (JsError ("Failed to optimize research: "
                                                   ++ decimal 429 ++ " " ++ text)) = true).
  { intros text. change (decimal 429) with "429".
    exact (includes_here "429" "Failed to optimize research: " (" " ++ text)). }
  unfold retryWithBackoff_default, retryWithBackoff.
  erewrite retryLoop_rate_limited;
    [| apply (optimizeOp_failed env _ _ _ _ _ H1 Ok1) | rewrite S1; apply R].
  erewrite retryLoop_rate_limited;
    [| apply (optimizeOp_failed env _ _ (mkMachine _ w1 _) r2 w2 H2 Ok2) | rewrite S2; apply R].
  erewrite retryLoop_last_turn;
    [| apply (optimizeOp_failed env _ _ (mkMachine _ w2 _) r3 w3 H3 Ok3) | rewrite S3; apply R].
  rewrite S3. change (decimal 429) with "429". cbn [sleep perform snd app ext effects].
  repeat rewrite <- app_assoc. reflexivity.
Qed.

Lemma optimizer_429_is_retried_three_times_witness :
  retryWithBackoff_default (optimizeOp Cases.optimizeLimited "topic" "gemini-flash")
    (Scenario.boot (Scenario.start "topic"))
  = (Threw (JsError "Failed to optimize research: 429 Too Many Requests"),
     mkMachine (Scenario.start "topic") 3
       [EffFetch (ReqOptimize "topic" "gemini-flash"); EffSleep 1000;
        EffFetch (ReqOptimize "topic" "gemini-flash"); EffSleep 2000;
        EffFetch (ReqOptimize "topic" "gemini-flash"); EffSleep 4000]).
Proof.
  apply (optimizer_429_is_retried_three_times Cases.optimizeLimited "topic" "gemini-flash"
           (Scenario.boot (Scenario.start "topic"))
           (Cases.refused 429 "Too Many Requests" (BodyRead None))
           (Cases.refused 429 "Too Many Requests" (BodyRead None))
           (Cases.refused 429 "Too Many Requests" (BodyRead None)) 1 2 3);
    reflexivity.
Defined.

(** ** More on content resolution *)

Section ResolutionMore.
Context {W : Type} (env : Collaborators W).
Implicit Types (m : Machine W) (article : SearchResult.t).

Lemma whenTruthy_inv (o : option string) (c : string) :
  whenTruthy o = Some c -> o = Some c /\ c <> "".
Proof.
  unfold whenTruthy, truthy. destruct o as [s|]; [|discriminate].
  destruct (String.eqb s "") eqn:E; simpl; [discriminate|].
  intros [= <-]. split; [reflexivity | now apply String.eqb_neq].
Qed.

Lemma whenTruthy_none_truthy (o : option string) :
  whenTruthy o = None -> truthy o = false.
Proof.
  unfold whenTruthy. destruct (truthy o) eqn:E; [|reflexivity].
  intros ->. discriminate E.
Qed.

(** Every way a resolution can go. *)
Lemma resolveContent_outcome article m :
  let u := SearchResult.url article in
  (exists c, whenTruthy (SearchResult.content article) = Some c
             /\ resolveContent env article m
                = (Returned (ContentResult.mk u (SearchResult.name article) c),
                   statusUpdated (recordFetched u) m))
  \/ (whenTruthy (SearchResult.content article) = None
      /\ exists answer w',
           fetchContentW env u (ext m) = (answer, w')
           /\ let m1 := mkMachine (app m) w' (effects m ++ [EffFetch (ReqFetchContent u)]) in
              ((exists e, answer = Threw e /\ isRateLimit e = true
                          /\ resolveContent env article m = (Threw e, m1))
               \/ ((forall e, answer = Threw e -> isRateLimit e = false)
                   /\ resolveContent env article m
                      = (Returned (resolvedAs article answer),
                         statusUpdated (recordAnswer u answer) m1)))).
Proof.
  intros u. destruct (whenTruthy (SearchResult.content article)) as [c|] eqn:Hc.
  - left. exists c. split; [reflexivity|].
    apply whenTruthy_inv in Hc as [Hc Hne]. now apply resolveContent_populated.
  - right. split; [reflexivity|].
    destruct (fetchContentW env u (ext m)) as [answer w'] eqn:Hw.
    exists answer, w'. split; [reflexivity|]. cbv zeta.
    pose proof (fetchContent_world env u m) as Hf. rewrite Hw in Hf. cbn [fst snd] in Hf.
    destruct answer as [content|e].
    + right. split; [intros e [=]|]. apply resolveContent_absorbs; [exact Hc | exact Hw |].
      intros e [=].
    + destruct (isRateLimit e) eqn:R.
      * left. exists e. repeat split; [exact R|]. now apply resolveContent_rate_limited.
      * right. split; [intros e' [= <-]; exact R|].
        apply resolveContent_absorbs; [exact Hc | exact Hw | intros e' [= <-]; exact R].
Qed.

Lemma recordAnswer_cases (u : string) (answer : Outcome (option string)) :
  (recordAnswer u answer = recordFetched u
   /\ exists c, answer = Returned (Some c) /\ c <> "")
  \/ (recordAnswer u answer = recordFallback u
      /\ forall c, answer = Returned (Some c) -> c = "").
Proof.
  destruct answer as [[c|]|e]; simpl.
  - destruct (String.eqb c "") eqn:E; simpl.
    + right. split; [reflexivity|]. intros c' [= <-]. now apply String.eqb_eq.
    + left. split; [reflexivity|]. exists c. split; [reflexivity | now apply String.eqb_neq].
  - right. split; [reflexivity | intros c [=]].
  - right. split; [reflexivity | intros c [=]].
Qed.

Lemma resolvedAs_fallback article (answer : Outcome (option string)) :
  (forall c, answer = Returned (Some c) -> c = "") ->
  ContentResult.content (resolvedAs article answer) = SearchResult.snippet article.
Proof.
  intros H. destruct answer as [[c|]|e]; simpl; try reflexivity.
  rewrite (H c eq_refl). reflexivity.
Qed.

Lemma resolvedAs_fetched article (c : string) :
  c <> "" -> ContentResult.content (resolvedAs article (Returned (Some c))) = c.
Proof. intros H. simpl. now rewrite (whenTruthy_some c H). Qed.

(** [Promise.all], one task at a time. *)
Lemma promiseAll_cons_returned {A} (t : M W A) (rest : list (M W A)) m (l : list A) m' :
  promiseAll (t :: rest) m = (Returned l, m') ->
  exists a m1 l', t m = (Returned a, m1) /\ promiseAll rest m1 = (Returned l', m')
                  /\ l = a :: l'.
Proof.
  simpl. destruct (t m) as [[a|e] m1]; [|discriminate].
  destruct (promiseAll rest m1) as [[l'|e] m2] eqn:Hrest; [|discriminate].
  intros [= <- <-]. exists a, m1, l'. repeat split. exact Hrest.
Qed.
End ResolutionMore.

(** X6 -- a source whose resolution returns is recorded exactly once: the
    result carries the source's URL and title, [total] is untouched, and either
    the URL is marked [fetched], [successful] grows by one and the content is
    not empty, or the URL is marked [preview], [fallback] grows by one and the
    content is the snippet. *)
Theorem resolveContent_records_once
    {W : Type} (env : Collaborators W) (article : SearchResult.t)
    (m m' : Machine W) (r : ContentResult.t) :
  resolveContent env article m = (Returned r, m') ->
  let before := fetchStatusOf m in
  let after := fetchStatusOf m' in
  let u := SearchResult.url article in
  ContentResult.url r = u
  /\ ContentResult.title r = SearchResult.name article
  /\ FetchStatus.total after = FetchStatus.total before
  /\ ((FetchStatus.sourceStatuses after !! u = Some fetched
       /\ FetchStatus.successful after = FetchStatus.successful before + 1
       /\ FetchStatus.fallback after = FetchStatus.fallback before
       /\ ContentResult.content r <> "")
      \/ (FetchStatus.sourceStatuses after !! u = Some preview
          /\ FetchStatus.fallback after = FetchStatus.fallback before + 1
          /\ FetchStatus.successful after = FetchStatus.successful before
          /\ ContentResult.content r = SearchResult.snippet article)).
Proof.
  intros H. cbv zeta.
  destruct (resolveContent_outcome env article m) as [(c & Hc & E)|(Hc & answer & w' & Hw & E)].
  - rewrite E in H. injection H as <- <-. apply whenTruthy_inv in Hc as [_ Hne].
    do 3 (split; [reflexivity|]). left. repeat split; [apply lookup_insert_eq | exact Hne].
  - cbv zeta in E. destruct E as [(e & _ & _ & E)|(_ & E)]; rewrite E in H; [discriminate|].
    injection H as <- <-.
    destruct (recordAnswer_cases (SearchResult.url article) answer)
      as [(-> & c & -> & Hne)|(-> & Hfb)]; do 3 (split; [reflexivity|]).
    + left. repeat split; [apply lookup_insert_eq|].
      now rewrite (resolvedAs_fetched article c Hne).
    + right. repeat split; [apply lookup_insert_eq | now apply resolvedAs_fallback].
Qed.

Lemma resolveContent_records_once_witness :
  let m := Scenario.boot (Scenario.start "topic") in
  let m' := snd (resolveContent Cases.plain Scenario.a1 m) in
  let r := ContentResult.mk "https://a.example/one" "A one"
             "full text of https://a.example/one" in
  let before := fetchStatusOf m in
  let after := fetchStatusOf m' in
  let u := SearchResult.url Scenario.a1 in
  ContentResult.url r = u
  /\ ContentResult.title r = SearchResult.name Scenario.a1
  /\ FetchStatus.total after = FetchStatus.total before
  /\ ((FetchStatus.sourceStatuses after !! u = Some fetched
       /\ FetchStatus.successful after = FetchStatus.successful before + 1
       /\ FetchStatus.fallback after = FetchStatus.fallback before
       /\ ContentResult.content r <> "")
      \/ (FetchStatus.sourceStatuses after !! u = Some preview
          /\ FetchStatus.fallback after = FetchStatus.fallback before + 1
          /\ FetchStatus.successful after = FetchStatus.successful before
          /\ ContentResult.content r = SearchResult.snippet Scenario.a1)).
Proof.
  intros m m' r.
  apply (resolveContent_records_once Cases.plain Scenario.a1 m m' r).
  vm_compute. reflexivity.
Defined.

(** X7 -- the only thing a resolution ever throws is the rate-limit signal,
    and a resolution that throws records nothing: the React state is the one
    it started with. *)
Theorem resolveContent_throws_only_rate_limit
    {W : Type} (env : Collaborators W) (article : SearchResult.t)
    (m m' : Machine W) (e : Thrown) :
  resolveContent env article m = (Threw e, m') ->
  isRateLimit e = true /\ app m' = app m.
Proof.
  intros H.
  destruct (resolveContent_outcome env article m) as [(c & Hc & E)|(Hc & answer & w' & Hw & E)].
  - rewrite E in H. discriminate.
  - cbv zeta in E. destruct E as [(e' & _ & R & E)|(_ & E)]; rewrite E in H; [|discriminate].
    injection H as <- <-. split; [exact R | reflexivity].
Qed.

Lemma resolveContent_throws_only_rate_limit_witness :
  let env := Scenario.env None (fun _ => Some 429) in
  let m := Scenario.boot (Scenario.start "topic") in
  isRateLimit (JsError "Failed to fetch content: 429") = true
  /\ app (snd (resolveContent env Scenario.a1 m)) = app m.
Proof.
  intros env m.
  apply (resolveContent_throws_only_rate_limit env Scenario.a1 m
           (snd (resolveContent env Scenario.a1 m))
           (JsError "Failed to fetch content: 429")).
  vm_compute. reflexivity.
Defined.

Section BatchMore.
Context {W : Type} (env : Collaborators W).
Implicit Types (m : Machine W).

Lemma resolveAll_cons_returned (s : SearchResult.t) (rest : list SearchResult.t) m
    (contents : list ContentResult.t) m' :
  resolveAll env (s :: rest) m = (Returned contents, m') ->
  exists r m1 l, resolveContent env s m = (Returned r, m1)
                 /\ resolveAll env rest m1 = (Returned l, m')
                 /\ contents = r :: l.
Proof. unfold resolveAll. cbn [map]. apply promiseAll_cons_returned. Qed.

(** What a returned resolution adds to the counters. *)
Lemma resolveContent_counts (s : SearchResult.t) m (r : ContentResult.t) m' :
  resolveContent env s m = (Returned r, m') ->
  ContentResult.url r = SearchResult.url s
  /\ ContentResult.title r = SearchResult.name s
  /\ FetchStatus.total (fetchStatusOf m') = FetchStatus.total (fetchStatusOf m)
  /\ FetchStatus.successful (fetchStatusOf m') + FetchStatus.fallback (fetchStatusOf m')
     = FetchStatus.successful (fetchStatusOf m) + FetchStatus.fallback (fetchStatusOf m) + 1
  /\ is_Some (FetchStatus.sourceStatuses (fetchStatusOf m') !! SearchResult.url s).
Proof.
  intros H.
  destruct (resolveContent_outcome env s m) as [(c & Hc & E)|(Hc & answer & w' & Hw & E)].
  - rewrite E in H. injection H as <- <-. do 3 (split; [reflexivity|]).
    unfold fetchStatusOf, statusUpdated, recordFetched. cbn.
    split; [lia|]. rewrite lookup_insert_eq. eauto.
  - cbv zeta in E. destruct E as [(e & _ & _ & E)|(_ & E)]; rewrite E in H; [discriminate|].
    injection H as <- <-.
    destruct (recordAnswer_cases (SearchResult.url s) answer) as [(-> & _)|(-> & _)];
      do 3 (split; [reflexivity|]);
      unfold fetchStatusOf, statusUpdated, recordFetched, recordFallback; cbn;
      (split; [lia|]); rewrite lookup_insert_eq; eauto.
Qed.

(** A status once written stays written. *)
Lemma resolveAll_keeps_status (u : string) (sources : list SearchResult.t) :
  keeps (fun x => is_Some (FetchStatus.sourceStatuses (fetchStatusOf x) !! u))
        (resolveAll env sources).
Proof.
  apply keeps_resolveAll; [app_only | |]; intros v; apply keeps_setState; intros x Hx;
    unfold fetchStatusOf in *; cbn; rewrite lookup_insert; case_decide; eauto.
Qed.
End BatchMore.

(** X8 -- a batch that completes returns one entry per source, in order, with
    the sources' URLs and titles, and has counted every source exactly once:
    [successful + fallback] has grown by the number of sources and [total] is
    untouched.  Started from the fresh fetch status of the pipeline, it ends
    with [successful + fallback = total]. *)
Theorem resolveAll_counts_every_source
    {W : Type} (env : Collaborators W) (sources : list SearchResult.t)
    (contents : list ContentResult.t) (m m' : Machine W) :
  resolveAll env sources m = (Returned contents, m') ->
  map ContentResult.url contents = map SearchResult.url sources
  /\ map ContentResult.title contents = map SearchResult.name sources
  /\ FetchStatus.total (fetchStatusOf m') = FetchStatus.total (fetchStatusOf m)
  /\ FetchStatus.successful (fetchStatusOf m') + FetchStatus.fallback (fetchStatusOf m')
     = FetchStatus.successful (fetchStatusOf m) + FetchStatus.fallback (fetchStatusOf m)
       + length sources
  /\ (fetchStatusOf m = initialFetchStatus (length sources) ->
      FetchStatus.successful (fetchStatusOf m') + FetchStatus.fallback (fetchStatusOf m')
      = FetchStatus.total (fetchStatusOf m')).
Proof.
  intros H.
  assert (Hmain :
    map ContentResult.url contents = map SearchResult.url sources
    /\ map ContentResult.title contents = map SearchResult.name sources
    /\ FetchStatus.total (fetchStatusOf m') = FetchStatus.total (fetchStatusOf m)
    /\ FetchStatus.successful (fetchStatusOf m') + FetchStatus.fallback (fetchStatusOf m')
       = FetchStatus.successful (fetchStatusOf m) + FetchStatus.fallback (fetchStatusOf m)
         + length sources).
  { revert contents m H. induction sources as [|s rest IH]; intros contents m H.
    - injection H as <- <-. simpl. repeat split. lia.
    - apply resolveAll_cons_returned in H as (r & m1 & l & Hr & Hrest & ->).
      destruct (IH _ _ Hrest) as (Hu & Ht & Htot & Hsum).
      destruct (resolveContent_counts env s m r m1 Hr) as (Hru & Hrt & Htot1 & Hcount & _).
      cbn [map length]. rewrite Hu, Ht, Hru, Hrt, Htot, Htot1. repeat split. lia. }
  destruct Hmain as (Hu & Ht & Htot & Hsum). repeat split; try assumption.
  intros Hinit. rewrite Hsum, Htot, Hinit. simpl. lia.
Qed.

Lemma resolveAll_counts_every_source_witness :
  let sources := [Scenario.chosenA; Scenario.chosenD; Scenario.chosenB] in
  let m := snd (agentBeginFetch 3 (Scenario.boot (Scenario.start "topic"))) in
  let m' := snd (resolveAll Scenario.oneUnreachable sources m) in
  FetchStatus.successful (fetchStatusOf m') + FetchStatus.fallback (fetchStatusOf m')
  = FetchStatus.total (fetchStatusOf m').
Proof.
  intros sources m m'.
  destruct (resolveAll_counts_every_source Scenario.oneUnreachable sources
              [ContentResult.mk "https://a.example/one" "A one"
                 "full text of https://a.example/one";
               ContentResult.mk "https://d.example/" "D" "page of d";
               ContentResult.mk "https://b.example/" "B" "full text of https://b.example/"]
              m m') as (_ & _ & _ & _ & H).
  - vm_compute. reflexivity.
  - apply H. reflexivity.
Defined.

(** X9 -- after a batch that completes, every source's URL has a status in the
    fetch tracker (and the statuses that were there before are still there). *)
Theorem resolveAll_marks_every_source
    {W : Type} (env : Collaborators W) (sources : list SearchResult.t)
    (contents : list ContentResult.t) (m m' : Machine W) :
  resolveAll env sources m = (Returned contents, m') ->
  (forall s, In s sources ->
     is_Some (FetchStatus.sourceStatuses (fetchStatusOf m') !! SearchResult.url s))
  /\ (forall u, is_Some (FetchStatus.sourceStatuses (fetchStatusOf m) !! u) ->
                is_Some (FetchStatus.sourceStatuses (fetchStatusOf m') !! u)).
Proof.
  intros H. split.
  - revert contents m H. induction sources as [|s rest IH]; intros contents m H x Hx;
      [destruct Hx|].
    apply resolveAll_cons_returned in H as (r & m1 & l & Hr & Hrest & ->).
    destruct Hx as [<-|Hx]; [|exact (IH _ _ Hrest x Hx)].
    destruct (resolveContent_counts env s m r m1 Hr) as (_ & _ & _ & _ & Hmark).
    change m' with (snd (Returned l, m')). rewrite <- Hrest.
    now apply resolveAll_keeps_status.
  - intros u Hu. change m' with (snd (Returned contents, m')). rewrite <- H.
    now apply resolveAll_keeps_status.
Qed.

Lemma resolveAll_marks_every_source_witness :
  let sources := [Scenario.chosenA; Scenario.chosenD; Scenario.chosenB] in
  let m := snd (agentBeginFetch 3 (Scenario.boot (Scenario.start "topic"))) in
  let m' := snd (resolveAll Scenario.oneUnreachable sources m) in
  is_Some (FetchStatus.sourceStatuses (fetchStatusOf m')
             !! SearchResult.url Scenario.chosenD).
Proof.
  intros sources m m'.
  destruct (resolveAll_marks_every_source Scenario.oneUnreachable sources
              [ContentResult.mk "https://a.example/one" "A one"
                 "full text of https://a.example/one";
               ContentResult.mk "https://d.example/" "D" "page of d";
               ContentResult.mk "https://b.example/" "B" "full text of https://b.example/"]
              m m') as (H & _).
  - vm_compute. reflexivity.
  - apply H. right. left. reflexivity.
Defined.

(** X10 -- a refused content request is judged by the message of the error
    its body leads to: the source's resolution rethrows when that message
    contains "429" and falls back to the snippet otherwise.  So an HTTP 429
    whose body is a JSON value other than [null] with no [error] field aborts
    the batch (the status is in the message), while a refusal whose body is
    not JSON, or is the JSON value [null], never does, whatever the status:
    the message is the fixed text "Failed to fetch content" in the first case
    and that of the [TypeError] for reading [.error] of [null] in the
    second. *)
Theorem refused_fetch_is_judged_by_its_message
    {W : Type} (env : Collaborators W) (article : SearchResult.t) (m : Machine W)
    (response : Response.t (option string)) (w : W) :
  whenTruthy (SearchResult.content article) = None ->
  post_fetch_content env (SearchResult.url article) (ext m) = (Returned response, w) ->
  Response.ok response = false ->
  let u := SearchResult.url article in
  let message :=
    errorMessage "Failed to fetch content"
      ("Failed to fetch content: " ++ decimal (Response.status response))
      (Response.errorData response) in
  let m1 := mkMachine (app m) w (effects m ++ [EffFetch (ReqFetchContent u)]) in
  resolveContent env article m
  = (if includes "429" message
     then (Threw (JsError message), m1)
     else (Returned (ContentResult.mk u (SearchResult.name article)
                       (SearchResult.snippet article)),
           statusUpdated (recordFallback u) m1))
  /\ (Response.status response = 429 -> Response.errorData response = BodyRead None ->
      includes "429" message = true)
  /\ (Response.errorData response = BodyUnreadable -> includes "429" message = false)
  /\ (Response.errorData response = BodyNull -> includes "429" message = false).
Proof.
  intros Hc Hp Hok u message m1.
  assert (Hf : fetchContent env u m = (Threw (JsError message), m1)).
  { rewrite fetchContent_world. unfold fetchContentW, u. rewrite Hp, Hok. reflexivity. }
  split; [|split; [|split]].
  - destruct (includes "429" message) eqn:R.
    + exact (resolveContent_rate_limited env article m _ m1 Hc Hf R).
    + exact (resolveContent_absorbed env article m _ m1 Hc Hf R).
  - intros Hs Hb. unfold message. rewrite Hs, Hb. reflexivity.
  - intros Hb. unfold message. rewrite Hb. reflexivity.
  - intros Hb. unfold message. rewrite Hb. reflexivity.
Qed.

Lemma refused_fetch_is_judged_by_its_message_witness :
  let m := Scenario.boot (Scenario.start "topic") in
  resolveContent Cases.contentLimitedNullBody Scenario.a1 m
  = (Returned (ContentResult.mk "https://a.example/one" "A one" "first page of a"),
     statusUpdated (recordFallback "https://a.example/one")
       (mkMachine (app m) 1 [EffFetch (ReqFetchContent "https://a.example/one")])).
Proof.
  intros m.
  destruct (refused_fetch_is_judged_by_its_message Cases.contentLimitedNullBody Scenario.a1 m
              (Cases.refused 429 "Too Many Requests" BodyNull) 1
              eq_refl eq_refl eq_refl) as (H & _).
  exact H.
Defined.

(** X11 -- the status of the report response is looked at in the manual flow
    only.  For one and the same refused answer whose body is JSON, the manual
    operation throws the error built from the body, while the agent's
    operation returns the body, which the run then stores as the report
    ([null] included) before it goes back to [idle], without touching the
    [error] field. *)
Theorem report_status_is_checked_in_manual_flow_only
    {W : Type} (env : Collaborators W) (state : State.t)
    (contents : list ContentResult.t) (sources : list SearchResult.t)
    (prompt : string) (m : Machine W) (response : Response.t (option Report)) (w : W)
    (body : option Report) :
  let fullPrompt := prompt ++ ". Provide comprehensive analysis." in
  let model := State.selectedModel state in
  post_report env (withText contents) sources fullPrompt model (ext m) = (Returned response, w) ->
  Response.ok response = false -> Response.json response = Returned body ->
  let m1 := mkMachine (app m) w
              (effects m ++ [EffFetch (ReqReport (withText contents) sources fullPrompt model)]) in
  manualReportOp env contents sources fullPrompt model m
  = (Threw (JsError (errorMessage "Failed to generate report"
                       ("Failed to generate report: " ++ decimal (Response.status response))
                       (Response.errorData response))), m1)
  /\ agentReportOp env contents sources fullPrompt model m = (Returned body, m1)
  /\ let final := snd (agentReport env state prompt sources contents m) in
     State.report (app final) = body
     /\ Status.agentStep (State.status (app final)) = idle
     /\ State.activeTab (app final) = "report"
     /\ State.error (app final) = State.error (app m)
     /\ effects final = effects m1.
Proof.
  intros fullPrompt model Hp Hok Hj m1.
  assert (Hagent : agentReportOp env contents sources fullPrompt model m = (Returned body, m1)).
  { unfold agentReportOp, bind. rewrite (call_run _ _ _ _ _ Hp). unfold settle. now rewrite Hj. }
  split; [|split; [exact Hagent|]].
  - unfold manualReportOp, bind. rewrite (call_run _ _ _ _ _ Hp). now rewrite Hok.
  - cbv zeta. unfold agentReport, bind.
    unfold retryWithBackoff_default, retryWithBackoff.
    rewrite (retryLoop_returned _ _ _ _ _ _ _ _ Hagent). repeat split.
Qed.

Lemma report_status_is_checked_in_manual_flow_only_witness :
  let m := Scenario.boot (Scenario.start "topic") in
  let final := snd (agentReport Cases.reportRefused (Scenario.start "topic") "p"
                      [Scenario.chosenA] [] m) in
  State.report (app final) = Some "{error}"
  /\ Status.agentStep (State.status (app final)) = idle.
Proof.
  intros m final.
  destruct (report_status_is_checked_in_manual_flow_only Cases.reportRefused
              (Scenario.start "topic") [] [Scenario.chosenA] "p" m
              (Response.mk false 500 "Internal Server Error" (Returned (Some "{error}"))
                 (BodyRead (Some "model unavailable"))) 1 (Some "{error}")
              eq_refl eq_refl eq_refl) as (_ & _ & Hr & Hs & _).
  split; [exact Hr | exact Hs].
Defined.

(** ** More on ranking and selection *)

Section SelectorMore.
Context {W : Type} (env : Collaborators W).

Lemma hasSimilar_true (domain : string) (urls : list string) :
  hasSimilar env domain urls = Returned true ->
  exists u, In u urls /\ hostname env u = Some domain.
Proof.
  induction urls as [|u0 urls IH]; simpl; [discriminate|].
  destruct (hostname env u0) as [h|] eqn:Hh; [|discriminate].
  destruct (String.eqb h domain) eqn:E.
  - intros _. exists u0. apply String.eqb_eq in E. subst. auto.
  - intros H. destruct (IH H) as (u & Hu & Hd). eauto.
Qed.

Lemma setAdd_In (x u : string) (urls : list string) :
  In x (setAdd u urls) -> In x urls \/ x = u.
Proof.
  unfold setAdd. destruct (includesId urls u); [auto|].
  intros H. apply in_app_or in H as [H|[<-|[]]]; auto.
Qed.

Lemma setAdd_length (u : string) (urls : list string) :
  length (setAdd u urls) <= length urls + 1.
Proof.
  unfold setAdd. destruct (includesId urls u); [lia|]. rewrite length_app. simpl. lia.
Qed.

Lemma selectDiverse_sublist (cap : nat) (ranked : list SearchResult.t) :
  forall urls sel, selectDiverse env cap urls ranked = Returned sel -> sublist sel ranked.
Proof.
  induction ranked as [|result rest IH]; intros urls sel H; simpl in H.
  - injection H as <-. constructor.
  - destruct (cap <=? length urls); [apply sublist_cons; eauto|].
    destruct (hostname env (SearchResult.url result)) as [domain|]; [|discriminate].
    destruct (hasSimilar env domain urls) as [similar|]; [|discriminate].
    destruct (negb similar && goodScore (SearchResult.score result));
      [|apply sublist_cons; eauto].
    destruct (selectDiverse env cap _ rest) as [l|] eqn:Hrest; [|discriminate].
    injection H as <-. apply sublist_skip. eauto.
Qed.

(** Why a candidate can be missing from the selection. *)
Lemma selectDiverse_complete (cap : nat) (ranked : list SearchResult.t) :
  forall urls sel,
    selectDiverse env cap urls ranked = Returned sel ->
    forall r, In r ranked ->
      In r sel
      \/ goodScore (SearchResult.score r) = false
      \/ (exists u, In u urls /\ hostname env u = hostOfResult env r)
      \/ (exists r', In r' sel /\ hostOfResult env r' = hostOfResult env r)
      \/ cap <= length urls + length sel.
Proof.
  induction ranked as [|result rest IH]; intros urls sel H r Hr; [destruct Hr|].
  simpl in H. destruct (cap <=? length urls) eqn:Ecap.
  - apply Nat.leb_le in Ecap. do 4 right. lia.
  - destruct (hostname env (SearchResult.url result)) as [domain|] eqn:Hd; [|discriminate].
    destruct (hasSimilar env domain urls) as [similar|] eqn:Hs; [|discriminate].
    destruct (negb similar && goodScore (SearchResult.score result)) eqn:Hok.
    + destruct (selectDiverse env cap _ rest) as [l|] eqn:Hrest; [|discriminate].
      injection H as <-. destruct Hr as [<-|Hr]; [left; now left|].
      destruct (IH _ _ Hrest r Hr) as [Hin|[Hg|[(u & Hu & Hh)|[(r' & Hr' & Hh)|Hfull]]]].
      * left. now right.
      * right. now left.
      * apply setAdd_In in Hu as [Hu | ->].
        -- right. right. left. eauto.
        -- right. right. right. left. exists result. split; [now left | exact Hh].
      * right. right. right. left. exists r'. split; [now right | exact Hh].
      * do 4 right. pose proof (setAdd_length (SearchResult.url result) urls).
        simpl. lia.
    + destruct Hr as [<-|Hr]; [|exact (IH _ _ H r Hr)].
      apply andb_false_iff in Hok as [Hsim|Hg]; [|right; now left].
      apply negb_false_iff in Hsim. subst similar.
      destruct (hasSimilar_true _ _ Hs) as (u & Hu & Hh).
      right. right. left. exists u. split; [exact Hu|]. unfold hostOfResult. congruence.
Qed.
End SelectorMore.

(** X12 -- the selection is taken from the ranked list and keeps its order:
    it is a sublist of it. *)
Theorem selected_is_sublist_of_ranked
    {W : Type} (env : Collaborators W) (cap : nat) (ranked sel : list SearchResult.t) :
  selected env cap ranked = Returned sel -> sublist sel ranked.
Proof. apply selectDiverse_sublist. Qed.

(** X13 -- the selector leaves a candidate out for one of three reasons only:
    its score is not above 0.5, a selected candidate is on its host, or the
    selection is full. *)
Theorem selected_leaves_out_for_a_reason
    {W : Type} (env : Collaborators W) (cap : nat) (ranked sel : list SearchResult.t)
    (r : SearchResult.t) :
  selected env cap ranked = Returned sel -> In r ranked ->
  In r sel
  \/ goodScore (SearchResult.score r) = false
  \/ (exists r', In r' sel /\ hostOfResult env r' = hostOfResult env r)
  \/ cap <= length sel.
Proof.
  intros H Hr.
  destruct (selectDiverse_complete env cap ranked [] sel H r Hr)
    as [Hin|[Hg|[(u & [] & _)|[Hh|Hfull]]]]; auto.
Qed.

(** X14 -- the candidate the analyzer ranks first is selected whenever it can
    be: with room for one source, a parsable URL and a score above 0.5, it is
    the first of the selection. *)
Theorem selected_starts_with_best
    {W : Type} (env : Collaborators W) (cap : nat) (best : SearchResult.t)
    (rest sel : list SearchResult.t) :
  0 < cap -> hostOfResult env best <> None ->
  goodScore (SearchResult.score best) = true ->
  selected env cap (best :: rest) = Returned sel ->
  head sel = Some best.
Proof.
  intros Hcap Hhost Hgood H. unfold selected in H.
  destruct (hostOfResult env best) as [domain|] eqn:Hd; [|congruence].
  rewrite (selectDiverse_keep env cap [] best rest domain) in H;
    [| simpl; lia | exact Hd | reflexivity | exact Hgood].
  destruct (selectDiverse env cap _ rest); [|discriminate]. now injection H as <-.
Qed.

Lemma selected_is_sublist_of_ranked_witness :
  sublist [SearchResult.with_score (Some (9 # 10)%Q) Scenario.a1;
           SearchResult.with_score (Some (9 # 10)%Q) Scenario.d1;
           SearchResult.with_score (Some (6 # 10)%Q) Scenario.b1]
          (rankedResults Scenario.fiveResults Scenario.fiveRankings).
Proof.
  apply (selected_is_sublist_of_ranked Cases.plain 3).
  vm_compute. reflexivity.
Defined.

Lemma selected_leaves_out_for_a_reason_witness :
  let sel := [SearchResult.with_score (Some (9 # 10)%Q) Scenario.a1;
              SearchResult.with_score (Some (9 # 10)%Q) Scenario.d1;
              SearchResult.with_score (Some (6 # 10)%Q) Scenario.b1] in
  let r := SearchResult.with_score (Some (8 # 10)%Q) Scenario.a2 in
  In r sel
  \/ goodScore (SearchResult.score r) = false
  \/ (exists r', In r' sel /\ hostOfResult Cases.plain r' = hostOfResult Cases.plain r)
  \/ 3 <= length sel.
Proof.
  intros sel r.
  apply (selected_leaves_out_for_a_reason Cases.plain 3
           (rankedResults Scenario.fiveResults Scenario.fiveRankings) sel r).
  - vm_compute. reflexivity.
  - vm_compute. auto 10.
Defined.

Lemma selected_starts_with_best_witness :
  head [SearchResult.with_score (Some (9 # 10)%Q) Scenario.a1;
        SearchResult.with_score (Some (6 # 10)%Q) Scenario.b1]
  = Some (SearchResult.with_score (Some (9 # 10)%Q) Scenario.a1).
Proof.
  apply (selected_starts_with_best Cases.plain 3
           (SearchResult.with_score (Some (9 # 10)%Q) Scenario.a1)
           [SearchResult.with_score (Some (8 # 10)%Q) Scenario.a2;
            SearchResult.with_score (Some (6 # 10)%Q) Scenario.b1]).
  - lia.
  - discriminate.
  - reflexivity.
  - vm_compute. reflexivity.
Defined.

(** X15 -- ranking neither drops nor invents a candidate: the ranked list is a
    rearrangement of the candidates, each carrying the score the analyzer gave
    its URL (0 when the analyzer did not rank it), in descending order of
    score. *)
Theorem rankedResults_is_sorted_rearrangement
    (allResults : list SearchResult.t) (rankings : list RankingResult.t) :
  Permutation (map SearchResult.id (rankedResults allResults rankings))
              (map SearchResult.id allResults)
  /\ Permutation (map SearchResult.url (rankedResults allResults rankings))
                 (map SearchResult.url allResults)
  /\ length (rankedResults allResults rankings) = length allResults
  /\ (forall r, In r (rankedResults allResults rankings) ->
        SearchResult.score r = Some (rankingScore rankings (SearchResult.url r)))
  /\ (forall u, ~ In u (map RankingResult.url rankings) -> rankingScore rankings u = 0%Q)
  /\ Sorted (fun a b => (scoreOf b <= scoreOf a)%Q) (rankedResults allResults rankings).
Proof.
  unfold rankedResults.
  set (scored := map _ allResults).
  pose proof (sortByScoreDesc_perm scored) as Hperm.
  assert (Hid : map SearchResult.id scored = map SearchResult.id allResults)
    by (unfold scored; rewrite map_map; reflexivity).
  assert (Hurl : map SearchResult.url scored = map SearchResult.url allResults)
    by (unfold scored; rewrite map_map; reflexivity).
  split; [rewrite <- Hid; now apply Permutation_map|].
  split; [rewrite <- Hurl; now apply Permutation_map|].
  split; [rewrite (Permutation_length Hperm); unfold scored; apply length_map|].
  split; [|split; [|apply sortByScoreDesc_sorted]].
  - intros r Hr. apply (Permutation_in _ Hperm) in Hr.
    unfold scored in Hr. apply in_map_iff in Hr as (x & <- & _). reflexivity.
  - intros u Hu. unfold rankingScore.
    destruct (List.find _ rankings) as [x|] eqn:Hfind; [|reflexivity].
    apply find_some in Hfind as [Hin Heq]. apply String.eqb_eq in Heq. subst u.
    exfalso. apply Hu. now apply in_map.
Qed.

Lemma rankedResults_is_sorted_rearrangement_witness :
  Permutation (map SearchResult.url (rankedResults Scenario.fiveResults Scenario.fiveRankings))
              (map SearchResult.url Scenario.fiveResults)
  /\ Sorted (fun a b => (scoreOf b <= scoreOf a)%Q)
            (rankedResults Scenario.fiveResults Scenario.fiveRankings).
Proof.
  destruct (rankedResults_is_sorted_rearrangement Scenario.fiveResults Scenario.fiveRankings)
    as (_ & Hp & _ & _ & _ & Hs).
  split; [exact Hp | exact Hs].
Defined.

(** ** Minted identifiers *)

Section IdFacts.

Lemma append_inj_l (p x y : string) : p ++ x = p ++ y -> x = y.
Proof.
  induction p as [|c p IH]; [now rewrite !append_empty|].
  rewrite !append_cons. intros [= H]. now apply IH.
Qed.

Lemma decimal_allDigits (d : Decimal.uint) : allDigits (NilEmpty.string_of_uint d) = true.
Proof. induction d; simpl; auto. Qed.

Lemma decimal_inj (a b : nat) : decimal a = decimal b -> a = b.
Proof.
  unfold decimal. intros H. apply Unsigned.to_uint_inj.
  pose proof (NilEmpty.usu (Nat.to_uint a)) as Ha. rewrite H, NilEmpty.usu in Ha.
  now injection Ha.
Qed.

(** A run of digits before a dash is determined by the whole string. *)
Lemma digits_before_dash (s1 s2 u v : string) :
  allDigits s1 = true -> allDigits s2 = true ->
  s1 ++ "-" ++ u = s2 ++ "-" ++ v -> s1 = s2.
Proof.
  revert s2. induction s1 as [|c1 s1 IH]; intros [|c2 s2] H1 H2 E.
  - reflexivity.
  - rewrite append_empty, !append_cons, append_empty in E. injection E as <- _.
    simpl in H2. discriminate.
  - rewrite append_empty, !append_cons, append_empty in E. injection E as -> _.
    simpl in H1. discriminate.
  - rewrite !append_cons in E. injection E as <- E.
    simpl in H1, H2. apply andb_prop in H1 as [_ H1]. apply andb_prop in H2 as [_ H2].
    f_equal. now apply IH.
Qed.

(** The id minted at position [idx] tells [idx]. *)
Lemma minted_id_inj (timestamp : N) (i j : nat) (u v : string) :
  "search-" ++ decimalN timestamp ++ "-" ++ decimal i ++ "-" ++ u
  = "search-" ++ decimalN timestamp ++ "-" ++ decimal j ++ "-" ++ v ->
  i = j.
Proof.
  intros E. apply append_inj_l, append_inj_l, append_inj_l in E.
  apply decimal_inj. apply (digits_before_dash _ _ u v); [| |exact E];
    apply decimal_allDigits.
Qed.

Lemma mintIds_from (timestamp : N) (l : list SearchResult.t) (k : nat) :
  let mint idx result :=
    SearchResult.with_score (Some 0%Q)
      (SearchResult.with_id
         ("search-" ++ decimalN timestamp ++ "-" ++ decimal (k + idx) ++ "-"
            ++ SearchResult.url result) result) in
  (forall x, In x (map SearchResult.id (imap mint l)) ->
     exists idx u, k <= idx
       /\ x = "search-" ++ decimalN timestamp ++ "-" ++ decimal idx ++ "-" ++ u)
  /\ List.NoDup (map SearchResult.id (imap mint l)).
Proof.
  revert k. induction l as [|r l IH]; intros k mint; [split; [intros x []|constructor]|].
  assert (Htail : imap (mint ∘ S) l
                  = imap (fun idx result =>
                            SearchResult.with_score (Some 0%Q)
                              (SearchResult.with_id
                                 ("search-" ++ decimalN timestamp ++ "-"
                                    ++ decimal (S k + idx) ++ "-"
                                    ++ SearchResult.url result) result)) l).
  { apply imap_ext. intros i x _. unfold mint. simpl. now rewrite Nat.add_succ_r. }
  destruct (IH (S k)) as [Hshape Hnodup].
  cbn [imap map]. rewrite Htail. split.
  - intros x [<-|Hx].
    + exists (k + 0), (SearchResult.url r). split; [lia | reflexivity].
    + destruct (Hshape x Hx) as (idx & u & Hle & ->). exists idx, u. split; [lia | reflexivity].
  - constructor; [|exact Hnodup]. intros Hin.
    destruct (Hshape _ Hin) as (idx & u & Hle & E).
    unfold mint in E. simpl in E. apply minted_id_inj in E. lia.
Qed.
End IdFacts.

(** X16 -- the ids minted for a search response are pairwise distinct, even
    when the same URL comes back twice; minting changes nothing else than the
    id and the score, which starts at 0. *)
Theorem mintIds_are_distinct (timestamp : N) (searchResults : list SearchResult.t) :
  List.NoDup (map SearchResult.id (mintIds timestamp searchResults))
  /\ map SearchResult.url (mintIds timestamp searchResults)
     = map SearchResult.url searchResults
  /\ map SearchResult.snippet (mintIds timestamp searchResults)
     = map SearchResult.snippet searchResults
  /\ map SearchResult.score (mintIds timestamp searchResults)
     = map (fun _ => Some 0%Q) searchResults.
Proof.
  split; [exact (proj2 (mintIds_from timestamp searchResults 0))|].
  unfold mintIds.
  assert (H : forall (l : list SearchResult.t) (f : nat -> nat),
    map SearchResult.url
      (imap (fun idx result =>
               SearchResult.with_score (Some 0%Q)
                 (SearchResult.with_id
                    ("search-" ++ decimalN timestamp ++ "-" ++ decimal (f idx) ++ "-"
                       ++ SearchResult.url result) result)) l) = map SearchResult.url l
    /\ map SearchResult.snippet
      (imap (fun idx result =>
               SearchResult.with_score (Some 0%Q)
                 (SearchResult.with_id
                    ("search-" ++ decimalN timestamp ++ "-" ++ decimal (f idx) ++ "-"
                       ++ SearchResult.url result) result)) l) = map SearchResult.snippet l
    /\ map SearchResult.score
      (imap (fun idx result =>
               SearchResult.with_score (Some 0%Q)
                 (SearchResult.with_id
                    ("search-" ++ decimalN timestamp ++ "-" ++ decimal (f idx) ++ "-"
                       ++ SearchResult.url result) result)) l) = map (fun _ => Some 0%Q) l).
  { induction l as [|r l IH]; intros f; [repeat split|].
    cbn [imap map]. destruct (IH (f ∘ S)) as (Hu & Hs & Hq).
    unfold compose in *. repeat split; f_equal; assumption. }
  exact (H searchResults (fun i => i)).
Qed.

(** ** More on merging a search response *)

Section MergeFacts.

Lemma NoDup_map_filter {A B} (f : A -> B) (p : A -> bool) (l : list A) :
  List.NoDup (map f l) -> List.NoDup (map f (List.filter p l)).
Proof.
  induction l as [|x l IH]; simpl; [auto|]. intros H. inversion H as [|? ? Hx Hl]; subst.
  destruct (p x); simpl; [|auto]. constructor; [|auto].
  intros Hin. apply Hx. apply in_map_iff in Hin as (y & <- & Hy).
  apply filter_In in Hy as [Hy _]. now apply in_map.
Qed.

Lemma hasUrl_spec (results : list SearchResult.t) (u : string) :
  hasUrl results u = true <-> In u (map SearchResult.url results).
Proof.
  unfold hasUrl. rewrite existsb_exists, in_map_iff. split.
  - intros (r & Hr & E). apply String.eqb_eq in E. eauto.
  - intros (r & <- & Hr). exists r. split; [exact Hr | apply String.eqb_refl].
Qed.

Lemma mergeResults_results (newResults : list SearchResult.t) (prev : State.t) :
  State.results (mergeResults newResults prev)
  = (List.filter (fun r => SearchResult.isCustomUrl r
                           || includesId (State.selectedResults prev) (SearchResult.id r))
                 (State.results prev)
     ++ List.filter (fun n => negb (hasUrl (State.results prev) (SearchResult.url n)))
                    newResults)%list.
Proof. reflexivity. Qed.
End MergeFacts.

(** X17 -- what a merge keeps and adds: every custom candidate and every
    selected candidate stays, every new result whose URL was not in the list
    is added, nothing else appears, and the selection is left alone. *)
Theorem mergeResults_keeps_and_adds
    (newResults : list SearchResult.t) (prev : State.t) :
  let merged := mergeResults newResults prev in
  (forall r, In r (State.results prev) ->
     SearchResult.isCustomUrl r = true \/ In (SearchResult.id r) (State.selectedResults prev) ->
     In r (State.results merged))
  /\ (forall n, In n newResults ->
        ~ In (SearchResult.url n) (map SearchResult.url (State.results prev)) ->
        In n (State.results merged))
  /\ (forall r, In r (State.results merged) -> In r (State.results prev) \/ In r newResults)
  /\ State.selectedResults merged = State.selectedResults prev
  /\ State.error merged = None.
Proof.
  cbv zeta. rewrite mergeResults_results. repeat split.
  - intros r Hr Hkeep. apply in_or_app. left. apply filter_In. split; [exact Hr|].
    destruct Hkeep as [->|Hsel]; [reflexivity|].
    apply includesId_spec in Hsel. rewrite Hsel. apply orb_true_r.
  - intros n Hn Hfresh. apply in_or_app. right. apply filter_In. split; [exact Hn|].
    apply negb_true_iff. destruct (hasUrl _ _) eqn:E; [|reflexivity].
    now apply hasUrl_spec in E.
  - intros r Hr. apply in_app_or in Hr as [Hr|Hr]; apply filter_In in Hr as [Hr _]; auto.
Qed.

Lemma mergeResults_keeps_and_adds_witness :
  let custom := customResult 1700000000000 "https://z.example/" in
  let prev := State.with_results [custom; Scenario.a1] (initialState "gemini-flash") in
  In custom (State.results (mergeResults [Scenario.a1; Scenario.b1] prev)).
Proof.
  intros custom prev.
  destruct (mergeResults_keeps_and_adds [Scenario.a1; Scenario.b1] prev) as (H & _).
  apply H; [now left | left; reflexivity].
Defined.

(** X18 -- a merge introduces no duplicate URL: if the URLs of the list were
    pairwise distinct, and those of the response too, so are the URLs of the
    merged list. *)
Theorem mergeResults_no_duplicate_url
    (newResults : list SearchResult.t) (prev : State.t) :
  List.NoDup (map SearchResult.url (State.results prev)) ->
  List.NoDup (map SearchResult.url newResults) ->
  List.NoDup (map SearchResult.url (State.results (mergeResults newResults prev))).
Proof.
  intros Hprev Hnew. rewrite mergeResults_results, map_app.
  apply List.NoDup_app; try now apply NoDup_map_filter.
  intros u Hkept Hfresh.
  apply in_map_iff in Hkept as (r & <- & Hr). apply filter_In in Hr as [Hr _].
  apply in_map_iff in Hfresh as (n & Hu & Hn). apply filter_In in Hn as [_ Hn].
  apply negb_true_iff in Hn. rewrite Hu in Hn.
  assert (hasUrl (State.results prev) (SearchResult.url r) = true)
    by (apply hasUrl_spec; now apply in_map).
  congruence.
Qed.

Lemma mergeResults_no_duplicate_url_witness :
  let prev := State.with_results [Scenario.a1; Scenario.c1] (initialState "gemini-flash") in
  List.NoDup (map SearchResult.url
                (State.results (mergeResults [Scenario.a1; Scenario.b1] prev))).
Proof.
  intros prev. apply (mergeResults_no_duplicate_url [Scenario.a1; Scenario.b1] prev).
  - simpl. repeat constructor; simpl; intuition discriminate.
  - simpl. repeat constructor; simpl; intuition discriminate.
Defined.

(** ** How the handlers end *)

Section HandlerFacts.
Context {W : Type} (env : Collaborators W).
Implicit Types (m : Machine W) (state : State.t).

Lemma ensures_bind {A B} (P : Machine W -> Prop) (x : M W A) (k : A -> M W B)
    (Q : A -> Machine W -> Prop) (Q' : B -> Machine W -> Prop) (R : Machine W -> Prop) :
  ensures P x Q R -> (forall a, ensures (Q a) (k a) Q' R) -> ensures P (bind x k) Q' R.
Proof.
  intros Hx Hk m Hm. unfold bind. specialize (Hx m Hm).
  destruct (x m) as [[a|e] m1]; [exact (Hk a m1 Hx) | exact Hx].
Qed.

Lemma ensures_keeps {A} (P : Machine W -> Prop) (x : M W A) :
  keeps P x -> ensures P x (fun _ => P) P.
Proof.
  intros Hx m Hm. specialize (Hx m Hm). now destruct (x m) as [[a|e] m1].
Qed.

Lemma handleError_run (e : Thrown) (context : string) m :
  handleError e context m
  = (Returned tt,
     mkMachine (State.with_error (Some (errorText e)) (app m)) (ext m)
       (effects m ++ [EffToast context (errorText e)])).
Proof. reflexivity. Qed.

(** A retried operation that returns, returns from one of its calls: nothing
    happens between the return of that call and the return of the loop. *)
Lemma retryLoop_returned_inv {T} (operation : M W T) (baseDelay k i : nat) (last : Thrown)
    m (a : T) m' :
  retryLoop operation baseDelay k i last m = (Returned a, m') ->
  exists m0, operation m0 = (Returned a, m').
Proof.
  revert i last m. induction k as [|k IH]; intros i last m H; simpl in H.
  - discriminate.
  - unfold try_catch in H. destruct (operation m) as [[a0|e] m1] eqn:E.
    + injection H as <- <-. eauto.
    + destruct (isRateLimit e); [|discriminate].
      unfold bind, sleep, perform in H. exact (IH _ _ _ H).
Qed.

Lemma ensures_retry {T} (P : Machine W -> Prop) (operation : M W T)
    (tie : T -> Machine W -> Prop) :
  keeps P (retryWithBackoff_default operation) ->
  (forall m0 a m', operation m0 = (Returned a, m') -> tie a m') ->
  ensures P (retryWithBackoff_default operation) (fun a x => P x /\ tie a x) P.
Proof.
  intros Hk Ht m Hm. specialize (Hk m Hm).
  destruct (retryWithBackoff_default operation m) as [[a|e] m'] eqn:E; [|exact Hk].
  split; [exact Hk|]. unfold retryWithBackoff_default, retryWithBackoff in E.
  apply retryLoop_returned_inv in E as [m0 E]. eauto.
Qed.

(** What an operation that returned got from its endpoint. *)
Lemma agentReportOp_returned contents sources (prompt model : string) m0
    (body : option Report) m' :
  agentReportOp env contents sources prompt model m0 = (Returned body, m') ->
  exists response,
    post_report env (withText contents) sources prompt model (ext m0)
    = (Returned response, ext m')
    /\ Response.json response = Returned body.
Proof.
  unfold agentReportOp, bind, call, settle.
  destruct (post_report env _ _ _ _ (ext m0)) as [[response|e] w] eqn:E; [|discriminate].
  intros H. injection H as Hj <-. cbn. eauto.
Qed.

Lemma manualReportOp_returned contents sources (prompt model : string) m0
    (body : option Report) m' :
  manualReportOp env contents sources prompt model m0 = (Returned body, m') ->
  exists response,
    post_report env (withText contents) sources prompt model (ext m0)
    = (Returned response, ext m')
    /\ Response.ok response = true
    /\ Response.json response = Returned body.
Proof.
  unfold manualReportOp, bind, call, settle, throw.
  destruct (post_report env _ _ _ _ (ext m0)) as [[response|e] w] eqn:E; [|discriminate].
  destruct (Response.ok response) eqn:Hok; cbn; [|discriminate].
  intros H. injection H as Hj <-. cbn. eauto.
Qed.

Lemma manualSearchOp_returned (query : string) (tf : TimeFilter) m0
    (value : option (list SearchResult.t)) m' :
  manualSearchOp env query tf m0 = (Returned value, m') ->
  exists response,
    post_search env query tf (ext m0) = (Returned response, ext m')
    /\ Response.ok response = true
    /\ Response.json response = Returned value.
Proof.
  unfold manualSearchOp, bind, call, settle, throw.
  destruct (post_search env _ _ (ext m0)) as [[response|e] w] eqn:E; [|discriminate].
  destruct (Response.ok response) eqn:Hok; cbn; [|discriminate].
  intros H. injection H as Hj <-. cbn. eauto.
Qed.

(** Up to the report response the run stays pending; with the response it is
    reported. *)
Lemma agent_body_ensures state :
  ensures pending
    (let* plan := agentPlan env state in agentGenerate env state (fst plan) (snd plan))
    (fun _ => reported env state) pending.
Proof.
  assert (Hset : forall f : State.t -> State.t,
            (forall s, State.error (f s) = State.error s
                       /\ State.report (f s) = State.report s) ->
            keeps (@pending W) (setState f)).
  { intros f Hf. apply keeps_setState. intros x [He Hr]. unfold pending. cbn.
    destruct (Hf (app x)) as [-> ->]. now split. }
  assert (Hsettled : settled (@pending W)) by app_only.
  apply (ensures_bind _ _ _ (fun _ => pending)).
  { apply ensures_keeps. unfold_page.
    repeat first [ keeps_step | apply Hset; intros s; split; reflexivity ]. }
  intros plan. unfold agentGenerate.
  apply (ensures_bind _ _ _ (fun _ => pending)).
  { apply ensures_keeps. unfold_page.
    repeat first [ keeps_step | apply Hset; intros s; split; reflexivity ]. }
  intros _. apply (ensures_bind _ _ _ (fun _ => pending)).
  { apply ensures_keeps. apply keeps_resolveAll; [exact Hsettled | |];
      intros u; apply Hset; intros s; split; reflexivity. }
  intros contents. unfold agentReport.
  apply (ensures_bind _ _ _
           (fun d x =>
              pending x
              /\ exists w response,
                   post_report env (withText contents) (snd plan)
                     (fst plan ++ ". Provide comprehensive analysis.")
                     (State.selectedModel state) w
                   = (Returned response, ext x)
                   /\ Response.json response = Returned d)).
  { apply ensures_retry.
    - unfold_page. repeat keeps_step.
    - intros m0 a m' H. apply agentReportOp_returned in H as (response & H1 & H2). eauto. }
  intros d m [[He Hr] (w & response & H1 & H2)]. unfold reported. cbn.
  split; [exists contents, (snd plan), (fst plan), w, response; auto|].
  split; [exact He|]. split; reflexivity.
Qed.
End HandlerFacts.

(** X19 -- [handleAgentSearch] never lets an exception out.  With a blank
    prompt it only shows a notification: no request, the state untouched.
    Otherwise the run ends in one of two ways: with an error message and no
    report; or with no error message, the stage back to [idle], the report
    tab active, and as the report the JSON body of an answer of the report
    endpoint, whatever that body is. *)
Theorem handleAgentSearch_ends_reported_or_aborted
    {W : Type} (env : Collaborators W) (state : State.t) (m : Machine W) :
  fst (handleAgentSearch env state m) = Returned tt
  /\ (isBlank (State.reportPrompt state) = true ->
      snd (handleAgentSearch env state m)
      = mkMachine (app m) (ext m)
          (effects m ++ [EffToast "Missing Information" "Please provide a research topic"]))
  /\ (isBlank (State.reportPrompt state) = false ->
      aborted (snd (handleAgentSearch env state m))
      \/ reported env state (snd (handleAgentSearch env state m))).
Proof.
  unfold handleAgentSearch. destruct (isBlank (State.reportPrompt state)).
  - split; [reflexivity|]. split; [reflexivity | discriminate].
  - change ((agentReset ;;
             try_catch (let* plan := agentPlan env state in
                        agentGenerate env state (fst plan) (snd plan)) onAgentError) m)
      with (try_catch (let* plan := agentPlan env state in
                       agentGenerate env state (fst plan) (snd plan)) onAgentError
              (snd (agentReset m))).
    destruct (agentReset_run m) as (_ & Hrep & Herr & _).
    pose proof (agent_body_ensures env state (snd (agentReset m)) (conj Herr Hrep)) as H.
    unfold try_catch.
    destruct ((let* plan := agentPlan env state in _) (snd (agentReset m))) as [[[]|e] m'].
    + split; [reflexivity|]. split; [discriminate|]. intros _. right. exact H.
    + unfold onAgentError. rewrite handleError_run.
      split; [reflexivity|]. split; [discriminate|]. intros _. left.
      destruct H as [_ Hr]. split; [eexists; reflexivity | exact Hr].
Qed.

Lemma handleAgentSearch_ends_reported_or_aborted_witness :
  let final := snd (handleAgentSearch Scenario.oneUnreachable (Scenario.start "topic")
                      (Scenario.boot (Scenario.start "topic"))) in
  aborted final \/ reported Scenario.oneUnreachable (Scenario.start "topic") final.
Proof.
  intros final.
  destruct (handleAgentSearch_ends_reported_or_aborted Scenario.oneUnreachable
              (Scenario.start "topic") (Scenario.boot (Scenario.start "topic")))
    as (_ & _ & H).
  apply H. reflexivity.
Defined.

Section ManualFacts.
Context {W : Type} (env : Collaborators W).
Implicit Types (m : Machine W) (state : State.t).

(** The search proper of [manualSearch]. *)
Lemma manual_search_body_ensures state (results0 : list SearchResult.t)
    (selected0 : list string) :
  let P := fun x : Machine W =>
    State.results (app x) = results0 /\ State.selectedResults (app x) = selected0
    /\ State.reportPrompt (app x) = "" /\ State.error (app x) = None in
  ensures P (manualSearchBody env state)
    (fun _ x =>
       State.selectedResults (app x) = selected0 /\ State.reportPrompt (app x) = ""
       /\ State.error (app x) = None
       /\ exists value,
            searchAnswered env state value x
            /\ State.results (app x)
               = (List.filter (fun r => SearchResult.isCustomUrl r
                                        || includesId selected0 (SearchResult.id r)) results0
                  ++ List.filter (fun n => negb (hasUrl results0 (SearchResult.url n)))
                                 (stampIds (date_now env (ext x)) (default [] value)))%list)
    P.
Proof.
  intros P. unfold manualSearchBody.
  apply (ensures_bind _ _ _ (fun response x => P x /\ searchAnswered env state response x)).
  { apply ensures_retry.
    - unfold_page. repeat keeps_step.
    - intros m0 a m' H. apply manualSearchOp_returned in H as (response & H).
      exists (ext m0), response. exact H. }
  intros response.
  apply (ensures_bind _ _ _
           (fun now x => (P x /\ searchAnswered env state response x)
                         /\ now = date_now env (ext x))).
  { intros x Hx. cbn. split; [exact Hx | reflexivity]. }
  intros now x [[(Hr & Hs & Hp & He) Hans] ->]. cbn. rewrite Hr, Hs.
  split; [reflexivity|]. split; [exact Hp|]. split; [reflexivity|].
  exists response. split; [exact Hans | reflexivity].
Qed.

(** When the first answer of the search endpoint is accepted, nothing is
    retried and the merge is that of this answer. *)
Lemma manualSearchBody_first_answer state m
    (response : Response.t (option (list SearchResult.t))) (w1 : W)
    (value : option (list SearchResult.t)) :
  post_search env (State.query state) (State.timeFilter state) (ext m)
  = (Returned response, w1) ->
  Response.ok response = true -> Response.json response = Returned value ->
  manualSearchBody env state m
  = (Returned tt,
     mkMachine (mergeResults (stampIds (date_now env w1) (default [] value)) (app m)) w1
       (effects m
        ++ [EffFetch (ReqSearch (State.query state) (State.timeFilter state) None)])).
Proof.
  intros H Hok Hj.
  assert (Hop : manualSearchOp env (State.query state) (State.timeFilter state) m
                = (Returned value,
                   mkMachine (app m) w1
                     (effects m ++ [EffFetch (ReqSearch (State.query state)
                                                (State.timeFilter state) None)]))).
  { unfold manualSearchOp, bind. rewrite (call_run _ _ _ _ _ H). rewrite Hok. cbn.
    unfold settle. now rewrite Hj. }
  unfold manualSearchBody, bind, retryWithBackoff_default, retryWithBackoff.
  rewrite (retryLoop_returned _ _ _ _ _ _ _ _ Hop). reflexivity.
Qed.

(** The report proper of [manualGenerate]. *)
Lemma manual_generate_body_ensures state :
  let P := fun x : Machine W => State.error (app x) = None in
  ensures P (manualGenerateBody env state)
    (fun _ x => reportAnswered env state (State.report (app x)) x
                /\ State.error (app x) = None /\ State.activeTab (app x) = "report")
    P.
Proof.
  intros P. unfold manualGenerateBody. cbv zeta.
  apply (ensures_bind _ _ _ (fun _ => P)).
  { apply ensures_keeps. apply keeps_resolveAll; [app_only | |];
      intros u; apply keeps_setState; intros x Hx; exact Hx. }
  intros contents.
  apply (ensures_bind _ _ _ (fun d x => P x /\ reportAnswered env state d x)).
  { apply ensures_retry.
    - unfold_page. repeat keeps_step.
    - intros m0 a m' H. apply manualReportOp_returned in H as (response & H).
      exists contents, (ext m0), response. exact H. }
  intros d x [Hx Hans]. cbn. split; [exact Hans|]. split; [exact Hx | reflexivity].
Qed.
End ManualFacts.

(** X20 -- a manual search (non-blank query, nothing selected or agent mode)
    never lets an exception out and always ends with [loading] off, the report
    prompt cleared and the selection as it was.  Either it failed, and then an
    error message is stored and the candidate list is untouched; or the error
    field is null, the search endpoint accepted the request, and the list is
    the kept candidates (custom or selected) followed by the results of that
    answer, their ids stamped, whose URL was not in the list.  In particular,
    when the endpoint accepts the first request, that is the only request and
    the list is built from its answer. *)
Theorem manual_search_settles
    {W : Type} (env : Collaborators W) (state : State.t) (m : Machine W) :
  isBlank (State.query state) = false ->
  (0 <? length (State.selectedResults state)) && negb (State.isAgentMode state) = false ->
  let final := snd (handleSearch env state m) in
  let results0 := State.results (app m) in
  let selected0 := State.selectedResults (app m) in
  fst (handleSearch env state m) = Returned tt
  /\ Status.loading (State.status (app final)) = false
  /\ State.reportPrompt (app final) = ""
  /\ State.selectedResults (app final) = selected0
  /\ (((exists message, State.error (app final) = Some message)
       /\ State.results (app final) = results0)
      \/ (State.error (app final) = None
          /\ exists value,
               searchAnswered env state value final
               /\ State.results (app final)
                  = (List.filter (fun r => SearchResult.isCustomUrl r
                                           || includesId selected0 (SearchResult.id r))
                                 results0
                     ++ List.filter (fun n => negb (hasUrl results0 (SearchResult.url n)))
                                    (stampIds (date_now env (ext final))
                                       (default [] value)))%list))
  /\ (forall response w1 value,
        post_search env (State.query state) (State.timeFilter state) (ext m)
        = (Returned response, w1) ->
        Response.ok response = true -> Response.json response = Returned value ->
        State.error (app final) = None
        /\ ext final = w1
        /\ effects final
           = (effects m
              ++ [EffFetch (ReqSearch (State.query state) (State.timeFilter state) None)])%list
        /\ State.results (app final)
           = (List.filter (fun r => SearchResult.isCustomUrl r
                                    || includesId selected0 (SearchResult.id r))
                          results0
              ++ List.filter (fun n => negb (hasUrl results0 (SearchResult.url n)))
                             (stampIds (date_now env w1) (default [] value)))%list).
Proof.
  intros Hq Hbranch. cbv zeta. unfold handleSearch. rewrite Hq, Hbranch.
  set (m2 := mkMachine
               (State.with_reportPrompt ""
                  (State.with_error None
                     (State.with_status (Status.with_loading true (State.status (app m)))
                        (app m)))) (ext m) (effects m)).
  change (manualSearch env state m)
    with (try_finally (try_catch (manualSearchBody env state)
                         (fun e => handleError e "Search Error"))
            (updateStatus (Status.with_loading false)) m2).
  pose proof (manual_search_body_ensures env state (State.results (app m))
                (State.selectedResults (app m)) m2) as H.
  cbv zeta in H. specialize (H (conj eq_refl (conj eq_refl (conj eq_refl eq_refl)))).
  unfold try_finally, try_catch.
  destruct (manualSearchBody env state m2) as [[[]|e] m3] eqn:E.
  - destruct H as (Hs & Hp & He & value & Hans & Hnew). cbn.
    split; [reflexivity|]. split; [reflexivity|]. split; [exact Hp|]. split; [exact Hs|].
    split.
    + right. split; [exact He|]. exists value. split; [exact Hans | exact Hnew].
    + intros response w1 value' Hw Hok Hj.
      rewrite (manualSearchBody_first_answer env state m2 response w1 value' Hw Hok Hj) in E.
      injection E as <-. cbn. repeat split.
  - destruct H as (Hr & Hs & Hp & He). rewrite handleError_run. cbn.
    split; [reflexivity|]. split; [reflexivity|]. split; [exact Hp|]. split; [exact Hs|].
    split.
    + left. split; [eexists; reflexivity | exact Hr].
    + intros response w1 value' Hw Hok Hj.
      rewrite (manualSearchBody_first_answer env state m2 response w1 value' Hw Hok Hj) in E.
      discriminate E.
Qed.

Lemma manual_search_settles_witness :
  let final := snd (handleSearch Scenario.twoPages Scenario.asking
                      (Scenario.boot Scenario.asking)) in
  State.error (app final) = None
  /\ map SearchResult.url (State.results (app final))
     = ["https://a.example/one"; "https://b.example/"].
Proof.
  intros final.
  destruct (manual_search_settles Scenario.twoPages Scenario.asking
              (Scenario.boot Scenario.asking) eq_refl eq_refl)
    as (_ & _ & _ & _ & [[[message He] _] | [He (value & _ & Hr)]] & _).
  - vm_compute in He. discriminate.
  - split; [exact He | vm_compute; reflexivity].
Defined.

(** X21 -- a manual report request (non-blank query, something selected, not
    agent mode) never lets an exception out and always ends with
    [generatingReport] off.  Either an error message is stored; or the report
    endpoint accepted the request for the selected candidates, and the JSON
    body of its answer, whatever it is, is stored as the report, with no
    error message and the report tab active. *)
Theorem manual_report_settles
    {W : Type} (env : Collaborators W) (state : State.t) (m : Machine W) :
  isBlank (State.query state) = false ->
  (0 <? length (State.selectedResults state)) && negb (State.isAgentMode state) = true ->
  let final := snd (handleSearch env state m) in
  fst (handleSearch env state m) = Returned tt
  /\ Status.generatingReport (State.status (app final)) = false
  /\ ((exists message, State.error (app final) = Some message)
      \/ (reportAnswered env state (State.report (app final)) final
          /\ State.error (app final) = None
          /\ State.activeTab (app final) = "report")).
Proof.
  intros Hq Hbranch. cbv zeta. unfold handleSearch. rewrite Hq, Hbranch.
  set (m2 := mkMachine
               (State.with_status
                  (Status.with_fetchStatus
                     (initialFetchStatus (length (State.selectedResults state)))
                     (State.status
                        (State.with_error None
                           (State.with_status
                              (Status.with_generatingReport true (State.status (app m)))
                              (app m)))))
                  (State.with_error None
                     (State.with_status
                        (Status.with_generatingReport true (State.status (app m)))
                        (app m))))
               (ext m) (effects m)).
  change (manualGenerate env state m)
    with (try_finally (try_catch (manualGenerateBody env state)
                         (fun e => handleError e "Report Generation Failed"))
            (updateStatus (Status.with_generatingReport false)) m2).
  pose proof (manual_generate_body_ensures env state m2 eq_refl) as H.
  unfold try_finally, try_catch.
  destruct (manualGenerateBody env state m2) as [[[]|e] m3].
  - cbn. split; [reflexivity|]. split; [reflexivity|]. right. exact H.
  - rewrite handleError_run. cbn. split; [reflexivity|]. split; [reflexivity|].
    left. eexists; reflexivity.
Qed.

Lemma manual_report_settles_witness :
  let state := State.with_selectedResults ["a"]
                 (State.with_query "rocq" (initialState "gemini-flash")) in
  let final := snd (handleSearch Cases.reportNull state (Scenario.boot state)) in
  Status.generatingReport (State.status (app final)) = false
  /\ reportAnswered Cases.reportNull state None final
  /\ State.report (app final) = None
  /\ State.error (app final) = None
  /\ State.activeTab (app final) = "report".
Proof.
  intros state final.
  destruct (manual_report_settles Cases.reportNull state (Scenario.boot state)
              eq_refl eq_refl) as (_ & Hg & [[message He] | (Hans & He & Ht)]).
  - vm_compute in He. discriminate.
  - split; [exact Hg|]. split; [exact Hans|]. split; [reflexivity|]. split; assumption.
Defined.

(** ** Adding, selecting and removing candidates by hand *)

(** X22 -- [handleAddCustomUrl] never throws, never touches the selection, and
    does one of three things: nothing at all, which it does exactly for a
    blank input and for a URL that the closed-over candidate list holds
    already; for a non-blank input that is no URL, it stores the fixed message
    and shows it under the title [Invalid URL]; for a URL that the closed-over
    candidate list does not hold, it puts a custom candidate in front of the
    current list and clears the input. *)
Theorem handleAddCustomUrl_adds_or_reports
    {W : Type} (env : Collaborators W) (state : State.t) (m : Machine W) :
  let final := snd (handleAddCustomUrl env state m) in
  fst (handleAddCustomUrl env state m) = Returned tt
  /\ State.selectedResults (app final) = State.selectedResults (app m)
  /\ ((final = m
       /\ (isBlank (State.newUrl state) = true
           \/ (hostname env (State.newUrl state) <> None
               /\ hasUrl (State.results state) (State.newUrl state) = true)))
      \/ (isBlank (State.newUrl state) = false
          /\ hostname env (State.newUrl state) = None
          /\ app final = State.with_error (Some "Please enter a valid URL") (app m)
          /\ effects final
             = (effects m ++ [EffToast "Invalid URL" "Please enter a valid URL"])%list)
      \/ (isBlank (State.newUrl state) = false
          /\ hostname env (State.newUrl state) <> None
          /\ hasUrl (State.results state) (State.newUrl state) = false
          /\ State.results (app final)
             = customResult (date_now env (ext m)) (State.newUrl state)
               :: State.results (app m)
          /\ State.newUrl (app final) = ""
          /\ State.error (app final) = State.error (app m)
          /\ effects final = effects m)).
Proof.
  cbv zeta. unfold handleAddCustomUrl.
  destruct (isBlank (State.newUrl state)) eqn:Hb.
  - cbn. split; [reflexivity|]. split; [reflexivity|]. left.
    split; [reflexivity | left; reflexivity].
  - unfold try_catch. destruct (hostname env (State.newUrl state)) as [h|] eqn:Hh.
    + destruct (hasUrl (State.results state) (State.newUrl state)) eqn:Hu; cbn.
      * split; [reflexivity|]. split; [reflexivity|]. left.
        split; [reflexivity | right; split; [discriminate | reflexivity]].
      * split; [reflexivity|]. split; [reflexivity|]. right. right.
        split; [reflexivity|]. split; [discriminate|].
        do 4 (split; [reflexivity|]). reflexivity.
    + cbn. split; [reflexivity|]. split; [reflexivity|]. right. left.
      do 3 (split; [reflexivity|]). reflexivity.
Qed.

Lemma handleAddCustomUrl_adds_or_reports_witness :
  let state := withNewUrl "https://b.example/"
                 (State.with_results [Scenario.a1] (initialState "gemini-flash")) in
  let final := snd (handleAddCustomUrl Cases.plain state (Scenario.boot state)) in
  State.results (app final)
  = [customResult 1700000000000 "https://b.example/"; Scenario.a1]
  /\ State.newUrl (app final) = "".
Proof.
  intros state final.
  destruct (handleAddCustomUrl_adds_or_reports Cases.plain state (Scenario.boot state))
    as (_ & _ & [[_ [Hb | [_ Hu]]] | [(_ & Hh & _) | (_ & _ & _ & Hr & Hn & _)]]).
  - vm_compute in Hb. discriminate.
  - vm_compute in Hu. discriminate.
  - vm_compute in Hh. discriminate.
  - split; [exact Hr | exact Hn].
Defined.

(** X23 -- when the handler sees the current candidate list (the closure is
    not stale) and the URLs of the list are pairwise distinct, they still are
    after [handleAddCustomUrl]. *)
Theorem handleAddCustomUrl_keeps_urls_distinct
    {W : Type} (env : Collaborators W) (state : State.t) (m : Machine W) :
  State.results state = State.results (app m) ->
  List.NoDup (map SearchResult.url (State.results (app m))) ->
  List.NoDup (map SearchResult.url
                (State.results (app (snd (handleAddCustomUrl env state m))))).
Proof.
  intros Hsync Hnd. unfold handleAddCustomUrl.
  destruct (isBlank (State.newUrl state)); [exact Hnd|].
  unfold try_catch. destruct (hostname env (State.newUrl state)) as [h|].
  - destruct (hasUrl (State.results state) (State.newUrl state)) eqn:Hu; cbn.
    + exact Hnd.
    + constructor; [|exact Hnd].
      intros Hin. rewrite <- Hsync in Hin. apply hasUrl_spec in Hin. congruence.
  - cbn. exact Hnd.
Qed.

Lemma handleAddCustomUrl_keeps_urls_distinct_witness :
  let state := withNewUrl "https://b.example/"
                 (State.with_results [Scenario.a1] (initialState "gemini-flash")) in
  List.NoDup (map SearchResult.url
                (State.results
                   (app (snd (handleAddCustomUrl Cases.plain state (Scenario.boot state)))))).
Proof.
  intros state.
  apply (handleAddCustomUrl_keeps_urls_distinct Cases.plain state (Scenario.boot state)).
  - reflexivity.
  - cbn. constructor; [intros [] | constructor].
Defined.

(** X24 -- a toggle concerns one id only: whether any other id is selected
    is the same before and after, and the candidate list, the stored error
    and the report are left as they were. *)
Theorem handleResultSelect_touches_one_id (resultId : string) (prev : State.t) :
  (forall id, id <> resultId ->
     (In id (State.selectedResults (handleResultSelect_update resultId prev))
      <-> In id (State.selectedResults prev)))
  /\ State.results (handleResultSelect_update resultId prev) = State.results prev
  /\ State.error (handleResultSelect_update resultId prev) = State.error prev
  /\ State.report (handleResultSelect_update resultId prev) = State.report prev.
Proof.
  unfold handleResultSelect_update.
  destruct (includesId (State.selectedResults prev) resultId).
  - cbn. split; [|auto]. intros id Hne. rewrite filter_In. split.
    + now intros [H _].
    + intros H. split; [exact H|]. apply Bool.negb_true_iff, String.eqb_neq. exact Hne.
  - destruct (MAX_SELECTIONS <=? length (State.selectedResults prev)).
    + split; [|auto]. intros id _. reflexivity.
    + cbn. split; [|auto]. intros id Hne. rewrite in_app_iff. cbn. split.
      * intros [H | [H | []]]; [exact H | congruence].
      * intros H. now left.
Qed.

(** X25 -- selecting a further id never overwrites a report prompt that is
    there, and in agent mode it never writes one. *)
Theorem handleResultSelect_keeps_prompt (resultId : string) (prev : State.t) :
  includesId (State.selectedResults prev) resultId = false ->
  State.reportPrompt prev <> "" \/ State.isAgentMode prev = true ->
  State.reportPrompt (handleResultSelect_update resultId prev) = State.reportPrompt prev.
Proof.
  intros Hnew Hwhy. unfold handleResultSelect_update. rewrite Hnew.
  destruct (MAX_SELECTIONS <=? length (State.selectedResults prev)); [reflexivity|].
  cbn. destruct Hwhy as [Hp | Ha].
  - apply String.eqb_neq in Hp. rewrite Hp, Bool.andb_false_r. reflexivity.
  - rewrite Ha. reflexivity.
Qed.

Lemma handleResultSelect_keeps_prompt_witness :
  let prev := State.with_results [Scenario.candidate "u" "Title" "s"]
                (Scenario.start "my own prompt") in
  State.reportPrompt (handleResultSelect_update "" prev) = "my own prompt".
Proof.
  intros prev.
  apply (handleResultSelect_keeps_prompt "" prev); [reflexivity | left; discriminate].
Defined.



(** X27 -- deselecting the only selected id empties the selection and clears
    the report prompt, whatever the prompt was. *)
Theorem handleResultSelect_deselect_last (resultId : string) (prev : State.t) :
  includesId (State.selectedResults prev) resultId = true ->
  length (State.selectedResults prev) <= 1 ->
  State.selectedResults (handleResultSelect_update resultId prev) = []
  /\ State.reportPrompt (handleResultSelect_update resultId prev) = "".
Proof.
  intros Hin Hlen. unfold handleResultSelect_update. rewrite Hin.
  apply Nat.leb_le in Hlen. rewrite Hlen. cbn. split; [|reflexivity].
  apply Nat.leb_le in Hlen.
  destruct (State.selectedResults prev) as [|x [|y l]]; cbn in *;
    [discriminate | | lia].
  rewrite Bool.orb_false_r in Hin. apply String.eqb_eq in Hin. subst x.
  rewrite String.eqb_refl. reflexivity.
Qed.

Lemma handleResultSelect_deselect_last_witness :
  let prev := State.with_selectedResults ["r1"] (Scenario.start "my own prompt") in
  State.selectedResults (handleResultSelect_update "r1" prev) = []
  /\ State.reportPrompt (handleResultSelect_update "r1" prev) = "".
Proof.
  intros prev.
  apply (handleResultSelect_deselect_last "r1" prev); [reflexivity | cbn; lia].
Defined.

(** X28 -- [handleRemoveResult] takes the id out of both lists and nothing
    else: no candidate with that id is left and the id is not selected, every
    other candidate and every other selected id is there exactly when it was
    before, and the report prompt stays, also when the selection becomes
    empty. *)
Theorem handleRemoveResult_removes_one_id (resultId : string) (prev : State.t) :
  let next := handleRemoveResult_update resultId prev in
  (forall r, In r (State.results next)
             <-> In r (State.results prev) /\ SearchResult.id r <> resultId)
  /\ (forall id, In id (State.selectedResults next)
                 <-> In id (State.selectedResults prev) /\ id <> resultId)
  /\ State.reportPrompt next = State.reportPrompt prev.
Proof.
  cbv zeta. unfold handleRemoveResult_update. cbn.
  split; [|split; [|reflexivity]].
  - intros r. rewrite filter_In, Bool.negb_true_iff, String.eqb_neq. reflexivity.
  - intros id. rewrite filter_In, Bool.negb_true_iff, String.eqb_neq. reflexivity.
Qed.

(** X29 -- no handler of the page lets the selection grow past the cap: from
    a state with at most [MAX_SELECTIONS] selected ids, an agent run, a
    manual search or report, a toggle, a removal and the addition of a URL
    all end with at most [MAX_SELECTIONS] selected ids, whatever the
    endpoints answer. *)
Theorem handlers_keep_selection_within_cap
    {W : Type} (env : Collaborators W) (state : State.t) (resultId : string)
    (m : Machine W) :
  length (State.selectedResults (app m)) <= MAX_SELECTIONS ->
  length (State.selectedResults (app (snd (handleAgentSearch env state m))))
    <= MAX_SELECTIONS
  /\ length (State.selectedResults (app (snd (handleSearch env state m))))
     <= MAX_SELECTIONS
  /\ length (State.selectedResults (app (snd (handleResultSelect resultId m))))
     <= MAX_SELECTIONS
  /\ length (State.selectedResults (handleRemoveResult_update resultId (app m)))
     <= MAX_SELECTIONS
  /\ length (State.selectedResults (app (snd (handleAddCustomUrl env state m))))
     <= MAX_SELECTIONS.
Proof.
  intros Hcap.
  split; [exact (handleAgentSearch_withinCap env state m Hcap)|].
  split; [exact (handleSearch_withinCap env state m Hcap)|].
  split; [exact (handleResultSelect_withinCap resultId m Hcap)|].
  split; [exact (handleRemoveResult_withinCap resultId m Hcap)|].
  unfold handleAddCustomUrl.
  destruct (isBlank (State.newUrl state)); [exact Hcap|].
  unfold try_catch. destruct (hostname env (State.newUrl state)).
  - destruct (hasUrl (State.results state) (State.newUrl state)); exact Hcap.
  - exact Hcap.
Qed.

Lemma handlers_keep_selection_within_cap_witness :
  length (State.selectedResults
            (app (snd (handleAgentSearch Cases.plain (Scenario.start "test")
                         (Scenario.boot (Scenario.start "test"))))))
    <= MAX_SELECTIONS.
Proof.
  apply (handlers_keep_selection_within_cap Cases.plain (Scenario.start "test") "r1"
           (Scenario.boot (Scenario.start "test"))).
  cbn. lia.
Defined.

(** X30 -- no handler of the page ever assigns the stage [error]: from a
    state in another stage, an agent run, a manual search or report, a
    toggle, a removal and the addition of a URL all end in another stage,
    whatever the endpoints answer and whatever fails. *)
Theorem handlers_never_enter_error_stage
    {W : Type} (env : Collaborators W) (state : State.t) (resultId : string)
    (m : Machine W) :
  Status.agentStep (State.status (app m)) <> error ->
  Status.agentStep (State.status (app (snd (handleAgentSearch env state m)))) <> error
  /\ Status.agentStep (State.status (app (snd (handleSearch env state m)))) <> error
  /\ Status.agentStep (State.status (app (snd (handleResultSelect resultId m)))) <> error
  /\ Status.agentStep (State.status (handleRemoveResult_update resultId (app m))) <> error
  /\ Status.agentStep (State.status (app (snd (handleAddCustomUrl env state m)))) <> error.
Proof.
  intros Hstage.
  split; [exact (handleAgentSearch_notErrorStep env state m Hstage)|].
  split; [exact (handleSearch_notErrorStep env state m Hstage)|].
  split.
  { cbn. unfold handleResultSelect_update.
    destruct (includesId (State.selectedResults (app m)) resultId); [exact Hstage|].
    destruct (MAX_SELECTIONS <=? length (State.selectedResults (app m))); exact Hstage. }
  split; [exact Hstage|].
  unfold handleAddCustomUrl.
  destruct (isBlank (State.newUrl state)); [exact Hstage|].
  unfold try_catch. destruct (hostname env (State.newUrl state)).
  - destruct (hasUrl (State.results state) (State.newUrl state)); exact Hstage.
  - exact Hstage.
Qed.

Lemma handlers_never_enter_error_stage_witness :
  Status.agentStep
    (State.status
       (app (snd (handleAgentSearch Cases.optimizeLimited (Scenario.start "test")
                    (Scenario.boot (Scenario.start "test"))))))
  <> error.
Proof.
  apply (handlers_never_enter_error_stage Cases.optimizeLimited (Scenario.start "test") "r1"
           (Scenario.boot (Scenario.start "test"))).
  cbn. discriminate.
Defined.
